(** * File-manager MCP server (src/index.js): shallow embedding and properties

    The server keeps no state of its own: every tool call reads and mutates
    the host file system.  The embedding has three layers:

    - [JsString]: the JavaScript string and number methods the handlers use;
    - [NodePath]: the part of Node's [path] module the handlers use;
    - the file system as a tree, the [fs/promises] and [adm-zip] calls on
      it, and the handlers of [FileManagerServer] as state-passing functions
      that return a text payload or throw.

    Conventions of the model:

    - strings are byte strings, and [toLowerCase] folds the ASCII letters;
    - sizes and modification times are integers; a size stays below 2^53,
      so that its quotient by 1024 or 1048576 is exact in a double;
    - a resolved path is the list of its components; drive letters and UNC
      prefixes are left out;
    - a directory lists its entries in the order [readdir] reports them;
      symbolic links and other special files are opaque entries; the tree
      records size and time of regular files only, and what [stat] answers
      for a directory or a special entry is a parameter of the host, like
      the time stamp a copy gets;
    - every [while (true)] loop runs on fuel, and the properties say how much
      fuel is enough. *)

From Stdlib Require Import String Ascii List ZArith Lia Bool Arith.
From Stdlib Require Import DecimalString DecimalNat Sorting.Sorted Sorting.Permutation.
Import ListNotations.
Open Scope string_scope.

(* ===================================================================== *)
(** ** JavaScript strings                                                 *)
(* ===================================================================== *)

Module JsString.

Definition lower_ascii (c : ascii) : ascii :=
  let n := nat_of_ascii c in
  if ((65 <=? n)%nat && (n <=? 90)%nat)%bool then ascii_of_nat (n + 32) else c.

(** [s.toLowerCase()] *)
Fixpoint toLowerCase (s : string) : string :=
  match s with
  | EmptyString => EmptyString
  | String c t => String (lower_ascii c) (toLowerCase t)
  end.

(** [s.startsWith(p)] *)
Definition startsWith (s p : string) : bool := String.prefix p s.

(** [s.endsWith(suf)] *)
Fixpoint endsWith (s suf : string) : bool :=
  (s =? suf) ||
  match s with
  | EmptyString => false
  | String _ t => endsWith t suf
  end.

(** [s.includes(sub)] *)
Fixpoint includes (s sub : string) : bool :=
  String.prefix sub s ||
  match s with
  | EmptyString => false
  | String _ t => includes t sub
  end.

(** [s.split(sep)] for a one-character separator. *)
Fixpoint split (sep : ascii) (s : string) : list string :=
  match s with
  | EmptyString => [EmptyString]
  | String c t =>
      if Ascii.eqb c sep then EmptyString :: split sep t
      else match split sep t with
           | h :: r => String c h :: r
           | [] => [String c EmptyString]
           end
  end.

(** [a.slice(1)] on an array. *)
Definition slice1 {A} (a : list A) : list A := skipn 1 a.

(** [a.join(sep)] *)
Definition join (sep : string) (a : list string) : string := String.concat sep a.

(** [s.replace(/^\./, "")] *)
Definition stripLeadingDot (s : string) : string :=
  match s with
  | String "." t => t
  | _ => s
  end.

(** Template interpolation of a non-negative integer: [`${n}`]. *)
Definition showNat (n : nat) : string := NilZero.string_of_uint (Nat.to_uint n).

Definition showZ (z : Z) : string := NilZero.string_of_int (Z.to_int z).

(** [!s] for a string-or-undefined argument: undefined and "" are falsy. *)
Definition falsy (a : option string) : bool :=
  match a with
  | None => true
  | Some s => s =? ""
  end.

(** [a || d] for a string-or-undefined argument. *)
Definition orDefault (a : option string) (d : string) : string :=
  match a with
  | Some s => if s =? "" then d else s
  | None => d
  end.

End JsString.
Import JsString.

(* ===================================================================== *)
(** ** Node's [path] module                                               *)
(* ===================================================================== *)

(** A resolved path is the list of its components below the root, already
    normalised.  Strings handed to [path.join] and [path.resolve] are cut at
    the platform's separators and normalised ("." and empty segments vanish,
    ".." pops a component). *)

Inductive platform := Posix | Win32.

Definition path := list string.

Module NodePath.

Definition isSep (pf : platform) (c : ascii) : bool :=
  match pf with
  | Posix => Ascii.eqb c "/"
  | Win32 => Ascii.eqb c "/" || Ascii.eqb c "\"
  end.

(** Raw segments of a string: cut at every separator. *)
Fixpoint segments (pf : platform) (s : string) : list string :=
  match s with
  | EmptyString => [EmptyString]
  | String c t =>
      if isSep pf c then EmptyString :: segments pf t
      else match segments pf t with
           | h :: r => String c h :: r
           | [] => [String c EmptyString]
           end
  end.

Definition normStep (acc : path) (seg : string) : path :=
  if (seg =? "") || (seg =? ".") then acc
  else if seg =? ".." then removelast acc
  else (acc ++ [seg])%list.

(** [path.join(dir, rel)] for an already resolved [dir]. *)
Definition join (pf : platform) (dir : path) (rel : string) : path :=
  fold_left normStep (segments pf rel) dir.

Definition isAbsolute (pf : platform) (s : string) : bool :=
  match s with
  | String c _ => isSep pf c
  | EmptyString => false
  end.

(** [path.resolve(s)] in a process whose working directory is [cwd]. *)
Definition resolve (pf : platform) (cwd : path) (s : string) : path :=
  if isAbsolute pf s then join pf [] s else join pf cwd s.

(** [path.basename(p)] of a resolved path. *)
Definition basename (p : path) : string := last p "".

(** [path.basename(s)] of a raw string: its last non-empty segment. *)
Definition basenameStr (pf : platform) (s : string) : string :=
  last (filter (fun seg => negb (seg =? "")) (segments pf s)) "".

(** The suffix of [s] that starts at its last dot, if it has a dot. *)
Fixpoint lastDotSuffix (s : string) : option string :=
  match s with
  | EmptyString => None
  | String c t =>
      match lastDotSuffix t with
      | Some e => Some e
      | None => if Ascii.eqb c "." then Some s else None
      end
  end.

(** [path.extname] of one component: from the last dot to the end; empty
    when there is no dot, when the only dot is the first character, and for
    "..". *)
Definition extnameComp (name : string) : string :=
  match name with
  | EmptyString => ""
  | String _ t =>
      if name =? ".." then ""
      else match lastDotSuffix t with
           | Some e => e
           | None => ""
           end
  end.

(** [path.extname(s)] *)
Definition extname (pf : platform) (s : string) : string :=
  extnameComp (basenameStr pf s).

Fixpoint stripSuffix (s suf : string) : option string :=
  if s =? suf then Some ""
  else match s with
       | EmptyString => None
       | String c t => option_map (String c) (stripSuffix t suf)
       end.

(** [path.basename(name, ext)] of one component. *)
Definition basenameExt (name ext : string) : string :=
  if ext =? "" then name
  else if name =? ext then ""
  else match stripSuffix name ext with
       | Some b => b
       | None => name
       end.

(** [path.relative(from, to)] on resolved paths, as its segments. *)
Fixpoint relativeParts (from to : path) : list string :=
  match from, to with
  | a :: from', b :: to' =>
      if a =? b then relativeParts from' to'
      else (map (fun _ => "..") from ++ to)%list
  | _, _ => (map (fun _ => "..") from ++ to)%list
  end.

Definition sepString (pf : platform) : string :=
  match pf with
  | Posix => "/"
  | Win32 => "\"
  end.

Definition relative (pf : platform) (from to : path) : string :=
  String.concat (sepString pf) (relativeParts from to).

(** How a resolved path prints inside a message. *)
Definition show (pf : platform) (p : path) : string :=
  match pf with
  | Posix => "/" ++ String.concat "/" p
  | Win32 => String.concat "\" p
  end.

End NodePath.


(* ===================================================================== *)
(** ** The file system                                                    *)
(* ===================================================================== *)

(** What [AdmZip] sees in an archive: entry names, kinds, payloads and
    the time stamp recorded for the entry. *)
Record zipEntry := {
  entryName : string;
  entryIsDirectory : bool;
  entryData : string;
  entryTime : Z
}.

Inductive content :=
| Bytes (b : string)
| Archive (entries : list zipEntry).

(** [fs.Stats]: the two fields the handlers read; [mtime] in milliseconds. *)
Record stats := { size : Z; mtime : Z }.

#[local] Set Warnings "-register-all".

(** A directory keeps its entries in the order [readdir] reports them.
    [Other] stands for every entry that is neither a regular file nor a
    directory (symbolic links, sockets, devices): its [Dirent] answers false
    to both [isFile()] and [isDirectory()]. *)
Inductive node :=
| File (st : stats) (c : content)
| Dir (es : list (string * node))
| Other.

Definition fsState := node.

Module Fs.

Fixpoint assoc (k : string) (es : list (string * node)) : option node :=
  match es with
  | [] => None
  | (k', v) :: r => if k' =? k then Some v else assoc k r
  end.

(** Replace the first entry named [k], or append a new entry. *)
Fixpoint setEntry (k : string) (v : node) (es : list (string * node)) : list (string * node) :=
  match es with
  | [] => [(k, v)]
  | (k', v') :: r => if k' =? k then (k, v) :: r else (k', v') :: setEntry k v r
  end.

Definition delEntry (k : string) (es : list (string * node)) : list (string * node) :=
  filter (fun e => negb (fst e =? k)) es.

Fixpoint lookup (n : node) (p : path) : option node :=
  match p with
  | [] => Some n
  | c :: q =>
      match n with
      | Dir es => match assoc c es with
                  | Some ch => lookup ch q
                  | None => None
                  end
      | _ => None
      end
  end.

(** Put [x] at [p]; the parent of [p] must be an existing directory. *)
Fixpoint insert (n : node) (p : path) (x : node) : option node :=
  match p with
  | [] => Some x
  | c :: q =>
      match n with
      | Dir es =>
          match q with
          | [] => Some (Dir (setEntry c x es))
          | _ :: _ =>
              match assoc c es with
              | Some ch => match insert ch q x with
                           | Some ch' => Some (Dir (setEntry c ch' es))
                           | None => None
                           end
              | None => None
              end
          end
      | _ => None
      end
  end.

Fixpoint remove (n : node) (p : path) : node :=
  match p with
  | [] => n
  | c :: q =>
      match n with
      | Dir es =>
          match q with
          | [] => Dir (delEntry c es)
          | _ :: _ =>
              match assoc c es with
              | Some ch => Dir (setEntry c (remove ch q) es)
              | None => n
              end
          end
      | _ => n
      end
  end.

(** [mkdir -p]: fails when a component of [p] exists and is no directory. *)
Fixpoint mkdirp (n : node) (p : path) : option node :=
  match n with
  | Dir es =>
      match p with
      | [] => Some n
      | c :: q =>
          match assoc c es with
          | Some ch => match mkdirp ch q with
                       | Some ch' => Some (Dir (setEntry c ch' es))
                       | None => None
                       end
          | None => match mkdirp (Dir []) q with
                    | Some ch' => Some (Dir (setEntry c ch' es))
                    | None => None
                    end
          end
      end
  | _ => None
  end.

Definition exists_ (s : fsState) (p : path) : bool :=
  match lookup s p with
  | Some _ => true
  | None => false
  end.

End Fs.

(* ===================================================================== *)
(** ** Handlers run in a state-and-exception monad                        *)
(* ===================================================================== *)

(** A call returns a value, throws an [Error] with a message, or is still
    looping when the fuel of an unbounded [while (true)] is used up. *)
Inductive outcome (A : Type) :=
| Ret (a : A)
| Throw (message : string)
| OutOfFuel.
Arguments Ret {A} a.
Arguments Throw {A} message.
Arguments OutOfFuel {A}.

Definition M (A : Type) := fsState -> outcome A * fsState.

Definition ret {A} (a : A) : M A := fun s => (Ret a, s).
Definition throw {A} (msg : string) : M A := fun s => (Throw msg, s).
Definition bind {A B} (m : M A) (k : A -> M B) : M B :=
  fun s => match m s with
           | (Ret a, s') => k a s'
           | (Throw e, s') => (Throw e, s')
           | (OutOfFuel, s') => (OutOfFuel, s')
           end.
Definition get : M fsState := fun s => (Ret s, s).
Definition put (s' : fsState) : M unit := fun _ => (Ret tt, s').

(** [try { m } catch { h }] *)
Definition tryCatch {A} (m : M A) (h : string -> M A) : M A :=
  fun s => match m s with
           | (Throw e, s') => h e s'
           | r => r
           end.

Declare Scope m_scope.
Delimit Scope m_scope with M.
Notation "x <- m ;; k" := (bind m (fun x => k))
  (at level 61, m at next level, right associativity) : m_scope.
Notation "m ;;; k" := (bind m (fun _ => k))
  (at level 61, right associativity) : m_scope.
Open Scope m_scope.

Definition nl : string := String (ascii_of_nat 10) EmptyString.

(** The UTF-8 bytes of the party-popper sign in the success message. *)
Definition tada : string :=
  String (ascii_of_nat 240) (String (ascii_of_nat 159)
    (String (ascii_of_nat 142) (String (ascii_of_nat 137) EmptyString))).

(** [if (a)] on a string-or-undefined argument: the string when truthy. *)
Definition truthy (a : option string) : option string :=
  match a with
  | Some s => if s =? "" then None else Some s
  | None => None
  end.

(** The argument bag of a tool call. *)
Record args := {
  filename : option string;
  destination : option string;
  source : option string;
  subfolder : option string;
  destination_folder : option string;
  name : option string;
  location : option string;
  directory : option string;
  file_type : option string;
  limit : option Z
}.

Definition noArgs : args :=
  {| filename := None; destination := None; source := None; subfolder := None;
     destination_folder := None; name := None; location := None;
     directory := None; file_type := None; limit := None |}.

(** One element of [fileDetails] in [handleListFiles]. *)
Record fileDetail := {
  fdName : string;
  fdSize : Z;
  fdModified : Z;
  fdExtension : string
}.

(** One element of [fileStats] in [handleMoveLatestSvg]. *)
Record fileStat := { filePath : path; fsMtime : Z }.

(** One element of [fileDetails] in [handleListZip]. *)
Record zipDetail := { zdName : string; zdSize : Z; zdModified : Z }.

(** Two paths that part ways at some component: neither is a prefix of
    the other. *)
Inductive diverge : path -> path -> Prop :=
| diverge_here : forall a b p q, a <> b -> diverge (a :: p) (b :: q)
| diverge_next : forall a p q, diverge p q -> diverge (a :: p) (a :: q).

Section Server.

(** The host: platform, [os.homedir()], the working directory of the
    process and the locale's rendering of a time stamp. *)
Variable pf : platform.
Variable homedir : path.
Variable cwd : path.
Variable toLocaleString : Z -> string.

(** The modification time [fs.copyFile] leaves on the file it writes,
    given that of the source.  The system's copy routine decides it: Linux
    stamps the copy with the time of the call, Windows and file systems
    that clone keep the time of the source. *)
Variable copyStamp : Z -> Z.

(** What [fs.stat] answers where the tree keeps no [stats]: for the
    directory at a path, and for a special entry (for a symbolic link the
    stats of what it points to, nothing when it points nowhere). *)
Variable dirStats : path -> stats.
Variable otherStats : path -> option stats.

Definition DOWNLOADS_DIR : path := NodePath.join pf homedir "Downloads".
Definition DOCUMENTS_DIR : path := NodePath.join pf homedir "OneDrive\Documents".

Definition showPath (p : path) : string := NodePath.show pf p.

Definition sysError (code syscall : string) (p : path) : string :=
  code ++ ", " ++ syscall ++ " '" ++ showPath p ++ "'".

(** *** [fs/promises] *)

Definition access (p : path) : M unit :=
  fun s => if Fs.exists_ s p then (Ret tt, s)
           else (Throw (sysError "ENOENT: no such file or directory" "access" p), s).

Definition readdir (p : path) : M (list (string * node)) :=
  fun s => match Fs.lookup s p with
           | Some (Dir es) => (Ret es, s)
           | Some _ => (Throw (sysError "ENOTDIR: not a directory" "scandir" p), s)
           | None => (Throw (sysError "ENOENT: no such file or directory" "scandir" p), s)
           end.

(** [fs.stat(p)] follows links and answers for every kind of entry. *)
Definition stat (p : path) : M stats :=
  fun s => match Fs.lookup s p with
           | Some (File st _) => (Ret st, s)
           | Some (Dir _) => (Ret (dirStats p), s)
           | Some Other =>
               match otherStats p with
               | Some st => (Ret st, s)
               | None => (Throw (sysError "ENOENT: no such file or directory" "stat" p), s)
               end
           | None => (Throw (sysError "ENOENT: no such file or directory" "stat" p), s)
           end.

(** [fs.mkdir(p, { recursive: true })] *)
Definition mkdir (p : path) : M unit :=
  fun s => match Fs.mkdirp s p with
           | Some s' => (Ret tt, s')
           | None => (Throw (sysError "EEXIST: file already exists" "mkdir" p), s)
           end.

(** [fs.rename(oldPath, newPath)]: the node moves, replacing a file that is
    in the way; a directory in the way, a missing source and a missing
    parent of the target are errors. *)
Definition rename (oldPath newPath : path) : M unit :=
  fun s => match Fs.lookup s oldPath with
           | None => (Throw (sysError "ENOENT: no such file or directory" "rename" oldPath), s)
           | Some n =>
               match Fs.lookup s newPath with
               | Some (Dir _) =>
                   (Throw (sysError "EISDIR: illegal operation on a directory" "rename" newPath), s)
               | _ =>
                   match Fs.insert (Fs.remove s oldPath) newPath n with
                   | Some s' => (Ret tt, s')
                   | None => (Throw (sysError "ENOENT: no such file or directory" "rename" newPath), s)
                   end
               end
           end.

(** The [stats] of the file [fs.copyFile] writes. *)
Definition copiedStats (st : stats) : stats :=
  {| size := size st; mtime := copyStamp (mtime st) |}.

(** [fs.copyFile(src, dest)]: regular files only; [dest] is overwritten. *)
Definition copyFile (src dest : path) : M unit :=
  fun s => match Fs.lookup s src with
           | Some (File st c) =>
               match Fs.lookup s dest with
               | Some (Dir _) =>
                   (Throw (sysError "EISDIR: illegal operation on a directory" "copyfile" dest), s)
               | _ =>
                   match Fs.insert s dest (File (copiedStats st) c) with
                   | Some s' => (Ret tt, s')
                   | None => (Throw (sysError "ENOENT: no such file or directory" "copyfile" dest), s)
                   end
               end
           | Some _ => (Throw (sysError "EISDIR: illegal operation on a directory" "copyfile" src), s)
           | None => (Throw (sysError "ENOENT: no such file or directory" "copyfile" src), s)
           end.

(** *** [adm-zip] *)

(** [new AdmZip(zipPath)] followed by [zip.getEntries()]. *)
Definition openZip (zipPath : path) : M (list zipEntry) :=
  fun s => match Fs.lookup s zipPath with
           | Some (File _ (Archive entries)) => (Ret entries, s)
           | Some _ => (Throw "Invalid or unsupported zip format. No END header found", s)
           | None => (Throw "Invalid filename", s)
           end.

(** The file an archive entry becomes on disk. *)
Definition extracted (e : zipEntry) : node :=
  File {| size := Z.of_nat (String.length (entryData e)); mtime := entryTime e |}
       (Bytes (entryData e)).

(** The library's [writeFileTo]: an existing directory is never replaced,
    an existing file only when [overwrite] is set; the parent directories
    are created. *)
Definition writeFileTo (p : path) (e : zipEntry) (overwrite : bool) : M unit :=
  fun s =>
    let write :=
      match Fs.mkdirp s (removelast p) with
      | Some s1 =>
          match Fs.insert s1 p (extracted e) with
          | Some s2 => (Ret tt, s2)
          | None => (Throw "Unable to write file", s)
          end
      | None => (Throw "Unable to create folder", s)
      end in
    match Fs.lookup s p with
    | Some (Dir _) => (Ret tt, s)
    | Some _ => if overwrite then write else (Ret tt, s)
    | None => write
    end.

(** The library's [canonical(entryName)]: the name is cut at "/" and at
    "\" on every platform and normalised as a path below a root, so "."
    and empty segments vanish and ".." pops a component but never climbs
    above the root. *)
Definition canonical (entryName : string) : path :=
  fold_left NodePath.normStep (NodePath.segments Win32 entryName) [].

(** Where an entry of the archive is written:
    [sanitize(targetPath, canonical(entry.entryName))]. *)
Definition entryPath (target : path) (e : zipEntry) : path :=
  (target ++ canonical (entryName e))%list.

(** [zip.extractAllTo(targetPath, overwrite)] *)
Fixpoint extractAllTo (targetPath : path) (entries : list zipEntry) (overwrite : bool) : M unit :=
  match entries with
  | [] => ret tt
  | e :: rest =>
      (if entryIsDirectory e
       then mkdir (entryPath targetPath e)
       else writeFileTo (entryPath targetPath e) e overwrite) ;;;
      extractAllTo targetPath rest overwrite
  end.

(** *** [findFiles] *)

(** The inner [walk] of [findFiles]; [n] is the directory found at
    [currentDir].  Only entries whose [Dirent] says [isDirectory()] are
    descended into, only those that say [isFile()] are collected. *)
Fixpoint walk (extension : string) (currentDir : path) (n : node) {struct n} : list path :=
  match n with
  | Dir es =>
      (fix each (es : list (string * node)) : list path :=
         match es with
         | [] => []
         | (entryName, child) :: rest =>
             let fullPath := NodePath.join pf currentDir entryName in
             (match child with
              | Dir _ => walk extension fullPath child
              | File _ _ =>
                  if endsWith (toLowerCase entryName) extension then [fullPath] else []
              | Other => []
              end ++ each rest)%list
         end) es
  | _ => []
  end.

(** What one directory entry contributes to [walk]. *)
Definition walkEntry (extension : string) (currentDir : path) (e : string * node) : list path :=
  match snd e with
  | Dir _ => walk extension (NodePath.join pf currentDir (fst e)) (snd e)
  | File _ _ =>
      if endsWith (toLowerCase (fst e)) extension
      then [NodePath.join pf currentDir (fst e)] else []
  | Other => []
  end.

Definition findFiles (dir : path) (extension : string) : M (list path) :=
  es <- readdir dir ;;
  ret (walk extension dir (Dir es)).

(** *** The duplicate-name loop

    Every handler that moves or copies a file runs the same loop:
    [let counter = 1; while (true) { try { access(finalDestPath); ... } catch { break } }]. *)
(** [const ext = path.extname(sourceName)] *)
Definition extOf (sourceName : string) : string := NodePath.extname pf sourceName.

(** [const base = path.basename(sourceName, ext)] *)
Definition baseOf (sourceName : string) : string :=
  NodePath.basenameExt (NodePath.basenameStr pf sourceName) (extOf sourceName).

(** [path.join(destDir, `${base}_${counter}${ext}`)] *)
Definition numbered (destDir : path) (sourceName : string) (counter : nat) : path :=
  let ext := extOf sourceName in
  let base := baseOf sourceName in
  NodePath.join pf destDir (base ++ "_" ++ showNat counter ++ ext).

(** The path the loop holds when its counter is [S i]: the desired path
    first, the [i]-th numbered name afterwards. *)
Definition probeAt (destDir : path) (sourceName : string) (i : nat) : path :=
  match i with
  | O => NodePath.join pf destDir sourceName
  | S _ => numbered destDir sourceName i
  end.

Fixpoint uniqueDest (fuel : nat) (destDir : path) (sourceName : string)
         (finalDestPath : path) (counter : nat) : M path :=
  match fuel with
  | O => fun s => (OutOfFuel, s)
  | S fuel' =>
      taken <- tryCatch (access finalDestPath ;;; ret true) (fun _ => ret false) ;;
      if taken : bool then
        uniqueDest fuel' destDir sourceName (numbered destDir sourceName counter) (S counter)
      else ret finalDestPath
  end.

(** [for (const svgPath of svgFiles) { ... rename ...; movedFiles.push(...) }] *)
Fixpoint moveEach (fuel : nat) (destDir : path) (svgFiles : list path)
         (movedFiles : list string) : M (list string) :=
  match svgFiles with
  | [] => ret movedFiles
  | svgPath :: rest =>
      let filename := NodePath.basename svgPath in
      let destPath := NodePath.join pf destDir filename in
      finalDestPath <- uniqueDest fuel destDir filename destPath 1 ;;
      rename svgPath finalDestPath ;;;
      moveEach fuel destDir rest (movedFiles ++ [NodePath.basename finalDestPath])%list
  end.

(** [path.basename(filename, ".zip")] on the raw argument. *)
Definition basenameZip (filename : string) : string :=
  if filename =? ".zip" then ""
  else let b := NodePath.basenameStr pf filename in
       if b =? ".zip" then b
       else match NodePath.stripSuffix b ".zip" with
            | Some stem => stem
            | None => b
            end.

(** *** Handlers *)

(** Where [unzip_file] extracts to: Downloads unless [destination] says otherwise. *)
Definition unzipDestDirOf (a : args) : path :=
  match truthy (destination a) with
  | None => DOWNLOADS_DIR
  | Some d =>
      let dest := toLowerCase d in
      if dest =? "downloads" then DOWNLOADS_DIR
      else if dest =? "documents" then DOCUMENTS_DIR
      else NodePath.resolve pf cwd d
  end.

Definition unzipText (filename : string) (extractPath : path) (entries : list zipEntry) : string :=
  let fileList := join nl (map entryName entries) in
  "Successfully unzipped " ++ filename ++ " to " ++ showPath extractPath
  ++ nl ++ nl ++ "Extracted " ++ showNat (List.length entries) ++ " files:" ++ nl
  ++ fileList.

Definition handleUnzip (fuel : nat) (a : args) : M string :=
  match truthy (filename a) with
  | None => throw "filename is required"
  | Some filename =>
      let zipPath := NodePath.join pf DOWNLOADS_DIR filename in
      tryCatch (access zipPath) (fun _ => throw ("Zip file not found: " ++ filename)) ;;;
      let destDir := unzipDestDirOf a in
      entries <- openZip zipPath ;;
      let extractPath := NodePath.join pf destDir (basenameZip filename) in
      mkdir extractPath ;;;
      extractAllTo extractPath entries true ;;;
      ret (unzipText filename extractPath entries)
  end.

Definition handleMoveSvg (fuel : nat) (a : args) : M string :=
  let sourceDir :=
    match truthy (source a) with
    | Some src => NodePath.resolve pf cwd src
    | None => DOWNLOADS_DIR
    end in
  tryCatch (access sourceDir)
           (fun _ => throw ("Source directory not found: " ++ showPath sourceDir)) ;;;
  destDir <- match truthy (subfolder a) with
             | Some sub =>
                 let d := NodePath.join pf DOCUMENTS_DIR sub in
                 mkdir d ;;; ret d
             | None => ret DOCUMENTS_DIR
             end ;;
  svgFiles <- findFiles sourceDir ".svg" ;;
  match svgFiles with
  | [] => ret ("No SVG files found in " ++ showPath sourceDir)
  | _ :: _ =>
      movedFiles <- moveEach fuel destDir svgFiles [] ;;
      ret ("Successfully moved " ++ showNat (List.length movedFiles) ++ " SVG file(s) from "
           ++ showPath sourceDir ++ " to " ++ showPath destDir ++ nl ++ nl
           ++ "Moved files:" ++ nl ++ join nl movedFiles)
  end.

Definition handleListSvg (fuel : nat) (a : args) : M string :=
  let searchDir :=
    match truthy (directory a) with
    | Some d => NodePath.resolve pf cwd d
    | None => DOWNLOADS_DIR
    end in
  tryCatch (access searchDir)
           (fun _ => throw ("Directory not found: " ++ showPath searchDir)) ;;;
  svgFiles <- findFiles searchDir ".svg" ;;
  match svgFiles with
  | [] => ret ("No SVG files found in " ++ showPath searchDir)
  | _ :: _ =>
      let relativePaths := map (NodePath.relative pf searchDir) svgFiles in
      ret ("Found " ++ showNat (List.length svgFiles) ++ " SVG file(s) in "
           ++ showPath searchDir ++ ":" ++ nl ++ nl ++ join nl relativePaths)
  end.

(** Steps 2 to 4 of [handleUnzipAndMoveSvgs]: find the SVG files below
    [extractPath], create the destination folder, move each file. *)
Definition collectExtractedSvgs (fuel : nat) (filename destinationFolder : string)
           (entries : list zipEntry) (extractPath : path) : M string :=
  svgFiles <- findFiles extractPath ".svg" ;;
  match svgFiles with
  | [] =>
      ret ("Successfully unzipped " ++ filename ++ " ("
           ++ showNat (List.length entries) ++ " files) to " ++ showPath extractPath
           ++ nl ++ nl ++ "But no SVG files were found in the archive.")
  | _ :: _ =>
      let destDir := NodePath.join pf DOCUMENTS_DIR destinationFolder in
      mkdir destDir ;;;
      movedFiles <- moveEach fuel destDir svgFiles [] ;;
      ret ("Success! " ++ tada ++ nl ++ nl ++ "1. Unzipped " ++ filename ++ " ("
           ++ showNat (List.length entries) ++ " total files)" ++ nl
           ++ "2. Found " ++ showNat (List.length svgFiles) ++ " SVG file(s)" ++ nl
           ++ "3. Moved all SVGs to Documents\" ++ destinationFolder ++ nl ++ nl
           ++ "Moved files:" ++ nl ++ join nl movedFiles)
  end.

Definition handleUnzipAndMoveSvgs (fuel : nat) (a : args) : M string :=
  match truthy (filename a) with
  | None => throw "filename is required"
  | Some filename =>
      match truthy (destination_folder a) with
      | None => throw "destination_folder is required"
      | Some destinationFolder =>
          let zipPath := NodePath.join pf DOWNLOADS_DIR filename in
          tryCatch (access zipPath) (fun _ => throw ("Zip file not found: " ++ filename)) ;;;
          entries <- openZip zipPath ;;
          let extractPath := NodePath.join pf DOWNLOADS_DIR (basenameZip filename) in
          mkdir extractPath ;;;
          extractAllTo extractPath entries true ;;;
          collectExtractedSvgs fuel filename destinationFolder entries extractPath
      end
  end.

Definition handleCreateDirectory (fuel : nat) (a : args) : M string :=
  match truthy (name a) with
  | None => throw "name is required"
  | Some name =>
      let location := toLowerCase (orDefault (location a) "documents") in
      let baseDir :=
        if location =? "documents" then DOCUMENTS_DIR
        else if location =? "downloads" then DOWNLOADS_DIR
        else NodePath.resolve pf cwd location in
      let newDir := NodePath.join pf baseDir name in
      present <- tryCatch (access newDir ;;; ret true) (fun _ => ret false) ;;
      if present : bool then ret ("Directory already exists: " ++ showPath newDir)
      else
        mkdir newDir ;;;
        ret ("Successfully created directory: " ++ showPath newDir)
  end.

(** [Promise.all(svgFiles.map(async (filePath) => ({ filePath, mtime: (await fs.stat(filePath)).mtime })))] *)
Fixpoint statEach (svgFiles : list path) : M (list fileStat) :=
  match svgFiles with
  | [] => ret []
  | p :: rest =>
      st <- stat p ;;
      more <- statEach rest ;;
      ret ({| filePath := p; fsMtime := mtime st |} :: more)
  end.

(** [fileStats.reduce((latest, current) => current.mtime > latest.mtime ? current : latest)]:
    without an initial value the first element starts as [latest]. *)
Definition reduceLatest (fileStats : list fileStat) : option fileStat :=
  match fileStats with
  | [] => None
  | first :: others =>
      Some (fold_left (fun latest current =>
                         if (fsMtime current >? fsMtime latest)%Z then current else latest)
                      others first)
  end.

(** The rest of [handleMoveLatestSvg] once [latestSvg] is chosen: create
    the destination folder, find a free name, rename. *)
Definition moveSvgInto (fuel : nat) (destinationFolder : string) (latestSvg : path) : M string :=
  let destDir := NodePath.join pf DOCUMENTS_DIR destinationFolder in
  mkdir destDir ;;;
  let svgName := NodePath.basename latestSvg in
  finalDestPath <-
    uniqueDest fuel destDir svgName (NodePath.join pf destDir svgName) 1 ;;
  rename latestSvg finalDestPath ;;;
  ret ("Successfully moved the latest SVG file to " ++ showPath finalDestPath
       ++ nl ++ nl ++ "File: " ++ svgName).

(** [args.source ? path.resolve(args.source) : DOWNLOADS_DIR] *)
Definition latestSourceDirOf (a : args) : path :=
  match truthy (source a) with
  | Some src => NodePath.resolve pf cwd src
  | None => DOWNLOADS_DIR
  end.

Definition handleMoveLatestSvg (fuel : nat) (a : args) : M string :=
  match truthy (destination_folder a) with
  | None => throw "destination_folder is required"
  | Some destinationFolder =>
      let sourceDir := latestSourceDirOf a in
      tryCatch (access sourceDir)
               (fun _ => throw ("Source directory not found: " ++ showPath sourceDir)) ;;;
      svgFiles <- findFiles sourceDir ".svg" ;;
      match svgFiles with
      | [] => ret ("No SVG files found in " ++ showPath sourceDir)
      | _ :: _ =>
          fileStats <- statEach svgFiles ;;
          match reduceLatest fileStats with
          | None => throw "Reduce of empty array with no initial value"
          | Some latest => moveSvgInto fuel destinationFolder (filePath latest)
          end
      end
  end.

(** The source directory of [copy_file] and [move_file]. *)
Definition sourceDirOf (a : args) : path :=
  let sourceArg := toLowerCase (orDefault (source a) "downloads") in
  if sourceArg =? "downloads" then DOWNLOADS_DIR
  else if sourceArg =? "documents" then DOCUMENTS_DIR
  else NodePath.resolve pf cwd sourceArg.

(** [copy_file] and [move_file] find their source with the same block:
    the file directly under [sourceDir], else the first recursively found
    file of that extension whose base name is [filename]. *)
Definition locateSourceFile (sourceDir : path) (filename : string) : M path :=
  let sourceFile := NodePath.join pf sourceDir filename in
  tryCatch (access sourceFile ;;; ret sourceFile)
    (fun _ =>
       foundFiles <- findFiles sourceDir (NodePath.extname pf filename) ;;
       match find (fun f => NodePath.basename f =? filename) foundFiles with
       | Some matched => ret matched
       | None => throw ("File not found: " ++ filename ++ " in " ++ showPath sourceDir)
       end).

Definition destDirOf (a : args) : path :=
  match truthy (destination_folder a) with
  | Some destFolder => NodePath.join pf DOCUMENTS_DIR destFolder
  | None => DOCUMENTS_DIR
  end.

(** The rest of [handleCopyFile] once [sourceFile] is known. *)
Definition copyLocated (fuel : nat) (a : args) (sourceFile : path) : M string :=
  let destDir := destDirOf a in
  mkdir destDir ;;;
  let sourceName := NodePath.basename sourceFile in
  finalDestPath <-
    uniqueDest fuel destDir sourceName (NodePath.join pf destDir sourceName) 1 ;;
  copyFile sourceFile finalDestPath ;;;
  ret ("Successfully copied " ++ sourceName ++ " to " ++ showPath finalDestPath).

Definition handleCopyFile (fuel : nat) (a : args) : M string :=
  match truthy (filename a) with
  | None => throw "filename is required"
  | Some filename =>
      sourceFile <- locateSourceFile (sourceDirOf a) filename ;;
      copyLocated fuel a sourceFile
  end.

(** The rest of [handleMoveFile] once [sourceFile] is known. *)
Definition moveLocated (fuel : nat) (a : args) (filename : string) (sourceFile : path) : M string :=
  let destDir := destDirOf a in
  mkdir destDir ;;;
  let sourceName := NodePath.basename sourceFile in
  finalDestPath <-
    uniqueDest fuel destDir sourceName (NodePath.join pf destDir sourceName) 1 ;;
  rename sourceFile finalDestPath ;;;
  ret ("Successfully moved " ++ filename ++ " to " ++ showPath finalDestPath).

Definition handleMoveFile (fuel : nat) (a : args) : M string :=
  match truthy (filename a) with
  | None => throw "filename is required"
  | Some filename =>
      sourceFile <- locateSourceFile (sourceDirOf a) filename ;;
      moveLocated fuel a filename sourceFile
  end.

(** *** [handleListFiles] *)

(** [args?.limit || 20]: an absent limit and a limit of 0 both mean 20. *)
Definition limitOf (a : args) : Z :=
  match limit a with
  | Some l => if (l =? 0)%Z then 20%Z else l
  | None => 20%Z
  end.

Definition fileTypeOf (a : args) : string :=
  stripLeadingDot (toLowerCase (orDefault (file_type a) "")).

(** The tail of [dirArg] behind its first separator, as the handler cuts it. *)
Definition subfolderOf (dirArg : string) : string :=
  if includes dirArg "/"
  then join "/" (slice1 (split "/" dirArg))
  else join "\" (slice1 (split "\" dirArg)).

Definition searchDirOf (a : args) : path :=
  let dirArg := toLowerCase (orDefault (directory a) "downloads") in
  if dirArg =? "downloads" then DOWNLOADS_DIR
  else if dirArg =? "documents" then DOCUMENTS_DIR
  else if startsWith dirArg "documents/" || startsWith dirArg "documents\"
  then NodePath.join pf DOCUMENTS_DIR (subfolderOf dirArg)
  else if startsWith dirArg "downloads/" || startsWith dirArg "downloads\"
  then NodePath.join pf DOWNLOADS_DIR (subfolderOf dirArg)
  else NodePath.resolve pf cwd dirArg.

(** [for (const entry of entries) { if (entry.isFile()) { try { ... stat ... push } catch {} } }] *)
Fixpoint collectDetails (searchDir : path) (entries : list (string * node)) : M (list fileDetail) :=
  match entries with
  | [] => ret []
  | (entryName, child) :: rest =>
      here <- match child with
              | File _ _ =>
                  tryCatch
                    (st <- stat (NodePath.join pf searchDir entryName) ;;
                     ret [ {| fdName := entryName;
                              fdSize := size st;
                              fdModified := mtime st;
                              fdExtension :=
                                stripLeadingDot (toLowerCase (NodePath.extname pf entryName)) |} ])
                    (fun _ => ret [])
              | _ => ret []
              end ;;
      more <- collectDetails searchDir rest ;;
      ret (here ++ more)%list
  end.

(** [Array.prototype.sort] is stable; with the comparator
    [(a, b) => b.modified - a.modified] an element goes behind every element
    that is at least as recent and in front of the older ones. *)
Fixpoint insertByModified (x : fileDetail) (l : list fileDetail) : list fileDetail :=
  match l with
  | [] => [x]
  | y :: r =>
      if (fdModified x <? fdModified y)%Z then y :: insertByModified x r
      else x :: l
  end.

Fixpoint sortByModified (l : list fileDetail) : list fileDetail :=
  match l with
  | [] => []
  | x :: r => insertByModified x (sortByModified r)
  end.

(** [a.slice(0, end)] *)
Definition slice0 {A} (a : list A) (end_ : Z) : list A :=
  if (end_ <? 0)%Z
  then firstn (Z.to_nat (Z.max (Z.of_nat (List.length a) + end_) 0)) a
  else firstn (Z.to_nat end_) a.

Definition twoDigits (n : Z) : string :=
  if (n <? 10)%Z then "0" ++ showZ n else showZ n.

(** [(num / den).toFixed(2)] for a non-negative integer [num] below 2^53
    and a power of two [den]: the quotient is exact, and [toFixed] takes the
    nearest multiple of 1/100, the larger one on a tie. *)
Definition toFixed2 (num den : Z) : string :=
  let n := ((200 * num + den) / (2 * den))%Z in
  showZ (n / 100) ++ "." ++ twoDigits (n mod 100).

Definition displaySize (size : Z) : string :=
  if (size >? 1024 * 1024)%Z then toFixed2 size (1024 * 1024) ++ " MB"
  else if (size >? 1024)%Z then toFixed2 size 1024 ++ " KB"
  else showZ size ++ " bytes".

Definition renderFile (index : nat) (file : fileDetail) : string :=
  let dateStr := toLocaleString (fdModified file) in
  let badge := if (index =? 0)%nat then " [LATEST]" else "" in
  fdName file ++ badge ++ nl ++ "  Size: " ++ displaySize (fdSize file)
  ++ " | Modified: " ++ dateStr.

(** [a.map((file, index) => f(index, file))] *)
Fixpoint mapIndexed {A B} (f : nat -> A -> B) (index : nat) (a : list A) : list B :=
  match a with
  | [] => []
  | x :: r => f index x :: mapIndexed f (S index) r
  end.

Definition handleListFiles (fuel : nat) (a : args) : M string :=
  let limit := limitOf a in
  let fileType := fileTypeOf a in
  let searchDir := searchDirOf a in
  tryCatch (access searchDir)
           (fun _ => throw ("Directory not found: " ++ showPath searchDir)) ;;;
  entries <- readdir searchDir ;;
  collected <- collectDetails searchDir entries ;;
  let fileDetails :=
    if fileType =? "" then collected
    else filter (fun f => fdExtension f =? fileType) collected in
  match fileDetails with
  | [] =>
      let typeMsg := if fileType =? "" then "" else " of type '." ++ fileType ++ "'" in
      ret ("No files" ++ typeMsg ++ " found in " ++ showPath searchDir)
  | _ :: _ =>
      let sorted := sortByModified fileDetails in
      let limitedFiles := slice0 sorted limit in
      let fileList := mapIndexed renderFile 0 limitedFiles in
      let typeMsg :=
        if fileType =? "" then "" else " (filtered to ." ++ fileType ++ " files)" in
      ret ("Files in " ++ showPath searchDir ++ typeMsg ++ nl
           ++ "Showing " ++ showNat (List.length limitedFiles) ++ " of "
           ++ showNat (List.length fileDetails) ++ " (sorted by most recent):" ++ nl ++ nl
           ++ join (nl ++ nl) fileList)
  end.

(** *** [handleListZip] *)

(** [args?.limit || 10] *)
Definition zipLimitOf (a : args) : Z :=
  match limit a with
  | Some l => if (l =? 0)%Z then 10%Z else l
  | None => 10%Z
  end.

(** [files.filter((f) => f.toLowerCase().endsWith(".zip"))] on the names
    [readdir] reports; the kind of the entry is not looked at. *)
Definition zipNames (files : list (string * node)) : list string :=
  filter (fun f => endsWith (toLowerCase f) ".zip") (map fst files).

(** [Promise.all(zipFiles.map(async (file) => { ... await fs.stat(filePath) ... }))].
    A name that [stat] fails on rejects the whole call. *)
Fixpoint statZips (zipFiles : list string) : M (list zipDetail) :=
  match zipFiles with
  | [] => ret []
  | file :: rest =>
      st <- stat (NodePath.join pf DOWNLOADS_DIR file) ;;
      more <- statZips rest ;;
      ret ({| zdName := file; zdSize := size st; zdModified := mtime st |} :: more)
  end.

(** [fileDetails.sort((a, b) => b.modified - a.modified)], stable. *)
Fixpoint insertZipByModified (x : zipDetail) (l : list zipDetail) : list zipDetail :=
  match l with
  | [] => [x]
  | y :: r =>
      if (zdModified x <? zdModified y)%Z then y :: insertZipByModified x r
      else x :: l
  end.

Fixpoint sortZipsByModified (l : list zipDetail) : list zipDetail :=
  match l with
  | [] => []
  | x :: r => insertZipByModified x (sortZipsByModified r)
  end.

Definition renderZip (file : zipDetail) : string :=
  let sizeMB := toFixed2 (zdSize file) (1024 * 1024) in
  let date := toLocaleString (zdModified file) in
  zdName file ++ " (" ++ sizeMB ++ " MB) - " ++ date.

Definition handleListZip (fuel : nat) (a : args) : M string :=
  let limit := zipLimitOf a in
  files <- readdir DOWNLOADS_DIR ;;
  let zipFiles := zipNames files in
  match zipFiles with
  | [] => ret ("No zip files found in " ++ showPath DOWNLOADS_DIR)
  | _ :: _ =>
      fileDetails <- statZips zipFiles ;;
      let sorted := sortZipsByModified fileDetails in
      let limitedFiles := slice0 sorted limit in
      let fileList := map renderZip limitedFiles in
      ret ("Found " ++ showNat (List.length zipFiles)
           ++ " zip file(s) in Downloads (showing "
           ++ showNat (List.length limitedFiles) ++ " most recent):" ++ nl ++ nl
           ++ join nl fileList)
  end.

(** *** The request handler *)

Inductive tool :=
| unzip_file
| move_svg_files
| list_svg_files
| unzip_and_move_svgs
| create_directory
| move_latest_svg
| copy_file
| move_file
| list_files.

Record response := { text : string; isError : bool }.

(** The [switch] of the [CallToolRequestSchema] handler with its
    [try]/[catch]: a thrown error becomes a text payload marked [isError]. *)
Definition callTool (fuel : nat) (t : tool) (a : args) : fsState -> option response * fsState :=
  fun s =>
    let handler :=
      match t with
      | unzip_file => handleUnzip
      | move_svg_files => handleMoveSvg
      | list_svg_files => handleListSvg
      | unzip_and_move_svgs => handleUnzipAndMoveSvgs
      | create_directory => handleCreateDirectory
      | move_latest_svg => handleMoveLatestSvg
      | copy_file => handleCopyFile
      | move_file => handleMoveFile
      | list_files => handleListFiles
      end in
    match handler fuel a s with
    | (Ret txt, s') => (Some {| text := txt; isError := false |}, s')
    | (Throw message, s') => (Some {| text := "Error: " ++ message; isError := true |}, s')
    | (OutOfFuel, s') => (None, s')
    end.

(** What V8 reports when [this.method(...)] is called and the class has
    no such method. *)
Definition notAFunction (method : string) : string :=
  "this." ++ method ++ " is not a function".

(** The whole [switch (request.params.name)], by the name the client
    sends.  Three of the advertised tools dispatch to methods the class does
    not define; the call throws a [TypeError] inside the [try]. *)
Definition handlerOf (fuel : nat) (toolName : string) (a : args) : M string :=
  if toolName =? "unzip_file" then handleUnzip fuel a
  else if toolName =? "move_svg_files" then handleMoveSvg fuel a
  else if toolName =? "list_zip_files" then handleListZip fuel a
  else if toolName =? "list_svg_files" then handleListSvg fuel a
  else if toolName =? "unzip_and_move_svgs" then handleUnzipAndMoveSvgs fuel a
  else if toolName =? "list_recent_downloads"
  then throw (notAFunction "handleListRecentDownloads")
  else if toolName =? "unzip_latest" then throw (notAFunction "handleUnzipLatest")
  else if toolName =? "unzip_latest_and_move_svgs"
  then throw (notAFunction "handleUnzipLatestAndMoveSvgs")
  else if toolName =? "create_directory" then handleCreateDirectory fuel a
  else if toolName =? "move_latest_svg" then handleMoveLatestSvg fuel a
  else if toolName =? "copy_file" then handleCopyFile fuel a
  else if toolName =? "move_file" then handleMoveFile fuel a
  else if toolName =? "list_files" then handleListFiles fuel a
  else throw ("Unknown tool: " ++ toolName).

Definition handleRequest (fuel : nat) (toolName : string) (a : args)
  : fsState -> option response * fsState :=
  fun s =>
    match handlerOf fuel toolName a s with
    | (Ret txt, s') => (Some {| text := txt; isError := false |}, s')
    | (Throw message, s') => (Some {| text := "Error: " ++ message; isError := true |}, s')
    | (OutOfFuel, s') => (None, s')
    end.

(** The name under which the client asks for a tool. *)
Definition toolName (t : tool) : string :=
  match t with
  | unzip_file => "unzip_file"
  | move_svg_files => "move_svg_files"
  | list_svg_files => "list_svg_files"
  | unzip_and_move_svgs => "unzip_and_move_svgs"
  | create_directory => "create_directory"
  | move_latest_svg => "move_latest_svg"
  | copy_file => "copy_file"
  | move_file => "move_file"
  | list_files => "list_files"
  end.

(** *** Vocabulary of the properties *)

(** A name a directory can hold: not empty, not "." or "..", and free of
    the platform's separators. *)
Fixpoint noSep (s : string) : bool :=
  match s with
  | EmptyString => true
  | String c t => negb (NodePath.isSep pf c) && noSep t
  end.

Definition validName (name : string) : bool :=
  negb (name =? "") && negb (name =? ".") && negb (name =? "..") && noSep name.

Fixpoint distinct (names : list string) : bool :=
  match names with
  | [] => true
  | x :: r => negb (existsb (String.eqb x) r) && distinct r
  end.

(** A well-formed tree: in every directory the names are valid and
    pairwise different. *)
Fixpoint wf (n : node) : bool :=
  match n with
  | Dir es =>
      forallb validName (map fst es) && distinct (map fst es)
      && (fix all (es : list (string * node)) : bool :=
            match es with
            | [] => true
            | (_, child) :: rest => wf child && all rest
            end) es
  | _ => true
  end.

Definition isRegularFile (s : fsState) (p : path) : Prop :=
  exists st c, Fs.lookup s p = Some (File st c).

(** [p] lies strictly below [dir]. *)
Definition below (dir p : path) : Prop :=
  exists rel, rel <> [] /\ p = (dir ++ rel)%list.

(** The modification time of the regular file at [p], which is what
    [stat] reports for it; 0 where there is no regular file. *)
Definition mtimeAt (s : fsState) (p : path) : Z :=
  match Fs.lookup s p with
  | Some (File st _) => mtime st
  | _ => 0%Z
  end.

(** What [stat] reports for [p], when it reports anything. *)
Definition statAt (s : fsState) (p : path) : option stats :=
  match Fs.lookup s p with
  | Some (File st _) => Some st
  | Some (Dir _) => Some (dirStats p)
  | Some Other => otherStats p
  | None => None
  end.

(** [collectDetails] read off the state without the monad. *)
Definition detailsOf (s : fsState) (searchDir : path) (entries : list (string * node))
  : list fileDetail :=
  flat_map
    (fun e =>
       match snd e with
       | File _ _ =>
           match statAt s (NodePath.join pf searchDir (fst e)) with
           | Some st =>
               [ {| fdName := fst e;
                    fdSize := size st;
                    fdModified := mtime st;
                    fdExtension :=
                      stripLeadingDot (toLowerCase (NodePath.extname pf (fst e))) |} ]
           | None => []
           end
       | _ => []
       end) entries.

(** [d] is the element of [fileDetails] that [list_zip_files] makes of the
    name [file]: it carries what [stat] reports for that entry of
    Downloads. *)
Definition zipDetailAt (s : fsState) (file : string) (d : zipDetail) : Prop :=
  exists st, stat (NodePath.join pf DOWNLOADS_DIR file) s = (Ret st, s)
             /\ d = {| zdName := file; zdSize := size st; zdModified := mtime st |}.

(** Newest first. *)
Definition newerFirst (x y : fileDetail) : Prop := (fdModified y <= fdModified x)%Z.

(** The files [handleListFiles] keeps after its type filter. *)
Definition matchingFiles (a : args) (collected : list fileDetail) : list fileDetail :=
  if fileTypeOf a =? "" then collected
  else filter (fun f => fdExtension f =? fileTypeOf a) collected.

Definition renderLatest (file : fileDetail) : string :=
  fdName file ++ " [LATEST]" ++ nl ++ "  Size: " ++ displaySize (fdSize file)
  ++ " | Modified: " ++ toLocaleString (fdModified file).

Definition renderPlain (file : fileDetail) : string :=
  fdName file ++ "" ++ nl ++ "  Size: " ++ displaySize (fdSize file)
  ++ " | Modified: " ++ toLocaleString (fdModified file).

(** The entries of a listing as they are rendered. *)
Definition renderShown (shown : list fileDetail) : list string :=
  match shown with
  | [] => []
  | first :: others => renderLatest first :: map renderPlain others
  end.

Definition listingText (a : args) (shown : list string) (nShown nTotal : nat) : string :=
  "Files in " ++ showPath (searchDirOf a)
  ++ (if fileTypeOf a =? "" then "" else " (filtered to ." ++ fileTypeOf a ++ " files)")
  ++ nl ++ "Showing " ++ showNat nShown ++ " of " ++ showNat nTotal
  ++ " (sorted by most recent):" ++ nl ++ nl ++ join (nl ++ nl) shown.

(** Where [move_svg_files] puts the files: Documents, or the subfolder. *)
Definition svgDestDirOf (a : args) : path :=
  match truthy (subfolder a) with
  | Some sub => NodePath.join pf DOCUMENTS_DIR sub
  | None => DOCUMENTS_DIR
  end.

(** The directory [create_directory] is asked for. *)
Definition newDirOf (a : args) (name : string) : path :=
  let location := toLowerCase (orDefault (location a) "documents") in
  let baseDir :=
    if location =? "documents" then DOCUMENTS_DIR
    else if location =? "downloads" then DOWNLOADS_DIR
    else NodePath.resolve pf cwd location in
  NodePath.join pf baseDir name.

(** The directory [list_svg_files] searches. *)
Definition svgSearchDirOf (a : args) : path :=
  match truthy (directory a) with
  | Some d => NodePath.resolve pf cwd d
  | None => DOWNLOADS_DIR
  end.

(** All proper prefixes of a path, the root first. *)
Fixpoint properPrefixes (p : path) : list path :=
  match p with
  | [] => []
  | c :: q => [] :: map (cons c) (properPrefixes q)
  end.

Fixpoint isPrefixOf (r p : path) : bool :=
  match r, p with
  | [], _ => true
  | a :: r', b :: p' => (a =? b) && isPrefixOf r' p'
  | _ :: _, [] => false
  end.

Definition absentOrDir (s : fsState) (p : path) : bool :=
  match Fs.lookup s p with
  | None | Some (Dir _) => true
  | Some _ => false
  end.








End Server.

(** The answer to a call whose handler threw [message]. *)
Definition failed (message : string) : option response :=
  Some {| text := "Error: " ++ message; isError := true |}.

(** The entries of the directory at [p]; none when [p] is no directory. *)
Definition entriesAt (s : fsState) (p : path) : list (string * node) :=
  match Fs.lookup s p with
  | Some (Dir es) => es
  | _ => []
  end.

(** [p] can be created by [mkdir -p], or is a directory already: nothing
    but directories stands on the way. *)
Definition creatable (s : fsState) (p : path) : bool :=
  forallb (absentOrDir s) (properPrefixes p) && absentOrDir s p.

(** A call that leaves the file system as it found it, whatever it
    returns or throws. *)
Definition readOnly {A} (m : M A) : Prop := forall s, snd (m s) = s.

(** From [s] to [s'] nothing is lost: what existed still exists, and
    every regular file has the size, time and content it had. *)
Definition nothingLost (s s' : fsState) : Prop :=
  (forall x m, Fs.lookup s x = Some m -> exists m', Fs.lookup s' x = Some m')
  /\ (forall x st c, Fs.lookup s x = Some (File st c) -> Fs.lookup s' x = Some (File st c)).

(** From [s] to [s'] no file content is lost: what a regular file held
    is held, with the same size and time, by a regular file of [s']. *)
Definition contentKept (s s' : fsState) : Prop :=
  forall x st c, Fs.lookup s x = Some (File st c) ->
                 exists y, Fs.lookup s' y = Some (File st c).

(** The argument bag [a] with [file_type] set to [t]. *)
Definition withFileType (a : args) (t : string) : args :=
  {| filename := filename a; destination := destination a; source := source a;
     subfolder := subfolder a; destination_folder := destination_folder a;
     name := name a; location := location a; directory := directory a;
     file_type := Some t; limit := limit a |}.

(** The argument bag [a] with [source] set to [v]. *)
Definition withSource (a : args) (v : string) : args :=
  {| filename := filename a; destination := destination a; source := Some v;
     subfolder := subfolder a; destination_folder := destination_folder a;
     name := name a; location := location a; directory := directory a;
     file_type := file_type a; limit := limit a |}.

(** The argument bag [a] with [location] set to [v]. *)
Definition withLocation (a : args) (v : string) : args :=
  {| filename := filename a; destination := destination a; source := source a;
     subfolder := subfolder a; destination_folder := destination_folder a;
     name := name a; location := Some v; directory := directory a;
     file_type := file_type a; limit := limit a |}.

(** Newest first, for the entries of [list_zip_files]. *)
Definition newerZipFirst (x y : zipDetail) : Prop := (zdModified y <= zdModified x)%Z.

(** The size rendering in the words of the specification: bytes below
    1024, KB from 1024 up to 1 MiB, MB at and above 1 MiB. *)
Definition displaySizeSpec (size : Z) : string :=
  if (size <? 1024)%Z then showZ size ++ " bytes"
  else if (size <? 1024 * 1024)%Z then toFixed2 size 1024 ++ " KB"
  else toFixed2 size (1024 * 1024) ++ " MB".

(** The resolution of a composite token in the words of the specification:
    the root joined with what follows the first separator of the token,
    taken as it was given. *)
Fixpoint afterFirstSeparator (token : string) : string :=
  match token with
  | EmptyString => EmptyString
  | String c t =>
      if Ascii.eqb c "/" || Ascii.eqb c "\" then t else afterFirstSeparator t
  end.

(* ===================================================================== *)
(** ** Sample hosts and states                                            *)
(* ===================================================================== *)

Module Examples.

Definition home : path := ["home"; "u"].
Definition downloads : path := ["home"; "u"; "Downloads"].
Definition documents : path := ["home"; "u"; "OneDrive\Documents"].

(** A stand-in for the locale: a time stamp prints as its number. *)
Definition locale (t : Z) : string := showZ t.

(** The time stamp of a copy in the sample runs: the time of the call. *)
Definition today (t : Z) : Z := 9000.

(** What [stat] answers for the folders of the sample host, by the length
    of the path, and for its links: they all dangle. *)
Definition folderStats (p : path) : stats :=
  {| size := 4096; mtime := Z.of_nat (List.length p) |}.

Definition linkStats (p : path) : option stats := None.

Definition file (t sz : Z) (c : string) : node :=
  File {| size := sz; mtime := t |} (Bytes c).

Definition host (inDownloads inDocuments : list (string * node)) : fsState :=
  Dir [("home", Dir [("u", Dir [("Downloads", Dir inDownloads);
                                ("OneDrive\Documents", Dir inDocuments)])])].

Definition withFilename (fn : string) : args :=
  {| filename := Some fn; destination := None; source := None; subfolder := None;
     destination_folder := None; name := None; location := None;
     directory := None; file_type := None; limit := None |}.

Definition withDirectory (d : string) : args :=
  {| filename := None; destination := None; source := None; subfolder := None;
     destination_folder := None; name := None; location := None;
     directory := Some d; file_type := None; limit := None |}.

(** The tree of the finder example: a.svg, b/B.SVG and b/c.png. *)
Definition svgTree : fsState :=
  host [("a.svg", file 1 10 "a");
        ("b", Dir [("B.SVG", file 2 20 "B"); ("c.png", file 3 30 "c")])]
       [].

(** Documents already holds report.pdf and report_1.pdf. *)
Definition twoReports : fsState :=
  host [] [("report.pdf", file 1 10 "first"); ("report_1.pdf", file 2 10 "second")].

(** report.pdf in Downloads and another report.pdf in Documents. *)
Definition collision : fsState :=
  host [("report.pdf", file 5 100 "new")] [("report.pdf", file 2 50 "old")].

Definition moveReport : args :=
  {| filename := Some "report.pdf"; destination := None; source := Some "downloads";
     subfolder := None; destination_folder := None; name := None; location := None;
     directory := None; file_type := None; limit := None |}.

(** Three SVG files, the last two modified at the same time. *)
Definition threeSvgs : fsState :=
  host [("x.svg", file 1 10 "x"); ("y.svg", file 5 10 "y"); ("z.svg", file 5 10 "z")] [].

Definition latestToIcons : args :=
  {| filename := None; destination := None; source := None; subfolder := None;
     destination_folder := Some "Icons"; name := None; location := None;
     directory := None; file_type := None; limit := None |}.

(** Four SVG files of different age next to a text file. *)
Definition fourSvgs : fsState :=
  host [("one.svg", file 10 100 "1"); ("notes.txt", file 99 5 "n");
        ("two.svg", file 40 2048 "2"); ("three.svg", file 20 100 "3");
        ("four.svg", file 30 100 "4")] [].

Definition listTwoSvgs : args :=
  {| filename := None; destination := None; source := None; subfolder := None;
     destination_folder := None; name := None; location := None;
     directory := None; file_type := Some "svg"; limit := Some 2%Z |}.

Definition entryA : zipEntry :=
  {| entryName := "a.txt"; entryIsDirectory := false; entryData := "new A"; entryTime := 7 |}.

Definition entryIcons : zipEntry :=
  {| entryName := "icons/"; entryIsDirectory := true; entryData := ""; entryTime := 6 |}.

Definition entryB : zipEntry :=
  {| entryName := "icons/b.svg"; entryIsDirectory := false; entryData := "img"; entryTime := 8 |}.

Definition packEntries : list zipEntry := [entryA; entryIcons; entryB].



(** An archive with an upper-case suffix in Downloads. *)
Definition upperZip : fsState :=
  host [("PACK.ZIP", File {| size := 200; mtime := 9 |} (Archive packEntries))] [].

Definition createProjects : args :=
  {| filename := None; destination := None; source := None; subfolder := None;
     destination_folder := None; name := Some "Projects"; location := None;
     directory := None; file_type := None; limit := None |}.





(** Downloads with two archives and a folder that is named like one. *)
Definition zipsAndFolder : fsState :=
  host [("OLD.ZIP", File {| size := 1048576; mtime := 2 |} (Archive []));
        ("folder.zip", Dir []);
        ("notes.txt", file 7 5 "n");
        ("pack.zip", File {| size := 200; mtime := 9 |} (Archive packEntries))] [].

Definition listTwoZips : args :=
  {| filename := None; destination := None; source := None; subfolder := None;
     destination_folder := None; name := None; location := None;
     directory := None; file_type := None; limit := Some 2%Z |}.

(** All SVG files but the oldest one. *)
Definition listAllButOne : args :=
  {| filename := None; destination := None; source := None; subfolder := None;
     destination_folder := None; name := None; location := None;
     directory := None; file_type := Some "svg"; limit := Some (-1)%Z |}.

(** Downloads as the extraction of pack.zip leaves it. *)
Definition unpacked : fsState :=
  host [("pack.zip", File {| size := 200; mtime := 9 |} (Archive packEntries));
        ("pack", Dir [("a.txt", file 7 5 "new A");
                      ("icons", Dir [("b.svg", file 8 3 "img")])])] [].

End Examples.

(* ===================================================================== *)
(** ** Properties of the file-system tree                                 *)
(* ===================================================================== *)

Module FsFacts.
Import Fs.
Local Open Scope list_scope.

Lemma assoc_setEntry_same k v es : assoc k (setEntry k v es) = Some v.
Proof.
  induction es as [|[k' v'] r IH]; simpl.
  - now rewrite String.eqb_refl.
  - destruct (k' =? k) eqn:E; simpl.
    + now rewrite String.eqb_refl.
    + now rewrite E.
Qed.

Lemma assoc_setEntry_other k k' v es :
  k <> k' -> assoc k' (setEntry k v es) = assoc k' es.
Proof.
  intros Hne. induction es as [|[k0 v0] r IH]; simpl.
  - destruct (k =? k') eqn:E; [apply String.eqb_eq in E; contradiction | reflexivity].
  - destruct (k0 =? k) eqn:E; simpl.
    + apply String.eqb_eq in E. subst k0.
      destruct (k =? k') eqn:E'; [apply String.eqb_eq in E'; contradiction | reflexivity].
    + destruct (k0 =? k'); [reflexivity | exact IH].
Qed.

Lemma setEntry_present k v es : assoc k es = Some v -> setEntry k v es = es.
Proof.
  induction es as [|[k' v'] r IH]; simpl; [discriminate|].
  destruct (k' =? k) eqn:E.
  - intros [= ->]. apply String.eqb_eq in E. now subst.
  - intros H. now rewrite IH.
Qed.

Lemma assoc_delEntry_same k es : assoc k (delEntry k es) = None.
Proof.
  unfold delEntry. induction es as [|[k' v'] r IH]; simpl; [reflexivity|].
  destruct (k' =? k) eqn:E; simpl; [exact IH | now rewrite E].
Qed.

Lemma assoc_delEntry_other k k' es : k <> k' -> assoc k' (delEntry k es) = assoc k' es.
Proof.
  intros Hne. unfold delEntry. induction es as [|[k0 v0] r IH]; simpl; [reflexivity|].
  destruct (k0 =? k) eqn:E; simpl.
  - apply String.eqb_eq in E. subst k0.
    destruct (k =? k') eqn:E'; [apply String.eqb_eq in E'; contradiction | exact IH].
  - destruct (k0 =? k'); [reflexivity | exact IH].
Qed.

Lemma lookup_app n p q :
  lookup n (p ++ q) = match lookup n p with
                      | Some m => lookup m q
                      | None => None
                      end.
Proof.
  revert n. induction p as [|c p IH]; intros n; simpl; [reflexivity|].
  destruct n as [| es |]; try reflexivity.
  destruct (assoc c es); [apply IH | reflexivity].
Qed.

Lemma lookup_insert_same n p x n' : insert n p x = Some n' -> lookup n' p = Some x.
Proof.
  revert n n'. induction p as [|c q IH]; intros n n'; simpl.
  - now intros [= ->].
  - destruct n as [| es |]; try discriminate.
    destruct q as [|c' q'].
    + intros [= <-]. simpl. now rewrite assoc_setEntry_same.
    + destruct (assoc c es) as [ch|]; [|discriminate].
      destruct (insert ch (c' :: q') x) as [ch'|] eqn:E; [|discriminate].
      intros [= <-]. cbn [lookup]. rewrite assoc_setEntry_same. now apply (IH ch).
Qed.

Lemma lookup_insert_other n p x n' q :
  insert n p x = Some n' -> diverge p q -> lookup n' q = lookup n q.
Proof.
  intros Hins Hdiv. revert n n' Hins.
  induction Hdiv as [a b p q Hne | a p q Hdiv IH]; intros n n' Hins.
  - simpl in Hins. destruct n as [| es |]; try discriminate.
    assert (exists v, n' = Dir (setEntry a v es)) as [v ->].
    { destruct p as [|c' p'].
      - injection Hins as <-. now eexists.
      - destruct (assoc a es); [|discriminate].
        destruct (insert n (c' :: p') x); [|discriminate].
        injection Hins as <-. now eexists. }
    simpl. now rewrite assoc_setEntry_other.
  - simpl in Hins. destruct n as [| es |]; try discriminate.
    destruct p as [|c' p']; [inversion Hdiv|].
    destruct (assoc a es) as [ch|] eqn:Ea; [|discriminate].
    destruct (insert ch (c' :: p') x) as [ch'|] eqn:E; [|discriminate].
    injection Hins as <-. cbn [lookup]. rewrite assoc_setEntry_same, Ea.
    now apply IH.
Qed.

Lemma lookup_remove_same n p : p <> [] -> lookup (remove n p) p = None.
Proof.
  revert n. induction p as [|c q IH]; intros n Hne; [contradiction|].
  destruct n as [st ct | es |]; try reflexivity.
  destruct q as [|c' q'].
  - simpl. now rewrite assoc_delEntry_same.
  - cbn [remove]. destruct (assoc c es) as [ch|] eqn:Ea.
    + cbn [lookup]. rewrite assoc_setEntry_same. apply IH. discriminate.
    + cbn [lookup]. now rewrite Ea.
Qed.

Lemma lookup_remove_other n p q : diverge p q -> lookup (remove n p) q = lookup n q.
Proof.
  intros Hdiv. revert n.
  induction Hdiv as [a b p q Hne | a p q Hdiv IH]; intros n.
  - destruct n as [| es |]; try reflexivity.
    destruct p as [|c' p'].
    + simpl. now rewrite assoc_delEntry_other.
    + cbn [remove]. destruct (assoc a es); [|reflexivity].
      cbn [lookup]. now rewrite assoc_setEntry_other.
  - destruct n as [| es |]; try reflexivity.
    destruct p as [|c' p']; [inversion Hdiv|].
    cbn [remove]. destruct (assoc a es) as [ch|] eqn:Ea; [|reflexivity].
    cbn [lookup]. rewrite assoc_setEntry_same, Ea. apply IH.
Qed.

Lemma insert_into_dir n par c es x :
  lookup n par = Some (Dir es) -> exists n', insert n (par ++ [c]) x = Some n'.
Proof.
  revert n. induction par as [|d par IH]; intros n H; simpl in *.
  - injection H as ->. now eexists.
  - destruct n as [| es0 |]; try discriminate.
    destruct (assoc d es0) as [ch|]; [|discriminate].
    destruct (IH ch H) as [ch' Hch'].
    destruct (par ++ [c]) eqn:E; [now destruct par|].
    rewrite Hch'. now eexists.
Qed.

Lemma mkdirp_existing n p es : lookup n p = Some (Dir es) -> mkdirp n p = Some n.
Proof.
  revert n. induction p as [|c q IH]; intros n H; simpl in *.
  - injection H as ->. reflexivity.
  - destruct n as [| es0 |]; try discriminate. simpl.
    destruct (assoc c es0) as [ch|] eqn:Ea; [|discriminate].
    rewrite (IH ch H). now rewrite setEntry_present.
Qed.

Lemma diverge_app pre p q : diverge p q -> diverge (pre ++ p) (pre ++ q).
Proof. intros H. induction pre; simpl; [exact H | now constructor]. Qed.

Lemma diverge_sym p q : diverge p q -> diverge q p.
Proof.
  induction 1; [apply diverge_here; congruence | now apply diverge_next].
Qed.

Lemma exists_true s p : exists_ s p = true <-> exists m, lookup s p = Some m.
Proof.
  unfold exists_. destruct (lookup s p); split; intros H; try discriminate; eauto.
  destruct H; discriminate.
Qed.

Lemma exists_false s p : exists_ s p = false <-> lookup s p = None.
Proof. unfold exists_. destruct (lookup s p); split; intros H; congruence. Qed.

End FsFacts.

(* ===================================================================== *)
(** ** Prefixes of paths and [mkdir -p]                                   *)
(* ===================================================================== *)

Module PathFacts.
Import Fs.
Local Open Scope list_scope.

Lemma isPrefixOf_spec r p : isPrefixOf r p = true <-> exists t, p = r ++ t.
Proof.
  revert p. induction r as [|a r IH]; intros p; cbn.
  - split; [intros _; now exists p | reflexivity].
  - destruct p as [|b p].
    + split; [discriminate | intros [t Ht]; discriminate].
    + rewrite andb_true_iff, String.eqb_eq, IH. split.
      * intros [-> [t ->]]. now exists t.
      * intros [t [= -> ->]]. split; [reflexivity | now exists t].
Qed.

Lemma properPrefixes_spec r p :
  In r (properPrefixes p) <-> exists t, t <> [] /\ p = r ++ t.
Proof.
  revert r. induction p as [|c q IH]; intros r; cbn.
  - split; [intros [] | intros (t & Hne & Heq)].
    destruct r; cbn in Heq; [now subst | discriminate].
  - split.
    + intros [<- | Hin].
      * exists (c :: q). split; [discriminate | reflexivity].
      * apply in_map_iff in Hin as (r' & <- & Hr'). apply IH in Hr' as (t & Hne & ->).
        now exists t.
    + intros (t & Hne & Heq). destruct r as [|a r]; [now left|]. right.
      injection Heq as <- ->. apply in_map. apply IH. now exists t.
Qed.

Lemma diverge_not_prefix p q :
  diverge p q -> isPrefixOf p q = false /\ isPrefixOf q p = false.
Proof.
  induction 1 as [a b p q Hne | a p q _ [IH1 IH2]]; cbn.
  - split; apply andb_false_iff; left; apply String.eqb_neq; congruence.
  - rewrite String.eqb_refl. cbn. now split.
Qed.

Lemma not_prefix_diverge p q :
  isPrefixOf p q = false -> isPrefixOf q p = false -> diverge p q.
Proof.
  revert q. induction p as [|a p IH]; intros q; [discriminate|].
  destruct q as [|b q]; [discriminate|]. cbn.
  destruct (a =? b)%string eqn:E.
  - apply String.eqb_eq in E. subst b. rewrite String.eqb_refl. cbn.
    intros H1 H2. apply diverge_next. now apply IH.
  - intros _ _. apply diverge_here. now apply String.eqb_neq.
Qed.

Lemma lookup_empty_dir p : p <> [] -> lookup (Dir []) p = None.
Proof. destruct p; [contradiction | reflexivity]. Qed.

Lemma lookup_through n r t m :
  lookup n (r ++ t) = Some m -> t <> [] -> exists es, lookup n r = Some (Dir es).
Proof.
  rewrite FsFacts.lookup_app. destruct (lookup n r) as [[| es |]|]; try discriminate.
  - destruct t; [contradiction | discriminate].
  - intros _ _. now exists es.
  - destruct t; [contradiction | discriminate].
Qed.

Lemma mkdirp_succeeds p :
  forall n, (forall r, isPrefixOf r p = true -> absentOrDir n r = true) ->
            exists n1, mkdirp n p = Some n1.
Proof.
  induction p as [|c q IH]; intros n H.
  - specialize (H [] eq_refl). unfold absentOrDir in H. cbn in H.
    destruct n; try discriminate. cbn. now eexists.
  - pose proof (H [] eq_refl) as H0. unfold absentOrDir in H0. cbn in H0.
    destruct n as [| es |]; try discriminate. cbn.
    destruct (assoc c es) as [ch|] eqn:Ea.
    + destruct (IH ch) as [ch' Hch'].
      * intros r Hr. specialize (H (c :: r)). cbn in H. rewrite String.eqb_refl in H.
        specialize (H Hr). unfold absentOrDir in *. cbn in H. now rewrite Ea in H.
      * rewrite Hch'. now eexists.
    + destruct (IH (Dir [])) as [ch' Hch'].
      * intros r Hr. unfold absentOrDir. destruct r; [reflexivity|]. reflexivity.
      * rewrite Hch'. now eexists.
Qed.

Lemma mkdirp_lookup p :
  forall n n1, mkdirp n p = Some n1 -> exists es, lookup n1 p = Some (Dir es).
Proof.
  induction p as [|c q IH]; intros n n1; destruct n as [| es |]; cbn; try discriminate.
  - intros [= <-]. now eexists.
  - destruct (assoc c es) as [ch|].
    + destruct (mkdirp ch q) as [ch'|] eqn:E; [|discriminate]. intros [= <-].
      cbn. rewrite FsFacts.assoc_setEntry_same. now apply (IH ch).
    + destruct (mkdirp (Dir []) q) as [ch'|] eqn:E; [|discriminate]. intros [= <-].
      cbn. rewrite FsFacts.assoc_setEntry_same. now apply (IH (Dir [])).
Qed.

Lemma mkdirp_frame p q :
  diverge p q -> forall n n1, mkdirp n p = Some n1 -> lookup n1 q = lookup n q.
Proof.
  induction 1 as [a b p q Hne | a p q Hdiv IH]; intros n n1;
    destruct n as [| es |]; cbn [mkdirp]; try discriminate.
  - assert (forall v, lookup (Dir (setEntry a v es)) (b :: q) = lookup (Dir es) (b :: q)) as Hv.
    { intros v. cbn. now rewrite FsFacts.assoc_setEntry_other. }
    destruct (assoc a es) as [ch|].
    + destruct (mkdirp ch p); [|discriminate]. intros [= <-]. apply Hv.
    + destruct (mkdirp (Dir []) p); [|discriminate]. intros [= <-]. apply Hv.
  - destruct (assoc a es) as [ch|] eqn:Ea.
    + destruct (mkdirp ch p) as [ch'|] eqn:E; [|discriminate]. intros [= <-].
      cbn [lookup]. rewrite FsFacts.assoc_setEntry_same, Ea. now apply (IH ch).
    + destruct (mkdirp (Dir []) p) as [ch'|] eqn:E; [|discriminate]. intros [= <-].
      cbn [lookup]. rewrite FsFacts.assoc_setEntry_same, Ea. rewrite (IH _ _ E).
      apply lookup_empty_dir. inversion Hdiv; discriminate.
Qed.

Lemma mkdirp_below p t :
  t <> [] -> forall n n1, mkdirp n p = Some n1 -> lookup n1 (p ++ t) = lookup n (p ++ t).
Proof.
  intros Ht. induction p as [|c q IH]; intros n n1;
    destruct n as [| es |]; cbn [mkdirp]; try discriminate.
  - now intros [= <-].
  - destruct (assoc c es) as [ch|] eqn:Ea.
    + destruct (mkdirp ch q) as [ch'|] eqn:E; [|discriminate]. intros [= <-].
      cbn [app lookup]. rewrite FsFacts.assoc_setEntry_same, Ea. now apply (IH ch).
    + destruct (mkdirp (Dir []) q) as [ch'|] eqn:E; [|discriminate]. intros [= <-].
      cbn [app lookup]. rewrite FsFacts.assoc_setEntry_same, Ea. rewrite (IH _ _ E).
      apply lookup_empty_dir. now destruct q.
Qed.

Lemma mkdirp_requires p :
  forall n n1, mkdirp n p = Some n1 ->
               forall r, isPrefixOf r p = true -> absentOrDir n r = true.
Proof.
  induction p as [|c q IH]; intros n n1 H r Hr;
    destruct n as [| es |]; cbn [mkdirp] in H; try discriminate.
  - destruct r; [reflexivity | discriminate].
  - destruct r as [|a r]; [reflexivity|]. cbn in Hr.
    apply andb_prop in Hr as [Ha Hr]. apply String.eqb_eq in Ha. subst a.
    unfold absentOrDir. cbn [lookup].
    destruct (assoc c es) as [ch|] eqn:Ea; [|reflexivity].
    destruct (mkdirp ch q) as [ch'|] eqn:E; [|discriminate].
    apply (IH ch ch' E r Hr).
Qed.

Lemma insert_requires p :
  forall n x n', insert n p x = Some n' ->
                 forall r t, p = r ++ t -> t <> [] -> exists es, lookup n r = Some (Dir es).
Proof.
  induction p as [|c q IH]; intros n x n' H r t Heq Ht.
  - destruct r; [cbn in Heq; now subst | discriminate].
  - destruct n as [| es |]; cbn [insert] in H; try discriminate.
    destruct r as [|a r]; [now exists es|].
    injection Heq as <- ->. cbn [lookup].
    destruct (r ++ t) as [|c' q'] eqn:E; [destruct r; [now subst | discriminate]|].
    destruct (assoc c es) as [ch|]; [|discriminate].
    destruct (insert ch (c' :: q') x) as [ch'|] eqn:Ei; [|discriminate].
    apply (IH ch x ch' Ei r t); [now symmetry | exact Ht].
Qed.

Lemma mkdirp_preserves_file n p n1 x st c :
  mkdirp n p = Some n1 ->
  lookup n x = Some (File st c) ->
  lookup n1 x = Some (File st c).
Proof.
  intros Hm Hx. destruct (isPrefixOf x p) eqn:E.
  - pose proof (mkdirp_requires p n n1 Hm x E) as H. unfold absentOrDir in H.
    now rewrite Hx in H.
  - rewrite <- Hx. destruct (isPrefixOf p x) eqn:E'.
    + apply isPrefixOf_spec in E' as [t ->].
      apply mkdirp_below; [|exact Hm].
      intros ->. rewrite app_nil_r in E.
      assert (isPrefixOf p p = true) by (apply isPrefixOf_spec; exists []; now rewrite app_nil_r).
      congruence.
    + apply (mkdirp_frame p x); [|exact Hm]. now apply not_prefix_diverge.
Qed.

Lemma files_diverge n p q st c st' c' :
  lookup n p = Some (File st c) -> lookup n q = Some (File st' c') -> p <> q -> diverge p q.
Proof.
  intros Hp Hq Hne.
  assert (Hno : forall a b sa ca m, lookup n a = Some (File sa ca) -> lookup n b = Some m ->
                                    a <> b -> isPrefixOf a b = false).
  { intros a b sa ca m Ha Hb Hab. destruct (isPrefixOf a b) eqn:E; [|reflexivity].
    apply isPrefixOf_spec in E as [t ->].
    destruct t as [|y t]; [now rewrite app_nil_r in Hab|].
    destruct (lookup_through _ _ _ _ Hb) as [es Hes]; [discriminate|]. congruence. }
  apply not_prefix_diverge.
  - apply (Hno p q st c _ Hp Hq Hne).
  - apply (Hno q p st' c' _ Hq Hp). congruence.
Qed.

End PathFacts.

(* ===================================================================== *)
(** ** File names                                                         *)
(* ===================================================================== *)

Section Names.

Variable pf : platform.
Local Open Scope list_scope.

Lemma segments_noSep name : noSep pf name = true -> NodePath.segments pf name = [name].
Proof.
  induction name as [|c t IH]; simpl; [reflexivity|].
  intros H. apply andb_prop in H as [Hc Ht].
  apply negb_true_iff in Hc. rewrite Hc, (IH Ht). reflexivity.
Qed.

Lemma join_validName dir name :
  validName pf name = true -> NodePath.join pf dir name = dir ++ [name].
Proof.
  unfold validName. intros H.
  repeat (apply andb_prop in H as [H ?]).
  unfold NodePath.join. rewrite segments_noSep by assumption. simpl.
  unfold NodePath.normStep.
  apply negb_true_iff in H. rewrite H.
  match goal with E : negb (name =? ".")%string = true |- _ =>
    apply negb_true_iff in E; rewrite E end.
  match goal with E : negb (name =? "..")%string = true |- _ =>
    apply negb_true_iff in E; rewrite E end.
  reflexivity.
Qed.

Lemma basename_snoc dir name : NodePath.basename (dir ++ [name]) = name.
Proof. unfold NodePath.basename. apply last_last. Qed.

Lemma basenameStr_validName name :
  validName pf name = true -> NodePath.basenameStr pf name = name.
Proof.
  unfold validName. intros H.
  repeat (apply andb_prop in H as [H ?]).
  unfold NodePath.basenameStr. rewrite segments_noSep by assumption. simpl.
  apply negb_true_iff in H. rewrite H. reflexivity.
Qed.

Lemma length_append (a b : string) :
  String.length (a ++ b)%string = String.length a + String.length b.
Proof. induction a as [|c a IH]; cbn; [reflexivity | now rewrite IH]. Qed.

Lemma append_nil_r (a : string) : (a ++ "")%string = a.
Proof. induction a as [|c a IH]; cbn; [reflexivity | now rewrite IH]. Qed.

Lemma eqb_length_neq (a b : string) :
  String.length a <> String.length b -> (a =? b)%string = false.
Proof. intros H. apply String.eqb_neq. intros ->. now apply H. Qed.

Lemma lastDotSuffix_split t e :
  NodePath.lastDotSuffix t = Some e -> exists pre, t = (pre ++ e)%string /\ e <> ""%string.
Proof.
  revert e. induction t as [|c t IH]; intros e; cbn; [discriminate|].
  destruct (NodePath.lastDotSuffix t) as [e0|].
  - intros [= <-]. destruct (IH e0 eq_refl) as (pre & -> & Hne).
    now exists (String c pre).
  - destruct (Ascii.eqb c "."); [|discriminate].
    intros [= <-]. exists ""%string. split; [reflexivity | discriminate].
Qed.

Lemma stripSuffix_app pre e : NodePath.stripSuffix (pre ++ e)%string e = Some pre.
Proof.
  induction pre as [|c pre IH].
  - destruct e; cbn; [reflexivity|]. now rewrite Ascii.eqb_refl, String.eqb_refl.
  - cbn [append NodePath.stripSuffix]. rewrite eqb_length_neq.
    + now rewrite IH.
    + cbn. rewrite length_append. lia.
Qed.

(** The stem and the extension the duplicate-name loop works with put
    together give the name back. *)
Lemma stem_ext_sourceName sourceName :
  validName pf sourceName = true ->
  (baseOf pf sourceName ++ extOf pf sourceName)%string = sourceName.
Proof.
  intros Hv. unfold baseOf, extOf, NodePath.extname. rewrite (basenameStr_validName _ Hv).
  destruct sourceName as [|c t]; [reflexivity|].
  unfold NodePath.extnameComp.
  destruct (String c t =? "..")%string.
  { cbn. now rewrite append_nil_r. }
  destruct (NodePath.lastDotSuffix t) as [e|] eqn:E.
  - destruct (lastDotSuffix_split t e E) as (pre & -> & Hne).
    unfold NodePath.basenameExt.
    apply String.eqb_neq in Hne. rewrite Hne.
    rewrite eqb_length_neq by (cbn; rewrite length_append; lia).
    change (String c (pre ++ e))%string with (String c pre ++ e)%string.
    now rewrite stripSuffix_app.
  - cbn. now rewrite append_nil_r.
Qed.

Lemma noSep_append a b : noSep pf (a ++ b)%string = noSep pf a && noSep pf b.
Proof.
  induction a as [|c a IH]; cbn; [reflexivity|]. rewrite IH. now rewrite andb_assoc.
Qed.

Lemma noSep_digits d : noSep pf (NilEmpty.string_of_uint d) = true.
Proof. induction d; cbn; try rewrite IHd; now destruct pf. Qed.

Lemma noSep_showNat n : noSep pf (showNat n) = true.
Proof.
  unfold showNat, NilZero.string_of_uint.
  destruct (Nat.to_uint n) eqn:E; try (rewrite <- E; apply noSep_digits).
  now destruct pf.
Qed.

Lemma underscore_name a b :
  let n := (a ++ String "_" b)%string in
  (n =? "")%string = false /\ (n =? ".")%string = false /\ (n =? "..")%string = false.
Proof.
  cbn zeta. repeat split; apply String.eqb_neq;
    destruct a as [|c1 [|c2 [|c3 a]]]; cbn; intros [=].
Qed.

(** For a valid source name the numbered candidate is the single
    component [stem_k.ext] below the destination directory. *)
Lemma numbered_validName destDir sourceName k :
  validName pf sourceName = true ->
  numbered pf destDir sourceName k
  = destDir ++ [(baseOf pf sourceName ++ "_" ++ showNat k ++ extOf pf sourceName)%string].
Proof.
  intros Hv. unfold numbered. apply join_validName.
  pose proof (stem_ext_sourceName sourceName Hv) as Hse.
  assert (Hns : noSep pf sourceName = true).
  { unfold validName in Hv. now apply andb_prop in Hv as [_ Hv]. }
  rewrite <- Hse, noSep_append in Hns. apply andb_prop in Hns as [Hb He].
  unfold validName.
  destruct (underscore_name (baseOf pf sourceName) (showNat k ++ extOf pf sourceName))
    as (H1 & H2 & H3).
  cbn zeta in H1, H2, H3. cbn [append].
  change (baseOf pf sourceName ++ String "_" (showNat k ++ extOf pf sourceName))%string
    with (baseOf pf sourceName ++ "_" ++ showNat k ++ extOf pf sourceName)%string in *.
  rewrite H1, H2, H3. cbn [negb andb].
  rewrite !noSep_append, Hb, He, noSep_showNat. now destruct pf.
Qed.

End Names.

(* ===================================================================== *)
(** ** The duplicate-name loop                                            *)
(* ===================================================================== *)

Section Naming.

Variable pf : platform.

Lemma uniqueDest_step fuel destDir sourceName cur counter s :
  uniqueDest pf (S fuel) destDir sourceName cur counter s =
  if Fs.exists_ s cur
  then uniqueDest pf fuel destDir sourceName (numbered pf destDir sourceName counter) (S counter) s
  else (Ret cur, s).
Proof.
  cbn [uniqueDest]. unfold bind, tryCatch, access, ret.
  destruct (Fs.exists_ s cur); reflexivity.
Qed.

Lemma uniqueDest_reaches destDir sourceName s :
  forall n i fuel,
    (forall j, i <= j < i + n -> Fs.exists_ s (probeAt pf destDir sourceName j) = true) ->
    Fs.exists_ s (probeAt pf destDir sourceName (i + n)) = false ->
    n < fuel ->
    uniqueDest pf fuel destDir sourceName (probeAt pf destDir sourceName i) (S i) s
    = (Ret (probeAt pf destDir sourceName (i + n)), s).
Proof.
  induction n as [|n IH]; intros i fuel Hex Hfree Hfuel.
  - destruct fuel as [|fuel]; [lia|]. rewrite uniqueDest_step.
    rewrite Nat.add_0_r in *. now rewrite Hfree.
  - destruct fuel as [|fuel]; [lia|]. rewrite uniqueDest_step.
    rewrite (Hex i) by lia.
    replace (i + S n) with (S i + n) in * by lia.
    apply (IH (S i) fuel); [|exact Hfree|lia].
    intros j Hj. apply Hex. lia.
Qed.

Lemma uniqueDest_sound destDir sourceName s :
  forall fuel cur counter p s',
    uniqueDest pf fuel destDir sourceName cur counter s = (Ret p, s') ->
    s' = s /\ Fs.exists_ s p = false.
Proof.
  induction fuel as [|fuel IH]; intros cur counter p s' H.
  - discriminate.
  - rewrite uniqueDest_step in H. destruct (Fs.exists_ s cur) eqn:E.
    + now apply IH in H.
    + injection H as <- <-. now split.
Qed.

(** C1. Collision-free naming.  If the desired path is free the loop
    returns it unchanged ([k = 0]); if the desired path [stem.ext] and the
    numbered names [stem_1.ext] to [stem_(k-1).ext] exist while [stem_k.ext]
    does not, the loop (counter from 1, one step at a time, existence checked
    at every step) returns [stem_k.ext].  It needs [k + 1] rounds, leaves the
    file system alone, and whatever path it returns does not exist in the
    state it was computed in.  For a source name that is a valid file name
    the probed paths are the components [stem ++ ext] and
    [stem ++ "_" ++ j ++ ext] below the destination directory. *)
Theorem C1_collision_free_naming :
  forall (s : fsState) (destDir : path) (sourceName : string) (k fuel : nat),
    (forall i, i < k -> Fs.exists_ s (probeAt pf destDir sourceName i) = true) ->
    Fs.exists_ s (probeAt pf destDir sourceName k) = false ->
    k < fuel ->
    uniqueDest pf fuel destDir sourceName (NodePath.join pf destDir sourceName) 1 s
    = (Ret (probeAt pf destDir sourceName k), s)
    /\ (forall fuel' p s',
          uniqueDest pf fuel' destDir sourceName (NodePath.join pf destDir sourceName) 1 s
          = (Ret p, s') ->
          s' = s /\ Fs.exists_ s p = false)
    /\ (validName pf sourceName = true ->
        probeAt pf destDir sourceName 0
        = (destDir ++ [(baseOf pf sourceName ++ extOf pf sourceName)%string])%list
        /\ forall j,
             probeAt pf destDir sourceName (S j)
             = (destDir ++ [(baseOf pf sourceName ++ "_" ++ showNat (S j)
                             ++ extOf pf sourceName)%string])%list).
Proof.
  intros s destDir sourceName k fuel Hex Hfree Hfuel. split; [|split].
  - apply (uniqueDest_reaches destDir sourceName s k 0 fuel); auto.
    intros j Hj. apply Hex. lia.
  - intros fuel' p s'. apply uniqueDest_sound.
  - intros Hv. split.
    + cbn [probeAt]. rewrite (stem_ext_sourceName pf sourceName Hv).
      now apply join_validName.
    + intros j. cbn [probeAt]. now apply numbered_validName.
Qed.

End Naming.

(* ===================================================================== *)
(** ** A prefix of a path: the path itself or a proper prefix              *)
(* ===================================================================== *)

Section PrefixCases.
Local Open Scope list_scope.

Lemma prefix_cases r p :
  isPrefixOf r p = true -> r = p \/ exists t, t <> [] /\ p = r ++ t.
Proof.
  intros H. apply PathFacts.isPrefixOf_spec in H as [t ->]. destruct t as [|a t].
  - left. now rewrite app_nil_r.
  - right. exists (a :: t). split; [discriminate | reflexivity].
Qed.

End PrefixCases.

(* ===================================================================== *)
(** ** Well-formed trees and the recursive finder                         *)
(* ===================================================================== *)

Lemma node_nested_ind (P : node -> Prop) :
  (forall st c, P (File st c)) ->
  (forall es, Forall (fun e => P (snd e)) es -> P (Dir es)) ->
  P Other ->
  forall n, P n.
Proof.
  intros HF HD HO. fix IH 1. intros [st c | es |].
  - apply HF.
  - apply HD. induction es as [|[k v] r IHr]; constructor; [apply IH | exact IHr].
  - exact HO.
Qed.

Section Finder.

Variable pf : platform.
Local Open Scope list_scope.

Lemma wf_children_all es :
  (fix all (es : list (string * node)) : bool :=
     match es with
     | [] => true
     | (_, child) :: rest => wf pf child && all rest
     end) es = forallb (fun e => wf pf (snd e)) es.
Proof. induction es as [|[k v] r IH]; simpl; [reflexivity | now rewrite IH]. Qed.

Lemma wf_Dir es :
  wf pf (Dir es) = true ->
  forallb (validName pf) (map fst es) = true
  /\ distinct (map fst es) = true
  /\ forallb (fun e => wf pf (snd e)) es = true.
Proof.
  cbn [wf]. rewrite wf_children_all. intros H.
  apply andb_prop in H as [H H3]. apply andb_prop in H as [H1 H2]. auto.
Qed.

Lemma assoc_In k v es : Fs.assoc k es = Some v -> In (k, v) es.
Proof.
  induction es as [|[k' v'] r IH]; simpl; [discriminate|].
  destruct (k' =? k)%string eqn:E.
  - intros [= ->]. apply String.eqb_eq in E. subst. now left.
  - intros H. right. now apply IH.
Qed.

Lemma In_assoc k v es : distinct (map fst es) = true -> In (k, v) es -> Fs.assoc k es = Some v.
Proof.
  induction es as [|[k' v'] r IH]; simpl; [contradiction|].
  intros H. apply andb_prop in H as [Hk Hr]. intros [[= -> ->] | Hin].
  - now rewrite String.eqb_refl.
  - destruct (k' =? k)%string eqn:E; [|now apply IH].
    apply String.eqb_eq in E. subst k'. apply negb_true_iff in Hk.
    assert (existsb (String.eqb k) (map fst r) = true); [|congruence].
    apply existsb_exists. exists k. split; [|apply String.eqb_refl].
    apply in_map_iff. now exists (k, v).
Qed.

Lemma wf_child es k v : wf pf (Dir es) = true -> In (k, v) es ->
  validName pf k = true /\ wf pf v = true.
Proof.
  intros H Hin. apply wf_Dir in H as (H1 & _ & H3). split.
  - rewrite forallb_forall in H1. apply H1. apply in_map_iff. now exists (k, v).
  - rewrite forallb_forall in H3. now apply (H3 (k, v)).
Qed.

Lemma wf_lookup s p n : wf pf s = true -> Fs.lookup s p = Some n -> wf pf n = true.
Proof.
  revert s. induction p as [|c q IH]; intros s Hwf; simpl.
  - now intros [= <-].
  - destruct s as [| es |]; try discriminate.
    destruct (Fs.assoc c es) as [ch|] eqn:E; [|discriminate].
    apply IH. apply assoc_In in E. now apply (wf_child es c ch).
Qed.

Lemma walk_Dir extension currentDir es :
  walk pf extension currentDir (Dir es) = flat_map (walkEntry pf extension currentDir) es.
Proof.
  cbn [walk]. induction es as [|[k v] r IH]; [reflexivity|].
  cbn [flat_map]. rewrite <- IH. unfold walkEntry. cbn [fst snd].
  destruct v; reflexivity.
Qed.

(** The finder returns exactly the regular files below the directory whose
    lower-cased name ends with [extension] as it was passed. *)
Lemma walk_spec extension :
  forall n currentDir p,
    wf pf n = true ->
    (In p (walk pf extension currentDir n) <->
     exists rel, rel <> [] /\ p = currentDir ++ rel
                 /\ (exists st c, Fs.lookup n rel = Some (File st c))
                 /\ endsWith (toLowerCase (last rel "")) extension = true).
Proof.
  induction n as [st c | es IH |] using node_nested_ind; intros currentDir p Hwf.
  - split; [intros [] | intros (rel & Hne & _ & (st' & c' & Hl) & _)].
    destruct rel; [contradiction | discriminate].
  - rewrite walk_Dir, in_flat_map. split.
    + intros ([k v] & Hin & Hp).
      destruct (wf_child es k v Hwf Hin) as [Hk Hv].
      pose proof (wf_Dir es Hwf) as (_ & Hd & _).
      pose proof (In_assoc k v es Hd Hin) as Ha.
      unfold walkEntry in Hp. cbn [fst snd] in Hp.
      rewrite join_validName in Hp by assumption.
      destruct v as [st c | es' |].
      * destruct (endsWith (toLowerCase k) extension) eqn:E; [|contradiction].
        destruct Hp as [<- | []]. exists [k]. repeat split; [discriminate| |exact E].
        exists st, c. simpl. now rewrite Ha.
      * rewrite Forall_forall in IH. specialize (IH (k, Dir es') Hin). cbn [snd] in IH.
        apply IH in Hp; [|assumption].
        destruct Hp as (rel & Hne & -> & Hfile & He).
        exists (k :: rel). repeat split; [discriminate | now rewrite <- app_assoc | |].
        -- destruct Hfile as (st & c & Hl). exists st, c. simpl. now rewrite Ha.
        -- destruct rel; [contradiction | exact He].
      * contradiction.
    + intros (rel & Hne & -> & (st & c & Hl) & He).
      destruct rel as [|k rel]; [contradiction|]. simpl in Hl.
      destruct (Fs.assoc k es) as [v|] eqn:Ha; [|discriminate].
      pose proof (assoc_In _ _ _ Ha) as Hin.
      destruct (wf_child es k v Hwf Hin) as [Hk Hv].
      exists (k, v). split; [exact Hin|].
      unfold walkEntry. cbn [fst snd]. rewrite join_validName by assumption.
      destruct rel as [|k' rel].
      * simpl in Hl. injection Hl as ->. simpl in He. rewrite He. now left.
      * destruct v as [st' c' | es' |]; try discriminate.
        rewrite Forall_forall in IH. specialize (IH (k, Dir es') Hin). cbn [snd] in IH.
        apply IH; [assumption|].
        exists (k' :: rel). repeat split; [discriminate | now rewrite <- app_assoc | | exact He].
        now exists st, c.
  - split; [intros [] | intros (rel & Hne & _ & (st' & c' & Hl) & _)].
    destruct rel; [contradiction | discriminate].
Qed.

End Finder.

(* ===================================================================== *)
(** ** Selecting the latest file                                          *)
(* ===================================================================== *)

Section Latest.

Variable pf : platform.
Variable homedir : path.
Variable cwd : path.
Variable dirStats : path -> stats.
Variable otherStats : path -> option stats.
Local Open Scope list_scope.
Local Open Scope Z_scope.

Lemma fold_latest_inv (others pre mid : list fileStat) (cur : fileStat) :
  (forall x, In x pre -> fsMtime x < fsMtime cur) ->
  (forall x, In x mid -> fsMtime x <= fsMtime cur) ->
  exists pre' post',
    let r := fold_left (fun latest current =>
                          if fsMtime current >? fsMtime latest then current else latest)
                       others cur in
    pre ++ cur :: mid ++ others = pre' ++ r :: post'
    /\ (forall x, In x pre' -> fsMtime x < fsMtime r)
    /\ (forall x, In x post' -> fsMtime x <= fsMtime r).
Proof.
  revert pre mid cur. induction others as [|x xs IH]; intros pre mid cur Hpre Hmid.
  - exists pre, mid. cbn. rewrite app_nil_r. auto.
  - cbn [fold_left]. destruct (fsMtime x >? fsMtime cur) eqn:E.
    + apply Z.gtb_lt in E.
      destruct (IH (pre ++ cur :: mid) [] x) as (pre' & post' & H1 & H2 & H3).
      * intros y Hy. apply in_app_or in Hy as [Hy | [<- | Hy]].
        -- specialize (Hpre y Hy). lia.
        -- lia.
        -- specialize (Hmid y Hy). lia.
      * intros y [].
      * exists pre', post'. cbn zeta in *. repeat split; auto.
        rewrite <- H1. rewrite <- !app_assoc. reflexivity.
    + assert (fsMtime x <= fsMtime cur) by (rewrite Z.gtb_ltb in E; apply Z.ltb_ge in E; lia).
      destruct (IH pre (mid ++ [x]) cur) as (pre' & post' & H1 & H2 & H3).
      * exact Hpre.
      * intros y Hy. apply in_app_or in Hy as [Hy | [<- | []]]; auto.
      * exists pre', post'. cbn zeta in *. repeat split; auto.
        rewrite <- H1. rewrite <- !app_assoc. reflexivity.
Qed.

Lemma reduceLatest_first_max (fileStats : list fileStat) :
  fileStats <> [] ->
  exists pre latest post,
    reduceLatest fileStats = Some latest
    /\ fileStats = pre ++ latest :: post
    /\ (forall x, In x pre -> fsMtime x < fsMtime latest)
    /\ (forall x, In x post -> fsMtime x <= fsMtime latest).
Proof.
  destruct fileStats as [|first others]; [contradiction|]. intros _.
  destruct (fold_latest_inv others [] [] first) as (pre & post & H1 & H2 & H3);
    [intros x [] | intros x [] |].
  cbn zeta in *. exists pre. eexists. exists post.
  split; [reflexivity|]. split; [exact H1 | auto].
Qed.

Lemma first_max_unique {A} (key : A -> Z) :
  forall pre x post pre' x' post',
    pre ++ x :: post = pre' ++ x' :: post' ->
    (forall y, In y pre -> key y < key x) ->
    (forall y, In y post -> key y <= key x) ->
    (forall y, In y pre' -> key y < key x') ->
    (forall y, In y post' -> key y <= key x') ->
    pre = pre' /\ x = x' /\ post = post'.
Proof.
  induction pre as [|a pre IH]; intros x post pre' x' post' Heq H1 H2 H3 H4.
  - destruct pre' as [|a' pre'].
    + injection Heq as -> ->. auto.
    + injection Heq as -> ->. exfalso.
      assert (key a' < key x') by (apply H3; now left).
      assert (key x' <= key a') by (apply H2; apply in_or_app; right; now left).
      lia.
  - destruct pre' as [|a' pre'].
    + injection Heq as -> <-. exfalso.
      assert (key x' < key x) by (apply H1; now left).
      assert (key x <= key x') by (apply H4; apply in_or_app; right; now left).
      lia.
    + injection Heq as -> Heq.
      destruct (IH x post pre' x' post' Heq) as (-> & -> & ->); auto.
      * intros y Hy. apply H1. now right.
      * intros y Hy. apply H3. now right.
Qed.

Lemma statEach_regular s (svgFiles : list path) :
  Forall (isRegularFile s) svgFiles ->
  statEach pf dirStats otherStats svgFiles s
  = (Ret (map (fun p => {| filePath := p; fsMtime := mtimeAt s p |}) svgFiles), s).
Proof.
  induction 1 as [|p rest (st & c & Hp) _ IH]; [reflexivity|].
  cbn [statEach map]. unfold bind at 1. unfold stat at 1. rewrite Hp.
  unfold bind at 1. rewrite IH. unfold ret, mtimeAt. now rewrite Hp.
Qed.

Lemma walk_regular s dir es extension :
  wf pf s = true -> Fs.lookup s dir = Some (Dir es) ->
  Forall (isRegularFile s) (walk pf extension dir (Dir es)).
Proof.
  intros Hwf Hdir. apply Forall_forall. intros p Hp.
  apply (walk_spec pf extension (Dir es) dir p) in Hp; [|now apply (wf_lookup pf s dir)].
  destruct Hp as (rel & _ & -> & (st & c & Hl) & _).
  exists st, c. now rewrite FsFacts.lookup_app, Hdir.
Qed.

Lemma findFiles_dir s dir es extension :
  Fs.lookup s dir = Some (Dir es) ->
  findFiles pf dir extension s = (Ret (walk pf extension dir (Dir es)), s).
Proof. intros H. unfold findFiles, bind, readdir. now rewrite H. Qed.

Lemma access_present s p (h : string -> M unit) :
  Fs.exists_ s p = true -> tryCatch (access pf p) h s = (Ret tt, s).
Proof. intros H. unfold tryCatch, access. now rewrite H. Qed.

End Latest.

(* ===================================================================== *)
(** ** Size rendering                                                     *)
(* ===================================================================== *)

Section Rendering.

Local Open Scope Z_scope.

Lemma twoDigits_length (m : Z) : 0 <= m < 100 -> String.length (twoDigits m) = 2%nat.
Proof.
  intros H. rewrite <- (Z2Nat.id m) by lia.
  assert (Hk : (Z.to_nat m < 100)%nat) by lia.
  revert Hk. generalize (Z.to_nat m) as k. intros k Hk.
  do 100 (destruct k as [|k]; [reflexivity|]). lia.
Qed.

Lemma toFixed2_nearest (num den : Z) :
  0 <= num -> 0 < den ->
  let n := (200 * num + den) / (2 * den) in
  toFixed2 num den = showZ (n / 100) ++ "." ++ twoDigits (n mod 100)
  /\ String.length (twoDigits (n mod 100)) = 2%nat
  /\ 2 * den * n <= 200 * num + den < 2 * den * (n + 1).
Proof.
  intros Hnum Hden n. split; [reflexivity|]. split.
  - apply twoDigits_length. apply Z.mod_pos_bound. lia.
  - subst n.
    pose proof (Z.div_mod (200 * num + den) (2 * den) ltac:(lia)) as Hdm.
    pose proof (Z.mod_pos_bound (200 * num + den) (2 * den) ltac:(lia)) as Hb.
    lia.
Qed.

(** C3 (as the handler has it).  In a listing the size is the plain byte
    count up to and including 1024 bytes, the size in KB with two decimals
    above 1024 bytes up to and including 1048576 bytes, and the size in MB
    with two decimals above 1048576 bytes; the two decimals are the nearest
    hundredth of the exact quotient.  Away from the two boundary sizes this
    is the rendering the specification describes. *)
Theorem C3_size_rendering :
  forall sz : Z,
    0 <= sz ->
    (sz <= 1024 -> displaySize sz = showZ sz ++ " bytes")
    /\ (1024 < sz <= 1048576 ->
        displaySize sz = toFixed2 sz 1024 ++ " KB"
        /\ 2048 * ((200 * sz + 1024) / 2048) <= 200 * sz + 1024
           < 2048 * ((200 * sz + 1024) / 2048 + 1))
    /\ (1048576 < sz ->
        displaySize sz = toFixed2 sz 1048576 ++ " MB"
        /\ 2097152 * ((200 * sz + 1048576) / 2097152) <= 200 * sz + 1048576
           < 2097152 * ((200 * sz + 1048576) / 2097152 + 1))
    /\ (sz <> 1024 -> sz <> 1048576 -> displaySize sz = displaySizeSpec sz).
Proof.
  intros sz Hsz. unfold displaySize, displaySizeSpec.
  change (1024 * 1024) with 1048576.
  repeat split.
  - intros H.
    destruct (sz >? 1048576) eqn:E1; [apply Z.gtb_lt in E1; lia|].
    destruct (sz >? 1024) eqn:E2; [apply Z.gtb_lt in E2; lia|]. reflexivity.
  - destruct (sz >? 1048576) eqn:E1; [apply Z.gtb_lt in E1; lia|].
    destruct (sz >? 1024) eqn:E2; [reflexivity|].
    rewrite Z.gtb_ltb in E2. apply Z.ltb_ge in E2. lia.
  - apply (toFixed2_nearest sz 1024); lia.
  - apply (toFixed2_nearest sz 1024); lia.
  - destruct (sz >? 1048576) eqn:E1; [reflexivity|].
    rewrite Z.gtb_ltb in E1. apply Z.ltb_ge in E1. lia.
  - apply (toFixed2_nearest sz 1048576); lia.
  - apply (toFixed2_nearest sz 1048576); lia.
  - intros H1 H2.
    destruct (sz >? 1048576) eqn:E1.
    + apply Z.gtb_lt in E1.
      destruct (sz <? 1024) eqn:E3; [apply Z.ltb_lt in E3; lia|].
      destruct (sz <? 1048576) eqn:E4; [apply Z.ltb_lt in E4; lia|]. reflexivity.
    + rewrite Z.gtb_ltb in E1. apply Z.ltb_ge in E1.
      destruct (sz >? 1024) eqn:E2.
      * apply Z.gtb_lt in E2.
        destruct (sz <? 1024) eqn:E3; [apply Z.ltb_lt in E3; lia|].
        destruct (sz <? 1048576) eqn:E4; [reflexivity|]. apply Z.ltb_ge in E4. lia.
      * rewrite Z.gtb_ltb in E2. apply Z.ltb_ge in E2.
        destruct (sz <? 1024) eqn:E3; [reflexivity|]. apply Z.ltb_ge in E3. lia.
Qed.

(** C3 as stated fails at both boundaries: exactly 1024 bytes are shown
    as bytes, not in KB, and exactly 1048576 bytes in KB, not in MB. *)
Lemma C3_boundary_counterexample :
  displaySize 1024 = "1024 bytes" /\ displaySizeSpec 1024 = "1.00 KB"
  /\ displaySize 1048576 = "1024.00 KB" /\ displaySizeSpec 1048576 = "1.00 MB"
  /\ ~ (forall sz, 0 <= sz -> displaySize sz = displaySizeSpec sz).
Proof.
  repeat split; try reflexivity.
  intros H. specialize (H 1024 ltac:(lia)). vm_compute in H. discriminate.
Qed.

End Rendering.

(* ===================================================================== *)
(** ** Listing a directory                                                *)
(* ===================================================================== *)

Section Listing.

Variable pf : platform.
Variable homedir : path.
Variable cwd : path.
Variable toLocaleString : Z -> string.
Variable dirStats : path -> stats.
Variable otherStats : path -> option stats.
Local Open Scope list_scope.
Local Open Scope Z_scope.

Lemma insertByModified_perm x l : Permutation (x :: l) (insertByModified x l).
Proof.
  induction l as [|y r IH]; simpl; [reflexivity|].
  destruct (fdModified x <? fdModified y); [|reflexivity].
  rewrite perm_swap. now constructor.
Qed.

Lemma sortByModified_perm l : Permutation l (sortByModified l).
Proof.
  induction l as [|x r IH]; simpl; [reflexivity|].
  rewrite <- insertByModified_perm. now constructor.
Qed.

Lemma insertByModified_sorted x l :
  StronglySorted newerFirst l -> StronglySorted newerFirst (insertByModified x l).
Proof.
  induction 1 as [|y r Hs IH Hall]; simpl.
  - repeat constructor.
  - destruct (fdModified x <? fdModified y) eqn:E.
    + apply Z.ltb_lt in E. constructor; [exact IH|].
      rewrite <- insertByModified_perm. constructor; [unfold newerFirst; lia | exact Hall].
    + apply Z.ltb_ge in E. constructor; [now constructor|].
      constructor; [exact E|].
      eapply Forall_impl; [|exact Hall]. unfold newerFirst. intros z Hz. lia.
Qed.

Lemma sortByModified_sorted l : StronglySorted newerFirst (sortByModified l).
Proof.
  induction l as [|x r IH]; simpl; [constructor | now apply insertByModified_sorted].
Qed.

Lemma insertByModified_stable t x l :
  filter (fun f => fdModified f =? t) (insertByModified x l)
  = filter (fun f => fdModified f =? t) (x :: l).
Proof.
  induction l as [|y r IH]; [reflexivity|].
  cbn [insertByModified]. destruct (fdModified x <? fdModified y) eqn:E; [|reflexivity].
  apply Z.ltb_lt in E. cbn [filter] in *. rewrite IH.
  destruct (fdModified x =? t) eqn:Ex; destruct (fdModified y =? t) eqn:Ey; try reflexivity.
  apply Z.eqb_eq in Ex, Ey. lia.
Qed.

Lemma sortByModified_stable t l :
  filter (fun f => fdModified f =? t) (sortByModified l)
  = filter (fun f => fdModified f =? t) l.
Proof.
  induction l as [|x r IH]; [reflexivity|].
  cbn [sortByModified]. rewrite insertByModified_stable. cbn [filter]. now rewrite IH.
Qed.

Lemma collectDetails_run s searchDir es :
  collectDetails pf dirStats otherStats searchDir es s = (Ret (detailsOf pf dirStats otherStats s searchDir es), s).
Proof.
  induction es as [|[k v] r IH]; [reflexivity|].
  cbn [collectDetails detailsOf flat_map fst snd].
  unfold bind at 1.
  assert (Hhere :
    (match v with
     | File _ _ =>
         tryCatch
           (bind (stat pf dirStats otherStats (NodePath.join pf searchDir k))
              (fun st => ret [ {| fdName := k; fdSize := size st; fdModified := mtime st;
                                 fdExtension :=
                                   stripLeadingDot (toLowerCase (NodePath.extname pf k)) |} ]))
           (fun _ => ret [])
     | _ => ret []
     end) s
    = (Ret (match v with
            | File _ _ =>
                match statAt dirStats otherStats s (NodePath.join pf searchDir k) with
                | Some st =>
                    [ {| fdName := k; fdSize := size st; fdModified := mtime st;
                         fdExtension :=
                           stripLeadingDot (toLowerCase (NodePath.extname pf k)) |} ]
                | None => []
                end
            | _ => []
            end), s)).
  { destruct v; try reflexivity.
    unfold tryCatch, bind, stat, statAt, ret.
    destruct (Fs.lookup s (NodePath.join pf searchDir k)) as [[| |]|]; try reflexivity.
    destruct (otherStats _); reflexivity. }
  rewrite Hhere. unfold bind at 1. rewrite IH. reflexivity.
Qed.

Lemma mapIndexed_from_1 (l : list fileDetail) :
  forall i, mapIndexed (renderFile toLocaleString) (S i) l = map (renderPlain toLocaleString) l.
Proof.
  induction l as [|x r IH]; intros i; [reflexivity|].
  cbn [mapIndexed map]. now rewrite IH.
Qed.

Lemma slice0_nonneg {A} (l : list A) (n : Z) : 0 <= n -> slice0 l n = firstn (Z.to_nat n) l.
Proof.
  intros H. unfold slice0. destruct (n <? 0) eqn:E; [apply Z.ltb_lt in E; lia | reflexivity].
Qed.

Lemma detailsOf_origin s searchDir es d :
  In d (detailsOf pf dirStats otherStats s searchDir es) -> exists st c, In (fdName d, File st c) es.
Proof.
  unfold detailsOf. rewrite in_flat_map. intros ([k v] & Hin & Hd). cbn [fst snd] in Hd.
  destruct v as [st c | |]; try contradiction.
  destruct (statAt dirStats otherStats s (NodePath.join pf searchDir k)) as [st'|];
    [|contradiction].
  destruct Hd as [<- | []]. now exists st, c.
Qed.

Lemma handleListFiles_run fuel s a es :
  Fs.lookup s (searchDirOf pf homedir cwd a) = Some (Dir es) ->
  0 <= limitOf a ->
  handleListFiles pf homedir cwd toLocaleString dirStats otherStats fuel a s
  = (match matchingFiles a (detailsOf pf dirStats otherStats s (searchDirOf pf homedir cwd a) es) with
     | [] =>
         Ret ("No files"
              ++ (if (fileTypeOf a =? "")%string then ""
                  else " of type '." ++ fileTypeOf a ++ "'")
              ++ " found in " ++ showPath pf (searchDirOf pf homedir cwd a))%string
     | m :: r =>
         let shown := firstn (Z.to_nat (limitOf a)) (sortByModified (m :: r)) in
         Ret (listingText pf homedir cwd a (renderShown toLocaleString shown)
                (List.length shown) (List.length (m :: r)))
     end, s).
Proof.
  intros Hdir Hlim. unfold handleListFiles.
  unfold bind at 1.
  rewrite (access_present pf) by (apply FsFacts.exists_true; eauto).
  unfold bind at 1. unfold readdir at 1. rewrite Hdir.
  unfold bind at 1. rewrite collectDetails_run.
  unfold matchingFiles. cbv zeta.
  destruct (if (fileTypeOf a =? "")%string then _ else _) as [|m r]; [reflexivity|].
  rewrite slice0_nonneg by exact Hlim.
  unfold ret, listingText. do 3 f_equal.
  destruct (firstn _ _) as [|x l]; [reflexivity|].
  cbn [mapIndexed renderShown]. rewrite mapIndexed_from_1. reflexivity.
Qed.

(** C6. Listing order and counts.  [list_files] takes the immediate
    regular-file entries of the directory, keeps those of the requested
    type, sorts them by modification time, newest first, without reordering
    files of equal time, and only then cuts the list to [limit] entries
    ([limit] is the handler's constant: the given limit, 20 when none or 0 is
    given).  The first entry shown is a newest file and carries the LATEST
    badge, the others carry none, and the text reports the number shown and
    the number of all matching files. *)
Theorem C6_listing_order_and_counts :
  forall (fuel : nat) (s : fsState) (a : args) (es : list (string * node)),
    Fs.lookup s (searchDirOf pf homedir cwd a) = Some (Dir es) ->
    matchingFiles a (detailsOf pf dirStats otherStats s (searchDirOf pf homedir cwd a) es) <> [] ->
    0 <= limitOf a ->
    let matching := matchingFiles a (detailsOf pf dirStats otherStats s (searchDirOf pf homedir cwd a) es) in
    let sorted := sortByModified matching in
    let shown := firstn (Z.to_nat (limitOf a)) sorted in
    (forall d, In d matching -> exists st c, In (fdName d, File st c) es)
    /\ Permutation matching sorted
    /\ StronglySorted newerFirst sorted
    /\ (forall t, filter (fun f => fdModified f =? t) sorted
                  = filter (fun f => fdModified f =? t) matching)
    /\ List.length shown = Nat.min (Z.to_nat (limitOf a)) (List.length matching)
    /\ (forall first others, shown = first :: others ->
          forall d, In d matching -> fdModified d <= fdModified first)
    /\ handleListFiles pf homedir cwd toLocaleString dirStats otherStats fuel a s
       = (Ret (listingText pf homedir cwd a (renderShown toLocaleString shown)
                 (List.length shown) (List.length matching)), s)
    /\ (forall l, limit a = Some l -> 0 < l -> limitOf a = l)
    /\ (limit a = None -> limitOf a = 20).
Proof.
  intros fuel s a es Hdir Hne Hlim matching sorted shown.
  assert (Hperm : Permutation matching sorted) by apply sortByModified_perm.
  assert (Hsorted : StronglySorted newerFirst sorted) by apply sortByModified_sorted.
  repeat split.
  - intros d Hd. subst matching. unfold matchingFiles in Hd.
    destruct (fileTypeOf a =? "")%string.
    + now apply detailsOf_origin in Hd.
    + apply filter_In in Hd as [Hd _]. now apply detailsOf_origin in Hd.
  - exact Hperm.
  - exact Hsorted.
  - intros t. apply sortByModified_stable.
  - subst shown. rewrite length_firstn. now rewrite <- (Permutation_length Hperm).
  - intros first others Hshown d Hd.
    destruct sorted as [|x r] eqn:Es.
    + subst shown. rewrite firstn_nil in Hshown. discriminate.
    + assert (first = x) as ->.
      { subst shown. destruct (Z.to_nat (limitOf a)); [discriminate|].
        now injection Hshown as -> _. }
      apply (Permutation_in _ Hperm) in Hd. destruct Hd as [<- | Hd]; [lia|].
      inversion Hsorted as [|? ? _ Hall]; subst.
      rewrite Forall_forall in Hall. now apply Hall.
  - rewrite (handleListFiles_run fuel s a es Hdir Hlim).
    subst shown sorted matching.
    destruct (matchingFiles a _) as [|m r]; [contradiction | reflexivity].
  - intros l Hl Hpos. unfold limitOf. rewrite Hl.
    destruct (l =? 0) eqn:E; [apply Z.eqb_eq in E; lia | reflexivity].
  - intros Hl. unfold limitOf. now rewrite Hl.
Qed.

End Listing.

(* ===================================================================== *)
(** ** Tool calls                                                         *)
(* ===================================================================== *)

Section ToolCalls.

Variable pf : platform.
Variable homedir : path.
Variable cwd : path.
Variable toLocaleString : Z -> string.
Variable copyStamp : Z -> Z.
Variable dirStats : path -> stats.
Variable otherStats : path -> option stats.
Local Open Scope list_scope.

(** C7. Missing-argument atomicity.  A call that lacks a required field
    (the field is absent or the empty string) is answered with an error
    that names the field, and the file system is left exactly as it was:
    [filename] for [unzip_file], [copy_file], [move_file] and
    [unzip_and_move_svgs], [destination_folder] for [move_latest_svg] and,
    once [filename] is there, for [unzip_and_move_svgs], [name] for
    [create_directory]. *)
Theorem C7_missing_argument :
  forall (fuel : nat) (s : fsState) (a : args),
    (truthy (filename a) = None ->
       callTool pf homedir cwd toLocaleString copyStamp dirStats otherStats fuel unzip_file a s
       = (failed "filename is required", s)
       /\ callTool pf homedir cwd toLocaleString copyStamp dirStats otherStats fuel copy_file a s
          = (failed "filename is required", s)
       /\ callTool pf homedir cwd toLocaleString copyStamp dirStats otherStats fuel move_file a s
          = (failed "filename is required", s)
       /\ callTool pf homedir cwd toLocaleString copyStamp dirStats otherStats fuel unzip_and_move_svgs a s
          = (failed "filename is required", s))
    /\ (truthy (destination_folder a) = None ->
          callTool pf homedir cwd toLocaleString copyStamp dirStats otherStats fuel move_latest_svg a s
          = (failed "destination_folder is required", s)
          /\ (truthy (filename a) <> None ->
                callTool pf homedir cwd toLocaleString copyStamp dirStats otherStats fuel unzip_and_move_svgs a s
                = (failed "destination_folder is required", s))
          /\ (exists field,
                (field = "filename" \/ field = "destination_folder")%string
                /\ callTool pf homedir cwd toLocaleString copyStamp dirStats otherStats fuel unzip_and_move_svgs a s
                   = (failed (field ++ " is required"), s)))
    /\ (truthy (name a) = None ->
          callTool pf homedir cwd toLocaleString copyStamp dirStats otherStats fuel create_directory a s
          = (failed "name is required", s))
    /\ (filename a = None -> truthy (filename a) = None)
    /\ (destination_folder a = None -> truthy (destination_folder a) = None)
    /\ (name a = None -> truthy (name a) = None).
Proof.
  intros fuel s a. unfold callTool.
  split; [|split; [|split]].
  - intros H. unfold handleUnzip, handleCopyFile, handleMoveFile, handleUnzipAndMoveSvgs.
    rewrite H. repeat split.
  - intros H. unfold handleMoveLatestSvg, handleUnzipAndMoveSvgs. rewrite H.
    split; [reflexivity|]. split.
    + intros Hf. destruct (truthy (filename a)); [reflexivity | contradiction].
    + destruct (truthy (filename a)).
      * exists "destination_folder"%string. split; [now right | reflexivity].
      * exists "filename"%string. split; [now left | reflexivity].
  - intros H. unfold handleCreateDirectory. now rewrite H.
  - repeat split; intros H; now rewrite H.
Qed.

Lemma DOWNLOADS_DIR_eq : DOWNLOADS_DIR pf homedir = homedir ++ ["Downloads"].
Proof. unfold DOWNLOADS_DIR. apply join_validName. now destruct pf. Qed.

Lemma DOCUMENTS_DIR_eq :
  exists d0 d, DOCUMENTS_DIR pf homedir = homedir ++ d0 :: d /\ d0 <> "Downloads"%string.
Proof.
  unfold DOCUMENTS_DIR. destruct pf.
  - exists "OneDrive\Documents"%string, []. split; [reflexivity | discriminate].
  - exists "OneDrive"%string, ["Documents"%string]. split; [|discriminate].
    cbn. now rewrite <- app_assoc.
Qed.

Lemma roots_diverge x y :
  diverge (DOWNLOADS_DIR pf homedir ++ x) (DOCUMENTS_DIR pf homedir ++ y).
Proof.
  rewrite DOWNLOADS_DIR_eq. destruct DOCUMENTS_DIR_eq as (d0 & d & -> & Hne).
  rewrite <- !app_assoc. apply FsFacts.diverge_app. cbn. apply diverge_here. congruence.
Qed.

Lemma siblings_diverge dir x y : x <> y -> diverge (dir ++ [x]) (dir ++ [y]).
Proof. intros H. apply FsFacts.diverge_app. now apply diverge_here. Qed.

Lemma mkdir_existing s p es :
  Fs.lookup s p = Some (Dir es) -> mkdir pf p s = (Ret tt, s).
Proof. intros H. unfold mkdir. now rewrite (FsFacts.mkdirp_existing s p es H). Qed.

Lemma lookup_parent s dir x n :
  Fs.lookup s (dir ++ [x]) = Some n -> exists es, Fs.lookup s dir = Some (Dir es).
Proof.
  rewrite FsFacts.lookup_app. destruct (Fs.lookup s dir) as [[| es |]|]; try discriminate.
  intros _. now exists es.
Qed.

(** Moving a node to a free name in an existing directory that is not
    below the node's own path. *)
Lemma rename_into_dir s src dir x n es :
  Fs.lookup s src = Some n ->
  Fs.lookup s dir = Some (Dir es) ->
  Fs.lookup s (dir ++ [x]) = None ->
  diverge src dir ->
  exists s', rename pf src (dir ++ [x]) s = (Ret tt, s')
             /\ Fs.lookup s' (dir ++ [x]) = Some n
             /\ Fs.lookup s' src = None
             /\ (forall q, diverge src q -> diverge (dir ++ [x]) q ->
                   Fs.lookup s' q = Fs.lookup s q).
Proof.
  intros Hsrc Hdir Hfree Hdiv.
  assert (Hdiv' : diverge src (dir ++ [x])).
  { clear -Hdiv. induction Hdiv; cbn; [now apply diverge_here | now apply diverge_next]. }
  assert (Hne : src <> []) by (inversion Hdiv; discriminate).
  assert (Hdir' : Fs.lookup (Fs.remove s src) dir = Some (Dir es))
    by (now rewrite FsFacts.lookup_remove_other).
  destruct (FsFacts.insert_into_dir _ dir x es n Hdir') as [s' Hs'].
  exists s'. unfold rename. rewrite Hsrc, Hfree, Hs'. repeat split.
  - now apply (FsFacts.lookup_insert_same _ _ _ _ Hs').
  - rewrite (FsFacts.lookup_insert_other _ _ _ _ src Hs') by now apply FsFacts.diverge_sym.
    now apply FsFacts.lookup_remove_same.
  - intros q H1 H2. rewrite (FsFacts.lookup_insert_other _ _ _ _ q Hs') by exact H2.
    now apply FsFacts.lookup_remove_other.
Qed.

Lemma locateSourceFile_top s dir fn :
  Fs.exists_ s (NodePath.join pf dir fn) = true ->
  locateSourceFile pf dir fn s = (Ret (NodePath.join pf dir fn), s).
Proof.
  intros H. unfold locateSourceFile, tryCatch, bind, access. now rewrite H.
Qed.

Lemma join_report dir : NodePath.join pf dir "report.pdf" = dir ++ ["report.pdf"].
Proof. now destruct pf. Qed.

Lemma numbered_report dir : numbered pf dir "report.pdf" 1 = dir ++ ["report_1.pdf"].
Proof. now destruct pf. Qed.

(** C8. Move with collision.  With [report.pdf] in Downloads, a
    [report.pdf] already in Documents and no [report_1.pdf] there, the call
    [move_file {filename: "report.pdf", source: "downloads"}] succeeds; afterwards
    [report_1.pdf] in Documents is what [report.pdf] in Downloads was, the
    latter is gone, and the old [report.pdf] in Documents is untouched. *)
Theorem C8_move_with_collision :
  forall (fuel : nat) (s : fsState) (a : args) (moved old : node),
    2 <= fuel ->
    filename a = Some "report.pdf"%string ->
    source a = Some "downloads"%string ->
    destination_folder a = None ->
    Fs.lookup s (DOWNLOADS_DIR pf homedir ++ ["report.pdf"]) = Some moved ->
    Fs.lookup s (DOCUMENTS_DIR pf homedir ++ ["report.pdf"]) = Some old ->
    Fs.lookup s (DOCUMENTS_DIR pf homedir ++ ["report_1.pdf"]) = None ->
    exists s',
      callTool pf homedir cwd toLocaleString copyStamp dirStats otherStats fuel move_file a s
      = (Some {| text := ("Successfully moved report.pdf to "
                          ++ showPath pf (DOCUMENTS_DIR pf homedir ++ ["report_1.pdf"])%list)%string;
                 isError := false |}, s')
      /\ Fs.lookup s' (DOCUMENTS_DIR pf homedir ++ ["report_1.pdf"]) = Some moved
      /\ Fs.lookup s' (DOWNLOADS_DIR pf homedir ++ ["report.pdf"]) = None
      /\ Fs.lookup s' (DOCUMENTS_DIR pf homedir ++ ["report.pdf"]) = Some old.
Proof.
  intros fuel s a moved old Hfuel Hfn Hsrc Hdf Hmoved Hold Hfree.
  destruct (lookup_parent s _ _ _ Hold) as [es Hdocs].
  destruct (rename_into_dir s (DOWNLOADS_DIR pf homedir ++ ["report.pdf"])
              (DOCUMENTS_DIR pf homedir) "report_1.pdf" moved es Hmoved Hdocs Hfree)
    as (s' & Hren & H1 & H2 & H3).
  { rewrite <- (app_nil_r (DOCUMENTS_DIR pf homedir)). apply roots_diverge. }
  exists s'. repeat split; [|exact H1|exact H2|].
  - unfold callTool, handleMoveFile. rewrite Hfn. cbn [truthy String.eqb Ascii.eqb Bool.eqb].
    assert (Hsd : sourceDirOf pf homedir cwd a = DOWNLOADS_DIR pf homedir)
      by (unfold sourceDirOf; now rewrite Hsrc).
    assert (Hdd : destDirOf pf homedir a = DOCUMENTS_DIR pf homedir)
      by (unfold destDirOf; now rewrite Hdf).
    rewrite Hsd. unfold bind at 1.
    rewrite locateSourceFile_top
      by (rewrite join_report; apply FsFacts.exists_true; eauto).
    rewrite join_report. unfold moveLocated. rewrite Hdd.
    unfold bind at 1. rewrite (mkdir_existing s _ es Hdocs).
    rewrite basename_snoc. unfold bind at 1.
    change (NodePath.join pf (DOCUMENTS_DIR pf homedir) "report.pdf")
      with (probeAt pf (DOCUMENTS_DIR pf homedir) "report.pdf" 0).
    rewrite (uniqueDest_reaches pf (DOCUMENTS_DIR pf homedir) "report.pdf" s 1 0 fuel).
    + cbn [Nat.add probeAt]. rewrite numbered_report.
      unfold bind at 1. rewrite Hren. reflexivity.
    + intros j Hj. assert (j = 0) as -> by lia. cbn [probeAt]. rewrite join_report.
      apply FsFacts.exists_true. eauto.
    + cbn [Nat.add probeAt]. rewrite numbered_report. now apply FsFacts.exists_false.
    + lia.
  - rewrite H3; [exact Hold | |].
    + apply roots_diverge.
    + apply siblings_diverge. discriminate.
Qed.

End ToolCalls.

(* ===================================================================== *)
(** ** Locating the source of a copy or move                              *)
(* ===================================================================== *)

Section Locate.

Variable pf : platform.
Variable homedir : path.
Variable cwd : path.
Variable copyStamp : Z -> Z.
Local Open Scope list_scope.

Lemma find_first {A} (f : A -> bool) pre m post :
  f m = true -> (forall x, In x pre -> f x = false) ->
  find f (pre ++ m :: post) = Some m.
Proof.
  intros Hm. induction pre as [|y pre IH]; intros Hpre; simpl.
  - now rewrite Hm.
  - rewrite (Hpre y) by now left. apply IH. intros x Hx. apply Hpre. now right.
Qed.

Lemma find_split {A} (f : A -> bool) l m :
  find f l = Some m ->
  exists pre post, l = pre ++ m :: post /\ f m = true /\ (forall x, In x pre -> f x = false).
Proof.
  induction l as [|y l IH]; simpl; [discriminate|].
  destruct (f y) eqn:E.
  - intros [= ->]. exists [], l. repeat split; [exact E | intros x []].
  - intros H. destruct (IH H) as (pre & post & -> & Hm & Hpre).
    exists (y :: pre), post. repeat split; [exact Hm|].
    intros x [<- | Hx]; [exact E | now apply Hpre].
Qed.

Lemma last_app_nonempty {A} (l r : list A) d : r <> [] -> last (l ++ r) d = last r d.
Proof.
  intros Hr. induction l as [|x l IH]; [reflexivity|].
  cbn [app]. destruct (l ++ r) eqn:E.
  - destruct l; [now subst | discriminate].
  - rewrite <- IH. reflexivity.
Qed.

(** What the recursive search of [sourceDir] finds: every regular file
    below it whose lower-cased name ends with the given extension. *)
Lemma found_spec s dir es extension p :
  wf pf s = true -> Fs.lookup s dir = Some (Dir es) ->
  (In p (walk pf extension dir (Dir es)) <->
   below dir p /\ isRegularFile s p
   /\ endsWith (toLowerCase (NodePath.basename p)) extension = true).
Proof.
  intros Hwf Hdir.
  rewrite (walk_spec pf extension (Dir es) dir p) by now apply (wf_lookup pf s dir).
  split.
  - intros (rel & Hne & -> & (st & c & Hl) & He). repeat split.
    + now exists rel.
    + exists st, c. now rewrite FsFacts.lookup_app, Hdir.
    + unfold NodePath.basename. now rewrite last_app_nonempty.
  - intros ((rel & Hne & ->) & (st & c & Hl) & He).
    exists rel. repeat split; auto.
    + exists st, c. now rewrite FsFacts.lookup_app, Hdir in Hl.
    + unfold NodePath.basename in He. now rewrite last_app_nonempty in He.
Qed.

Lemma locateSourceFile_fallback s dir es fn :
  Fs.lookup s dir = Some (Dir es) ->
  Fs.exists_ s (NodePath.join pf dir fn) = false ->
  locateSourceFile pf dir fn s
  = match find (fun f => (NodePath.basename f =? fn)%string)
               (walk pf (NodePath.extname pf fn) dir (Dir es)) with
    | Some matched => (Ret matched, s)
    | None => (Throw ("File not found: " ++ fn ++ " in " ++ showPath pf dir)%string, s)
    end.
Proof.
  intros Hdir Hex. unfold locateSourceFile, tryCatch, access.
  unfold bind at 1. rewrite Hex.
  unfold bind at 1. rewrite (findFiles_dir pf s dir es) by exact Hdir.
  destruct (find _ _); reflexivity.
Qed.

(** The fallback of [copy_file] and [move_file] as the handlers run it.
    When [sourceDir/filename] does not exist, the tree below [sourceDir] is
    searched for regular files whose lower-cased name ends with the
    extension of [filename] as it was given; the first file found whose base
    name is [filename] becomes the source of the copy or move, and when no
    found file has that base name the call fails with "File not found",
    leaving the file system as it was. *)
Lemma fallback_search :
  forall (fuel : nat) (s : fsState) (a : args) (fn : string) (es : list (string * node)),
    wf pf s = true ->
    truthy (filename a) = Some fn ->
    Fs.lookup s (sourceDirOf pf homedir cwd a) = Some (Dir es) ->
    Fs.exists_ s (NodePath.join pf (sourceDirOf pf homedir cwd a) fn) = false ->
    let sourceDir := sourceDirOf pf homedir cwd a in
    let found := walk pf (NodePath.extname pf fn) sourceDir (Dir es) in
    (forall p, In p found <->
               below sourceDir p /\ isRegularFile s p
               /\ endsWith (toLowerCase (NodePath.basename p)) (NodePath.extname pf fn) = true)
    /\ (forall pre m post,
          found = pre ++ m :: post ->
          NodePath.basename m = fn ->
          (forall x, In x pre -> NodePath.basename x <> fn) ->
          locateSourceFile pf sourceDir fn s = (Ret m, s)
          /\ handleCopyFile pf homedir cwd copyStamp fuel a s = copyLocated pf homedir copyStamp fuel a m s
          /\ handleMoveFile pf homedir cwd fuel a s = moveLocated pf homedir fuel a fn m s)
    /\ ((forall p, In p found -> NodePath.basename p <> fn) ->
          handleCopyFile pf homedir cwd copyStamp fuel a s
          = (Throw ("File not found: " ++ fn ++ " in " ++ showPath pf sourceDir)%string, s)
          /\ handleMoveFile pf homedir cwd fuel a s
             = (Throw ("File not found: " ++ fn ++ " in " ++ showPath pf sourceDir)%string, s))
    /\ ((exists pre m post,
           found = pre ++ m :: post /\ NodePath.basename m = fn
           /\ (forall x, In x pre -> NodePath.basename x <> fn))
        \/ (forall p, In p found -> NodePath.basename p <> fn)).
Proof.
  intros fuel s a fn es Hwf Hfn Hdir Hex sourceDir found.
  pose proof (locateSourceFile_fallback s sourceDir es fn Hdir Hex) as Hloc.
  fold found in Hloc.
  split; [|split; [|split]].
  - intros p. now apply found_spec.
  - intros pre m post Hsplit Hm Hpre.
    assert (Hfind : find (fun f => (NodePath.basename f =? fn)%string) found = Some m).
    { rewrite Hsplit. apply find_first; [now apply String.eqb_eq|].
      intros x Hx. apply String.eqb_neq. now apply Hpre. }
    rewrite Hfind in Hloc. split; [exact Hloc|].
    unfold handleCopyFile, handleMoveFile. rewrite Hfn. fold sourceDir.
    unfold bind. rewrite Hloc. split; reflexivity.
  - intros Hnone.
    assert (Hfind : find (fun f => (NodePath.basename f =? fn)%string) found = None).
    { destruct (find _ found) as [m|] eqn:E; [|reflexivity].
      apply find_some in E as [Hin Heq]. apply String.eqb_eq in Heq.
      now destruct (Hnone m Hin). }
    rewrite Hfind in Hloc.
    unfold handleCopyFile, handleMoveFile. rewrite Hfn. fold sourceDir.
    unfold bind. rewrite Hloc. split; reflexivity.
  - destruct (find (fun f => (NodePath.basename f =? fn)%string) found) as [m|] eqn:E.
    + left. apply find_split in E as (pre & post & Hs & Hm & Hpre).
      exists pre, m, post. repeat split; [exact Hs | now apply String.eqb_eq |].
      intros x Hx. apply String.eqb_neq. now apply Hpre.
    + right. intros p Hp. apply String.eqb_neq. now apply (find_none _ _ E).
Qed.

End Locate.

(* ===================================================================== *)
(** ** Extraction                                                         *)
(* ===================================================================== *)

Section Extraction.

Import Fs.
Variable pf : platform.
Variable homedir : path.
Variable cwd : path.
Local Open Scope list_scope.



Lemma way_prefixes s p :
  forallb (absentOrDir s) (properPrefixes p) = true ->
  forall r t, p = r ++ t -> t <> [] -> absentOrDir s r = true.
Proof.
  intros H r t -> Ht. rewrite forallb_forall in H. apply H.
  apply PathFacts.properPrefixes_spec. now exists t.
Qed.



Lemma isPrefixOf_refl p : isPrefixOf p p = true.
Proof. apply PathFacts.isPrefixOf_spec. exists []. now rewrite app_nil_r. Qed.






End Extraction.

(* ===================================================================== *)
(** ** Case folding in the finder and in the location tokens              *)
(* ===================================================================== *)

Section CaseFolding.

Variable pf : platform.
Local Open Scope list_scope.

Lemma lower_ascii_idem c : lower_ascii (lower_ascii c) = lower_ascii c.
Proof. destruct c as [[] [] [] [] [] [] [] []]; reflexivity. Qed.

Lemma toLowerCase_idem s : toLowerCase (toLowerCase s) = toLowerCase s.
Proof.
  induction s as [|c t IH]; [reflexivity|].
  cbn [toLowerCase]. now rewrite lower_ascii_idem, IH.
Qed.

Lemma endsWith_lower s suf :
  endsWith (toLowerCase s) suf = true -> toLowerCase suf = suf.
Proof.
  induction s as [|c t IH]; cbn [toLowerCase endsWith]; intros H.
  - apply orb_prop in H as [H | H]; [|discriminate].
    apply String.eqb_eq in H. now subst.
  - apply orb_prop in H as [H | H]; [|now apply IH].
    apply String.eqb_eq in H. subst suf.
    change (toLowerCase (toLowerCase (String c t)) = toLowerCase (String c t)).
    apply toLowerCase_idem.
Qed.

(** An extension that is not in lower case matches no file at all. *)
Lemma walk_mixed_case_extension extension :
  toLowerCase extension <> extension ->
  forall n currentDir, walk pf extension currentDir n = [].
Proof.
  intros Hext. induction n as [st c | es IH |] using node_nested_ind; intros currentDir;
    try reflexivity.
  rewrite walk_Dir. induction es as [|[k v] r IHr]; [reflexivity|].
  inversion IH as [|? ? Hv Hr]; subst. cbn [flat_map]. rewrite (IHr Hr).
  unfold walkEntry. cbn [fst snd] in *. destruct v as [st c | es' |].
  - destruct (endsWith (toLowerCase k) extension) eqn:E; [|reflexivity].
    now apply endsWith_lower in E.
  - now rewrite Hv.
  - reflexivity.
Qed.

Lemma split_nonempty sep s : split sep s <> [].
Proof.
  destruct s as [|c t]; cbn; [discriminate|].
  destruct (Ascii.eqb c sep); [discriminate|]. destruct (split sep t); discriminate.
Qed.

Lemma concat_cons_cons sep x y r :
  String.concat sep (x :: y :: r) = (x ++ sep ++ String.concat sep (y :: r))%string.
Proof. reflexivity. Qed.

Lemma join_split sep s : join (String sep "") (split sep s) = s.
Proof.
  unfold join. induction s as [|c t IH]; [reflexivity|].
  cbn [split]. destruct (split sep t) as [|h r] eqn:Es; [now destruct (split_nonempty sep t)|].
  destruct (Ascii.eqb c sep) eqn:E.
  - apply Ascii.eqb_eq in E. subst c. rewrite concat_cons_cons, IH. reflexivity.
  - destruct r as [|y r].
    + cbn in *. now rewrite IH.
    + rewrite concat_cons_cons in *. cbn [append] in *. now rewrite IH.
Qed.

Lemma prefix_nil s : String.prefix "" s = true.
Proof. now destruct s. Qed.

Lemma subfolderOf_documents_slash rest : subfolderOf ("documents/" ++ rest) = rest.
Proof.
  unfold subfolderOf.
  assert (includes ("documents/" ++ rest) "/" = true) as -> by (cbn; now rewrite prefix_nil).
  cbn. apply (join_split "/").
Qed.

Lemma subfolderOf_downloads_slash rest : subfolderOf ("downloads/" ++ rest) = rest.
Proof.
  unfold subfolderOf.
  assert (includes ("downloads/" ++ rest) "/" = true) as -> by (cbn; now rewrite prefix_nil).
  cbn. apply (join_split "/").
Qed.

Lemma subfolderOf_documents_backslash rest :
  includes rest "/" = false -> subfolderOf ("documents\" ++ rest) = rest.
Proof.
  intros H. unfold subfolderOf.
  assert (includes ("documents\" ++ rest) "/" = false) as -> by (cbn; exact H).
  cbn. apply (join_split "\").
Qed.

Lemma subfolderOf_downloads_backslash rest :
  includes rest "/" = false -> subfolderOf ("downloads\" ++ rest) = rest.
Proof.
  intros H. unfold subfolderOf.
  assert (includes ("downloads\" ++ rest) "/" = false) as -> by (cbn; exact H).
  cbn. apply (join_split "\").
Qed.

Variable homedir : path.
Variable cwd : path.

(** Where [list_files] looks for a composite token: below the root, in
    the folder named by what follows the first separator of the lower-cased
    token (for a token that starts with a backslash form: provided no "/"
    comes later). *)
Lemma searchDirOf_composite (a : args) (token rest : string) :
  directory a = Some token ->
  (toLowerCase token = ("documents/" ++ rest)%string ->
   searchDirOf pf homedir cwd a = NodePath.join pf (DOCUMENTS_DIR pf homedir) rest)
  /\ (toLowerCase token = ("downloads/" ++ rest)%string ->
      searchDirOf pf homedir cwd a = NodePath.join pf (DOWNLOADS_DIR pf homedir) rest)
  /\ (toLowerCase token = ("documents\" ++ rest)%string -> includes rest "/" = false ->
      searchDirOf pf homedir cwd a = NodePath.join pf (DOCUMENTS_DIR pf homedir) rest)
  /\ (toLowerCase token = ("downloads\" ++ rest)%string -> includes rest "/" = false ->
      searchDirOf pf homedir cwd a = NodePath.join pf (DOWNLOADS_DIR pf homedir) rest).
Proof.
  intros Hdir. unfold searchDirOf. rewrite Hdir.
  assert (Hne : forall r, toLowerCase token = r -> r <> ""%string ->
                          orDefault (Some token) "downloads" = token).
  { intros r Hr Hnz. cbn. destruct token; [cbn in Hr; congruence | reflexivity]. }
  repeat split.
  - intros H. rewrite (Hne _ H) by discriminate. rewrite H. cbv zeta.
    assert (E1 : ("documents/" ++ rest =? "downloads")%string = false) by reflexivity.
    assert (E2 : ("documents/" ++ rest =? "documents")%string = false) by reflexivity.
    assert (E3 : startsWith ("documents/" ++ rest) "documents/" = true)
      by (cbn; apply prefix_nil).
    rewrite E1, E2, E3. cbn [orb]. now rewrite subfolderOf_documents_slash.
  - intros H. rewrite (Hne _ H) by discriminate. rewrite H. cbv zeta.
    assert (E1 : ("downloads/" ++ rest =? "downloads")%string = false) by reflexivity.
    assert (E2 : ("downloads/" ++ rest =? "documents")%string = false) by reflexivity.
    assert (E3 : startsWith ("downloads/" ++ rest) "documents/"
                 || startsWith ("downloads/" ++ rest) "documents\" = false) by reflexivity.
    assert (E4 : startsWith ("downloads/" ++ rest) "downloads/" = true)
      by (cbn; apply prefix_nil).
    rewrite E1, E2, E3, E4. cbn [orb]. now rewrite subfolderOf_downloads_slash.
  - intros H Hs. rewrite (Hne _ H) by discriminate. rewrite H. cbv zeta.
    assert (E1 : ("documents\" ++ rest =? "downloads")%string = false) by reflexivity.
    assert (E2 : ("documents\" ++ rest =? "documents")%string = false) by reflexivity.
    assert (E3 : startsWith ("documents\" ++ rest) "documents/" = false) by reflexivity.
    assert (E4 : startsWith ("documents\" ++ rest) "documents\" = true)
      by (cbn; apply prefix_nil).
    rewrite E1, E2, E3, E4. cbn [orb]. now rewrite subfolderOf_documents_backslash.
  - intros H Hs. rewrite (Hne _ H) by discriminate. rewrite H. cbv zeta.
    assert (E1 : ("downloads\" ++ rest =? "downloads")%string = false) by reflexivity.
    assert (E2 : ("downloads\" ++ rest =? "documents")%string = false) by reflexivity.
    assert (E3 : startsWith ("downloads\" ++ rest) "documents/"
                 || startsWith ("downloads\" ++ rest) "documents\" = false) by reflexivity.
    assert (E4 : startsWith ("downloads\" ++ rest) "downloads/" = false) by reflexivity.
    assert (E5 : startsWith ("downloads\" ++ rest) "downloads\" = true)
      by (cbn; apply prefix_nil).
    rewrite E1, E2, E3, E4, E5. cbn [orb]. now rewrite subfolderOf_downloads_backslash.
Qed.

End CaseFolding.

(** C5 (failing input).  The finder lower-cases the file name but not the
    suffix it is given.  On the tree a.svg, b/B.SVG, b/c.png the suffix
    ".svg" finds a.svg and b/B.SVG, the suffix ".SVG" finds nothing, and
    [copy_file] for "B.SVG", which lies in the subfolder b, is answered
    "File not found" although the file is there. *)
Theorem C5_uppercase_suffix_finds_nothing :
  findFiles Posix Examples.downloads ".svg" Examples.svgTree
  = (Ret [ (Examples.downloads ++ ["a.svg"])%list;
           (Examples.downloads ++ ["b"; "B.SVG"])%list ], Examples.svgTree)
  /\ findFiles Posix Examples.downloads ".SVG" Examples.svgTree = (Ret [], Examples.svgTree)
  /\ isRegularFile Examples.svgTree (Examples.downloads ++ ["b"; "B.SVG"])%list
  /\ endsWith (toLowerCase "B.SVG") (toLowerCase ".SVG") = true
  /\ callTool Posix Examples.home [] Examples.locale Examples.today Examples.folderStats Examples.linkStats 3 copy_file
       (Examples.withFilename "B.SVG") Examples.svgTree
     = (failed "File not found: B.SVG in /home/u/Downloads", Examples.svgTree).
Proof.
  repeat split; try reflexivity.
  eexists. eexists. reflexivity.
Qed.

(** C4 (failing input).  [list_files] lower-cases the whole token before
    it cuts off the part behind the first separator, and it cuts at "/"
    whenever the token has one: "documents/Projects" resolves to the
    folder "projects" below the documents root, and on Windows
    "documents\a/b" resolves to the folder "b", where the specification has
    "Projects" and "a/b". *)
Theorem C4_remainder_not_verbatim :
  searchDirOf Posix Examples.home [] (Examples.withDirectory "documents/Projects")
  = (DOCUMENTS_DIR Posix Examples.home ++ ["projects"])%list
  /\ NodePath.join Posix (DOCUMENTS_DIR Posix Examples.home)
       (afterFirstSeparator "documents/Projects")
     = (DOCUMENTS_DIR Posix Examples.home ++ ["Projects"])%list
  /\ searchDirOf Posix Examples.home [] (Examples.withDirectory "downloads/Old")
     = (DOWNLOADS_DIR Posix Examples.home ++ ["old"])%list
  /\ searchDirOf Win32 Examples.home [] (Examples.withDirectory "documents\a/b")
     = (DOCUMENTS_DIR Win32 Examples.home ++ ["b"])%list
  /\ NodePath.join Win32 (DOCUMENTS_DIR Win32 Examples.home)
       (afterFirstSeparator "documents\a/b")
     = (DOCUMENTS_DIR Win32 Examples.home ++ ["a"; "b"])%list.
Proof. repeat split; reflexivity. Qed.

(** C9 (failing input).  The fallback of [copy_file] and [move_file]
    searches with [path.extname(filename)] as it was typed, and the finder
    compares it with lower-cased names.  On the tree a.svg, b/B.SVG, b/c.png
    the regular file b/B.SVG has the base name "B.SVG" and is not at the top
    level; a call for "B.SVG" is nevertheless answered "File not found", by
    both tools and with the file system untouched, while a call for
    "c.png", which lies in the same subfolder, finds its file and copies
    it. *)
Theorem C9_named_file_not_found :
  forall (fuel : nat) (copyStamp : Z -> Z),
    Fs.lookup Examples.svgTree (Examples.downloads ++ ["B.SVG"])%list = None
    /\ Fs.lookup Examples.svgTree (Examples.downloads ++ ["b"; "B.SVG"])%list
       = Some (Examples.file 2 20 "B")
    /\ NodePath.basename (Examples.downloads ++ ["b"; "B.SVG"])%list = "B.SVG"
    /\ handleCopyFile Posix Examples.home [] copyStamp fuel
         (Examples.withFilename "B.SVG") Examples.svgTree
       = (Throw "File not found: B.SVG in /home/u/Downloads", Examples.svgTree)
    /\ handleMoveFile Posix Examples.home [] fuel
         (Examples.withFilename "B.SVG") Examples.svgTree
       = (Throw "File not found: B.SVG in /home/u/Downloads", Examples.svgTree)
    /\ locateSourceFile Posix Examples.downloads "c.png" Examples.svgTree
       = (Ret (Examples.downloads ++ ["b"; "c.png"])%list, Examples.svgTree)
    /\ (exists s',
          handleCopyFile Posix Examples.home [] copyStamp (2 + fuel)
            (Examples.withFilename "c.png") Examples.svgTree
          = (Ret "Successfully copied c.png to /home/u/OneDrive\Documents/c.png", s')
          /\ Fs.lookup s' (Examples.documents ++ ["c.png"])%list
             = Some (File {| size := 30; mtime := copyStamp 3%Z |} (Bytes "c"))).
Proof.
  intros fuel copyStamp. repeat split; try reflexivity.
  exists (snd (handleCopyFile Posix Examples.home [] copyStamp (2 + fuel)
                 (Examples.withFilename "c.png") Examples.svgTree)).
  split; vm_compute; reflexivity.
Qed.

(* ===================================================================== *)
(** ** Sample runs                                                        *)
(* ===================================================================== *)

Section SampleRuns.


Import Examples.
Local Open Scope list_scope.

(** With report.pdf and report_1.pdf in place the loop stops at report_2.pdf. *)
Lemma C1_collision_free_naming_witness :
  uniqueDest Posix 3 documents "report.pdf"
    (NodePath.join Posix documents "report.pdf") 1 twoReports
  = (Ret (documents ++ ["report_2.pdf"]), twoReports).
Proof.
  apply (C1_collision_free_naming Posix twoReports documents "report.pdf" 2 3).
  - intros [|[|i]] Hi; [reflexivity | reflexivity | lia].
  - reflexivity.
  - lia.
Defined.

(** 2048 bytes are shown as 2.00 KB. *)
Lemma C3_size_rendering_witness : displaySize 2048 = "2.00 KB".
Proof.
  destruct (C3_size_rendering 2048) as (_ & Hkb & _); [lia|].
  destruct Hkb as [Hkb _]; [lia|]. exact Hkb.
Defined.

(** Four SVG files, limit 2: the two newest, newest first, "2 of 4". *)
Lemma C6_listing_order_and_counts_witness :
  handleListFiles Posix home [] locale folderStats linkStats 1 listTwoSvgs fourSvgs
  = (Ret ("Files in /home/u/Downloads (filtered to .svg files)" ++ nl
          ++ "Showing 2 of 4 (sorted by most recent):" ++ nl ++ nl
          ++ "two.svg [LATEST]" ++ nl ++ "  Size: 2.00 KB | Modified: 40" ++ nl ++ nl
          ++ "four.svg" ++ nl ++ "  Size: 100 bytes | Modified: 30")%string, fourSvgs).
Proof.
  destruct (C6_listing_order_and_counts Posix home [] locale folderStats linkStats 1 fourSvgs listTwoSvgs
              [("one.svg", file 10 100 "1"); ("notes.txt", file 99 5 "n");
               ("two.svg", file 40 2048 "2"); ("three.svg", file 20 100 "3");
               ("four.svg", file 30 100 "4")])
    as (_ & _ & _ & _ & _ & _ & Hrun & _).
  - reflexivity.
  - vm_compute. discriminate.
  - vm_compute. discriminate.
  - exact Hrun.
Defined.

(** A call of [move_file] without arguments changes nothing. *)
Lemma C7_missing_argument_witness :
  callTool Posix home [] locale today folderStats linkStats 1 move_file noArgs collision
  = (failed "filename is required", collision)
  /\ callTool Posix home [] locale today folderStats linkStats 1 move_latest_svg noArgs collision
     = (failed "destination_folder is required", collision)
  /\ callTool Posix home [] locale today folderStats linkStats 1 create_directory noArgs collision
     = (failed "name is required", collision).
Proof.
  destruct (C7_missing_argument Posix home [] locale today folderStats linkStats 1 collision noArgs)
    as (Hfilename & Hfolder & Hname & _).
  destruct (Hfilename eq_refl) as (_ & _ & Hmove & _).
  destruct (Hfolder eq_refl) as (Hlatest & _).
  split; [exact Hmove | split; [exact Hlatest | exact (Hname eq_refl)]].
Defined.

(** The scenario of the specification on the sample host. *)
Lemma C8_move_with_collision_witness :
  exists s',
    callTool Posix home [] locale today folderStats linkStats 2 move_file moveReport collision
    = (Some {| text := "Successfully moved report.pdf to /home/u/OneDrive\Documents/report_1.pdf";
               isError := false |}, s')
    /\ Fs.lookup s' (documents ++ ["report_1.pdf"]) = Some (file 5 100 "new")
    /\ Fs.lookup s' (downloads ++ ["report.pdf"]) = None
    /\ Fs.lookup s' (documents ++ ["report.pdf"]) = Some (file 2 50 "old").
Proof.
  apply (C8_move_with_collision Posix home [] locale today folderStats linkStats 2 collision moveReport
           (file 5 100 "new") (file 2 50 "old")).
  - lia.
  - reflexivity.
  - reflexivity.
  - reflexivity.
  - reflexivity.
  - reflexivity.
  - reflexivity.
Defined.


End SampleRuns.

(* ===================================================================== *)
(** ** The duplicate-name loop ends                                       *)
(* ===================================================================== *)

Section Termination.

Variable pf : platform.
Local Open Scope list_scope.

Lemma showNat_inj i j : showNat i = showNat j -> i = j.
Proof.
  unfold showNat. intros H.
  assert (Hn : forall n, Nat.to_uint n <> Decimal.Nil).
  { intros n Hnil. pose proof (f_equal Nat.of_uint Hnil) as H0.
    rewrite Unsigned.of_to in H0. cbn in H0. subst n. discriminate. }
  apply (f_equal NilZero.uint_of_string) in H.
  rewrite !NilZero.usu in H by apply Hn.
  injection H as H. now apply Unsigned.to_uint_inj.
Qed.

Lemma append_inj_l (a b c : string) : (a ++ b)%string = (a ++ c)%string -> b = c.
Proof. induction a as [|x a IH]; cbn; intros H; [exact H | injection H as H; auto]. Qed.

Lemma append_inj_r (e a b : string) : (a ++ e)%string = (b ++ e)%string -> a = b.
Proof.
  revert b. induction a as [|x a IH]; intros b H.
  - destruct b as [|y b]; [reflexivity|].
    apply (f_equal String.length) in H. rewrite length_append in H. cbn in H.
    rewrite length_append in H. lia.
  - destruct b as [|y b].
    + apply (f_equal String.length) in H. cbn in H. rewrite length_append in H. lia.
    + cbn in H. injection H as -> H. f_equal. now apply IH.
Qed.

(** The name probed in round [i] of the loop. *)
Lemma probeAt_child destDir sourceName i :
  validName pf sourceName = true ->
  exists name, probeAt pf destDir sourceName i = destDir ++ [name].
Proof.
  intros Hv. destruct i as [|i]; cbn [probeAt].
  - exists sourceName. now apply join_validName.
  - eexists. now apply numbered_validName.
Qed.

Lemma numbered_inj destDir sourceName i j :
  validName pf sourceName = true ->
  numbered pf destDir sourceName i = numbered pf destDir sourceName j -> i = j.
Proof.
  intros Hv H. rewrite !numbered_validName in H by exact Hv.
  apply app_inv_head in H. injection H as H.
  apply append_inj_l in H. cbn in H. injection H as H.
  apply append_inj_r in H. now apply showNat_inj.
Qed.

Lemma exists_child s destDir es name :
  Fs.lookup s destDir = Some (Dir es) ->
  Fs.exists_ s (destDir ++ [name]) = true -> In name (map fst es).
Proof.
  intros Hd H. apply FsFacts.exists_true in H as [m H].
  rewrite FsFacts.lookup_app, Hd in H. cbn in H.
  destruct (Fs.assoc name es) as [ch|] eqn:E; [|discriminate].
  apply assoc_In in E. now apply (in_map fst) in E.
Qed.

(** Among the numbered names 1 .. m+1 one is free in a folder of m entries. *)
Lemma free_numbered_name s destDir es sourceName :
  validName pf sourceName = true ->
  Fs.lookup s destDir = Some (Dir es) ->
  exists j, 1 <= j <= S (List.length es)
            /\ Fs.exists_ s (numbered pf destDir sourceName j) = false.
Proof.
  intros Hv Hd.
  set (cands := seq 1 (S (List.length es))).
  destruct (forallb (fun j => Fs.exists_ s (numbered pf destDir sourceName j)) cands) eqn:E.
  - exfalso. rewrite forallb_forall in E.
    set (nm := fun k => (baseOf pf sourceName ++ "_" ++ showNat k ++ extOf pf sourceName)%string).
    assert (Hincl : incl (map nm cands) (map fst es)).
    { intros x Hx. apply in_map_iff in Hx as (k & <- & Hk).
      apply (exists_child s destDir es); [exact Hd|].
      unfold nm. rewrite <- (numbered_validName pf destDir sourceName k Hv). now apply E. }
    assert (Hnd : NoDup (map nm cands)).
    { apply NoDup_map_NoDup_ForallPairs; [|apply seq_NoDup].
      intros a b _ _ Hab. apply (numbered_inj destDir sourceName); [exact Hv|].
      rewrite !numbered_validName by exact Hv. unfold nm in Hab. now rewrite Hab. }
    apply NoDup_incl_length in Hincl; [|exact Hnd].
    rewrite !length_map in Hincl. unfold cands in Hincl. rewrite length_seq in Hincl. lia.
  - assert (Hex : exists j, In j cands
                            /\ Fs.exists_ s (numbered pf destDir sourceName j) = false).
    { clear -E. induction cands as [|j r IH]; cbn in E; [discriminate|].
      apply andb_false_iff in E as [E | E].
      - exists j. split; [now left | exact E].
      - destruct (IH E) as (k & Hk & Hf). exists k. split; [now right | exact Hf]. }
    destruct Hex as (j & Hj & Hf). exists j. split; [|exact Hf].
    unfold cands in Hj. apply in_seq in Hj. lia.
Qed.

Lemma least_free (P : nat -> bool) :
  forall n, P n = false -> exists k, k <= n /\ P k = false /\ forall j, j < k -> P j = true.
Proof.
  induction n as [n IH] using lt_wf_ind. intros Hn.
  destruct (forallb P (seq 0 n)) eqn:E.
  - exists n. split; [lia|]. split; [exact Hn|].
    intros j Hj. rewrite forallb_forall in E. apply E. apply in_seq. lia.
  - assert (Hex : exists j, j < n /\ P j = false).
    { clear -E. induction n as [|n IHn]; [discriminate|].
      rewrite seq_S, forallb_app in E. cbn in E.
      apply andb_false_iff in E as [E | E].
      - destruct (IHn E) as (j & Hj & Hf). exists j. split; [lia | exact Hf].
      - exists n. split; [lia|]. now destruct (P n). }
    destruct Hex as (j & Hj & Hf).
    destruct (IH j Hj Hf) as (k & Hk & Hkf & Hlow).
    exists k. split; [lia|]. now split.
Qed.

Lemma uniqueDest_ends s destDir es sourceName fuel :
  validName pf sourceName = true ->
  Fs.lookup s destDir = Some (Dir es) ->
  S (List.length es) < fuel ->
  exists k,
    k <= S (List.length es)
    /\ uniqueDest pf fuel destDir sourceName (NodePath.join pf destDir sourceName) 1 s
       = (Ret (probeAt pf destDir sourceName k), s)
    /\ Fs.exists_ s (probeAt pf destDir sourceName k) = false
    /\ (forall j, j < k -> Fs.exists_ s (probeAt pf destDir sourceName j) = true).
Proof.
  intros Hv Hd Hfuel.
  destruct (free_numbered_name s destDir es sourceName Hv Hd) as (j & Hj & Hfree).
  destruct (least_free (fun i => Fs.exists_ s (probeAt pf destDir sourceName i)) j)
    as (k & Hk & Hkf & Hlow).
  { destruct j as [|j]; [lia | exact Hfree]. }
  exists k. split; [lia|]. split; [|split; [exact Hkf | exact Hlow]].
  change (NodePath.join pf destDir sourceName) with (probeAt pf destDir sourceName 0).
  apply (uniqueDest_reaches pf destDir sourceName s k 0 fuel).
  - intros i Hi. apply Hlow. lia.
  - exact Hkf.
  - lia.
Qed.

(** X1. The duplicate-name loop ends.  When the destination folder is
    a directory of m entries and the source name is a plain file name, the
    loop stops within m + 2 rounds: it returns the first candidate
    (the desired name, then the numbered names from 1 on) that does not
    exist, every candidate before it exists, and the file system is as it
    was. *)
Theorem duplicate_name_loop_ends :
  forall (s : fsState) (destDir : path) (es : list (string * node))
         (sourceName : string) (fuel : nat),
    validName pf sourceName = true ->
    Fs.lookup s destDir = Some (Dir es) ->
    S (List.length es) < fuel ->
    exists k,
      k <= S (List.length es)
      /\ uniqueDest pf fuel destDir sourceName (NodePath.join pf destDir sourceName) 1 s
         = (Ret (probeAt pf destDir sourceName k), s)
      /\ Fs.exists_ s (probeAt pf destDir sourceName k) = false
      /\ (forall j, j < k -> Fs.exists_ s (probeAt pf destDir sourceName j) = true).
Proof.
  intros s destDir es sourceName fuel. apply uniqueDest_ends.
Qed.

End Termination.

(* ===================================================================== *)
(** ** What moving and copying one file does to the tree                  *)
(* ===================================================================== *)

Module TreeFacts.
Import Fs.
Local Open Scope list_scope.

Lemma length_setEntry k v es : List.length (setEntry k v es) <= S (List.length es).
Proof.
  induction es as [|[k' v'] r IH]; cbn; [lia|].
  destruct (k' =? k)%string; cbn; lia.
Qed.

Lemma length_setEntry_present k v w es :
  assoc k es = Some w -> List.length (setEntry k v es) = List.length es.
Proof.
  induction es as [|[k' v'] r IH]; cbn; [discriminate|].
  destruct (k' =? k)%string; cbn; [reflexivity|]. intros H. now rewrite IH.
Qed.

Lemma length_delEntry k es : List.length (delEntry k es) <= List.length es.
Proof. unfold delEntry. apply filter_length_le. Qed.

(** [mkdir -p] removes nothing. *)
Lemma mkdirp_keeps n p n1 x m :
  mkdirp n p = Some n1 -> lookup n x = Some m -> exists m', lookup n1 x = Some m'.
Proof.
  intros Hm Hx. destruct (isPrefixOf x p) eqn:E.
  - apply PathFacts.isPrefixOf_spec in E as [t ->].
    destruct (PathFacts.mkdirp_lookup _ _ _ Hm) as [es Hes].
    rewrite FsFacts.lookup_app in Hes. destruct (lookup n1 x) as [m'|]; [eauto | discriminate].
  - exists m. rewrite <- Hx. destruct (isPrefixOf p x) eqn:E'.
    + apply PathFacts.isPrefixOf_spec in E' as [t ->].
      apply PathFacts.mkdirp_below; [|exact Hm].
      intros ->. rewrite app_nil_r in E.
      assert (isPrefixOf p p = true)
        by (apply PathFacts.isPrefixOf_spec; exists []; now rewrite app_nil_r).
      congruence.
    + apply (PathFacts.mkdirp_frame p x); [|exact Hm]. now apply PathFacts.not_prefix_diverge.
Qed.

(** A folder that [mkdir -p] had to create is empty. *)
Lemma mkdirp_fresh p :
  forall n n1, lookup n p = None -> mkdirp n p = Some n1 -> lookup n1 p = Some (Dir []).
Proof.
  induction p as [|c q IH]; intros n n1 Hno Hm; [discriminate|].
  destruct n as [| es |]; cbn [mkdirp] in Hm; try discriminate.
  cbn [lookup] in Hno.
  destruct (assoc c es) as [ch|] eqn:Ea.
  - destruct (mkdirp ch q) as [ch'|] eqn:E; [|discriminate]. injection Hm as <-.
    cbn [lookup]. rewrite FsFacts.assoc_setEntry_same. now apply (IH ch).
  - destruct (mkdirp (Dir []) q) as [ch'|] eqn:E; [|discriminate]. injection Hm as <-.
    cbn [lookup]. rewrite FsFacts.assoc_setEntry_same.
    destruct q as [|c' q'].
    + cbn in E. now injection E as <-.
    + apply (IH (Dir [])); [reflexivity | exact E].
Qed.

Lemma mkdirp_entries s p s1 :
  mkdirp s p = Some s1 -> lookup s1 p = Some (Dir (entriesAt s p)).
Proof.
  intros Hm. unfold entriesAt. destruct (lookup s p) as [[| es |]|] eqn:E.
  - pose proof (PathFacts.mkdirp_requires p s s1 Hm p) as H.
    unfold absentOrDir in H. rewrite E in H.
    assert (isPrefixOf p p = true)
      by (apply PathFacts.isPrefixOf_spec; exists []; now rewrite app_nil_r).
    now specialize (H H0).
  - rewrite (FsFacts.mkdirp_existing s p es E) in Hm. injection Hm as <-. exact E.
  - pose proof (PathFacts.mkdirp_requires p s s1 Hm p) as H.
    unfold absentOrDir in H. rewrite E in H.
    assert (isPrefixOf p p = true)
      by (apply PathFacts.isPrefixOf_spec; exists []; now rewrite app_nil_r).
    now specialize (H H0).
  - now apply (mkdirp_fresh p s s1).
Qed.

(** Removing an entry below a directory leaves the directory in place. *)
Lemma remove_below_dir d :
  forall n t es, t <> [] -> lookup n d = Some (Dir es) ->
    exists es', lookup (remove n (d ++ t)) d = Some (Dir es')
                /\ List.length es' <= List.length es.
Proof.
  induction d as [|a d IH]; intros n t es Ht Hd.
  - cbn in Hd. injection Hd as ->. cbn [app lookup].
    destruct t as [|c q]; [contradiction|]. cbn [remove].
    destruct q as [|c' q'].
    + eexists. split; [reflexivity | apply length_delEntry].
    + destruct (assoc c es) as [ch|] eqn:Ea.
      * eexists. split; [reflexivity|].
        now rewrite (length_setEntry_present c _ ch es Ea).
      * eexists. split; [reflexivity | lia].
  - destruct n as [| es0 |]; cbn [lookup] in Hd; try discriminate.
    destruct (assoc a es0) as [ch|] eqn:Ea; [|discriminate].
    cbn [app remove]. destruct (d ++ t) as [|c' q'] eqn:Edt.
    { destruct d; [now subst | discriminate]. }
    rewrite Ea. cbn [lookup]. rewrite FsFacts.assoc_setEntry_same.
    rewrite <- Edt. now apply IH.
Qed.

Lemma lookup_remove_below n p t :
  p <> [] -> lookup (remove n p) (p ++ t) = None.
Proof.
  intros Hp. rewrite FsFacts.lookup_app. now rewrite FsFacts.lookup_remove_same.
Qed.

(** Removing a regular file leaves every directory in place. *)
Lemma remove_file_keeps_dir n src d st c es :
  lookup n src = Some (File st c) ->
  lookup n d = Some (Dir es) ->
  exists es', lookup (remove n src) d = Some (Dir es')
              /\ List.length es' <= List.length es.
Proof.
  intros Hsrc Hd. destruct (isPrefixOf d src) eqn:E.
  - apply PathFacts.isPrefixOf_spec in E as [t ->].
    apply remove_below_dir; [|exact Hd].
    intros ->. rewrite app_nil_r in Hsrc. congruence.
  - exists es. split; [|lia]. rewrite <- Hd. apply FsFacts.lookup_remove_other.
    apply PathFacts.not_prefix_diverge; [|exact E].
    destruct (isPrefixOf src d) eqn:E'; [|reflexivity].
    apply PathFacts.isPrefixOf_spec in E' as [t ->].
    destruct t as [|y t]; [rewrite app_nil_r in Hd; congruence|].
    destruct (PathFacts.lookup_through _ _ _ _ Hd) as [es' Hes']; [discriminate|]. congruence.
Qed.

Lemma insert_child n d name x es :
  lookup n d = Some (Dir es) ->
  exists n', insert n (d ++ [name]) x = Some n'
             /\ lookup n' d = Some (Dir (setEntry name x es)).
Proof.
  revert n. induction d as [|a d IH]; intros n Hd.
  - cbn in Hd. injection Hd as ->. cbn. eauto.
  - destruct n as [| es0 |]; cbn [lookup] in Hd; try discriminate.
    destruct (assoc a es0) as [ch|] eqn:Ea; [|discriminate].
    destruct (IH ch Hd) as (ch' & Hins & Hl).
    cbn [app insert]. destruct (d ++ [name]) as [|c' q'] eqn:Edt.
    { destruct d; discriminate. }
    rewrite Ea, Hins. eexists. split; [reflexivity|].
    cbn [lookup]. now rewrite FsFacts.assoc_setEntry_same.
Qed.

(** What was absent and is not the new path stays absent. *)
Lemma insert_absent n p x n' q :
  insert n p x = Some n' ->
  lookup n q = None -> isPrefixOf p q = false -> lookup n' q = None.
Proof.
  intros Hins Hq Hpq. destruct (isPrefixOf q p) eqn:E.
  - apply PathFacts.isPrefixOf_spec in E as [t ->].
    destruct t as [|y t].
    + rewrite app_nil_r in Hpq. now rewrite isPrefixOf_refl in Hpq.
    + destruct (PathFacts.insert_requires _ _ _ _ Hins q (y :: t) eq_refl) as [es Hes];
        [discriminate | congruence].
  - rewrite (FsFacts.lookup_insert_other _ _ _ _ q Hins); [exact Hq|].
    now apply PathFacts.not_prefix_diverge.
Qed.

(** Removing an existing node brings nothing back. *)
Lemma remove_absent n src m x :
  lookup n src = Some m -> src <> [] -> lookup n x = None -> lookup (remove n src) x = None.
Proof.
  intros Hsrc Hne Hx. destruct (isPrefixOf src x) eqn:E1.
  - apply PathFacts.isPrefixOf_spec in E1 as [t ->]. now apply lookup_remove_below.
  - destruct (isPrefixOf x src) eqn:E2.
    + apply PathFacts.isPrefixOf_spec in E2 as [t ->].
      rewrite FsFacts.lookup_app, Hx in Hsrc. discriminate.
    + rewrite FsFacts.lookup_remove_other; [exact Hx|].
      now apply PathFacts.not_prefix_diverge.
Qed.

End TreeFacts.

Section OneFile.

Import Fs.
Variable pf : platform.
Variable homedir : path.
Variable cwd : path.
Variable copyStamp : Z -> Z.
Local Open Scope list_scope.

Lemma file_not_below s p x sx cx :
  lookup s p = None -> lookup s x = Some (File sx cx) -> isPrefixOf p x = false.
Proof.
  intros Hp Hx. destruct (isPrefixOf p x) eqn:E; [|reflexivity].
  apply PathFacts.isPrefixOf_spec in E as [t ->].
  rewrite FsFacts.lookup_app, Hp in Hx. discriminate.
Qed.

Lemma file_nonempty s src st c d es :
  lookup s src = Some (File st c) -> lookup s d = Some (Dir es) -> src <> [].
Proof.
  intros Hs Hd ->. cbn in Hs. injection Hs as ->. destruct d; cbn in Hd; discriminate.
Qed.

(** A new entry in a directory: the regular files that were there stay
    as they were, and nothing else appears. *)
Lemma insert_file_frame s d name es x s' :
  lookup s d = Some (Dir es) ->
  lookup s (d ++ [name]) = None ->
  insert s (d ++ [name]) x = Some s' ->
  (forall q sx cx, lookup s q = Some (File sx cx) -> lookup s' q = Some (File sx cx))
  /\ (forall q, lookup s q = None -> isPrefixOf (d ++ [name]) q = false -> lookup s' q = None).
Proof.
  intros Hd Hfree Hins. split.
  - intros q sx cx Hq. rewrite <- Hq. apply (FsFacts.lookup_insert_other _ _ _ _ q Hins).
    apply PathFacts.not_prefix_diverge; [now apply (file_not_below s _ q sx cx)|].
    destruct (isPrefixOf q (d ++ [name])) eqn:E; [|reflexivity].
    destruct (prefix_cases _ _ E) as [-> | (t & Ht & Heq)]; [congruence|].
    destruct (PathFacts.insert_requires _ _ _ _ Hins q t Heq Ht) as [es' Hes']. congruence.
  - intros q Hq Hpq. now apply (TreeFacts.insert_absent s (d ++ [name]) x s' q).
Qed.

(** Moving a regular file to a free name in a directory. *)
Lemma rename_file_step s src d name st c es :
  lookup s src = Some (File st c) ->
  lookup s d = Some (Dir es) ->
  lookup s (d ++ [name]) = None ->
  exists s' es',
    rename pf src (d ++ [name]) s = (Ret tt, s')
    /\ lookup s' (d ++ [name]) = Some (File st c)
    /\ lookup s' src = None
    /\ (forall x sx cx, lookup s x = Some (File sx cx) -> x <> src ->
          lookup s' x = Some (File sx cx))
    /\ (forall x, lookup s x = None -> x <> d ++ [name] -> lookup s' x = None)
    /\ lookup s' d = Some (Dir es')
    /\ List.length es' <= S (List.length es).
Proof.
  intros Hsrc Hd Hfree.
  pose proof (file_nonempty s src st c d es Hsrc Hd) as Hne.
  destruct (TreeFacts.remove_file_keeps_dir s src d st c es Hsrc Hd) as (es1 & Hd1 & Hlen1).
  destruct (TreeFacts.insert_child (remove s src) d name (File st c) es1 Hd1)
    as (s' & Hins & Hd').
  assert (Hfree1 : lookup (remove s src) (d ++ [name]) = None)
    by now apply (TreeFacts.remove_absent s src (File st c)).
  destruct (insert_file_frame (remove s src) d name es1 (File st c) s' Hd1 Hfree1 Hins)
    as [Hfiles Habsent].
  assert (Hgone : lookup (remove s src) src = None)
    by now apply FsFacts.lookup_remove_same.
  exists s', (setEntry name (File st c) es1).
  split; [unfold rename; now rewrite Hsrc, Hfree, Hins|].
  split; [now apply (FsFacts.lookup_insert_same _ _ _ _ Hins)|].
  split; [|split; [|split; [|split]]].
  - apply Habsent; [exact Hgone|]. now apply (file_not_below s _ src st c).
  - intros x sx cx Hx Hxs. apply Hfiles.
    rewrite FsFacts.lookup_remove_other; [exact Hx|].
    now apply (PathFacts.files_diverge s src x st c sx cx).
  - intros x Hx Hxf. destruct (isPrefixOf (d ++ [name]) x) eqn:E.
    + destruct (prefix_cases _ _ E) as [<- | (t & Ht & ->)]; [congruence|].
      rewrite FsFacts.lookup_app, (FsFacts.lookup_insert_same _ _ _ _ Hins).
      destruct t; [contradiction | reflexivity].
    + apply Habsent; [|exact E].
      now apply (TreeFacts.remove_absent s src (File st c)).
  - exact Hd'.
  - pose proof (TreeFacts.length_setEntry name (File st c) es1). lia.
Qed.

(** Copying a regular file to a free name in a directory. *)
Lemma copy_file_step s src d name st c es :
  lookup s src = Some (File st c) ->
  lookup s d = Some (Dir es) ->
  lookup s (d ++ [name]) = None ->
  exists s',
    copyFile pf copyStamp src (d ++ [name]) s = (Ret tt, s')
    /\ lookup s' (d ++ [name]) = Some (File (copiedStats copyStamp st) c)
    /\ (forall x sx cx, lookup s x = Some (File sx cx) -> lookup s' x = Some (File sx cx))
    /\ (forall x, lookup s x = None -> x <> d ++ [name] -> lookup s' x = None)
    /\ lookup s' d = Some (Dir (setEntry name (File (copiedStats copyStamp st) c) es)).
Proof.
  intros Hsrc Hd Hfree.
  destruct (TreeFacts.insert_child s d name (File (copiedStats copyStamp st) c) es Hd)
    as (s' & Hins & Hd').
  destruct (insert_file_frame s d name es (File (copiedStats copyStamp st) c) s' Hd Hfree Hins)
    as [Hfiles Habsent].
  exists s'. split; [unfold copyFile; now rewrite Hsrc, Hfree, Hins|].
  split; [now apply (FsFacts.lookup_insert_same _ _ _ _ Hins)|].
  split; [exact Hfiles|]. split; [|exact Hd'].
  intros x Hx Hxf. destruct (isPrefixOf (d ++ [name]) x) eqn:E.
  - destruct (prefix_cases _ _ E) as [<- | (t & Ht & ->)]; [congruence|].
    rewrite FsFacts.lookup_app, (FsFacts.lookup_insert_same _ _ _ _ Hins).
    destruct t; [contradiction | reflexivity].
  - now apply Habsent.
Qed.

End OneFile.

(* ===================================================================== *)
(** ** [copy_file] and [move_file]                                        *)
(* ===================================================================== *)

Section CopyAndMove.

Import Fs.
Variable pf : platform.
Variable homedir : path.
Variable cwd : path.
Variable copyStamp : Z -> Z.
Local Open Scope list_scope.

Lemma wf_basename s p m :
  wf pf s = true -> lookup s p = Some m -> p <> [] ->
  validName pf (NodePath.basename p) = true.
Proof.
  intros Hwf Hp Hne. destruct (exists_last Hne) as (q & c & ->).
  rewrite basename_snoc. rewrite FsFacts.lookup_app in Hp.
  destruct (lookup s q) as [[| es |]|] eqn:Eq; try discriminate.
  cbn in Hp. destruct (assoc c es) as [ch|] eqn:Ea; [|discriminate].
  pose proof (wf_lookup pf s q _ Hwf Eq) as Hw.
  apply assoc_In in Ea. now destruct (wf_child pf es c ch Hw Ea).
Qed.

Lemma creatable_mkdirp s p :
  creatable s p = true -> exists s1, mkdirp s p = Some s1.
Proof.
  unfold creatable. intros H. apply andb_prop in H as [Hway Hp].
  apply PathFacts.mkdirp_succeeds. intros r Hr.
  destruct (prefix_cases _ _ Hr) as [-> | (t & Ht & Heq)]; [exact Hp|].
  now apply (way_prefixes s p Hway r t).
Qed.

(** The steps every handler takes before it moves or copies one file:
    the destination folder is there afterwards, and the name the loop
    settles on is a free entry of it. *)
Lemma place_ready fuel s destDir src st c :
  wf pf s = true ->
  lookup s src = Some (File st c) ->
  creatable s destDir = true ->
  S (List.length (entriesAt s destDir)) < fuel ->
  exists s1 name,
    mkdir pf destDir s = (Ret tt, s1)
    /\ uniqueDest pf fuel destDir (NodePath.basename src)
         (NodePath.join pf destDir (NodePath.basename src)) 1 s1
       = (Ret (destDir ++ [name]), s1)
    /\ lookup s1 destDir = Some (Dir (entriesAt s destDir))
    /\ lookup s1 (destDir ++ [name]) = None
    /\ lookup s (destDir ++ [name]) = None
    /\ (forall x sx cx, lookup s x = Some (File sx cx) -> lookup s1 x = Some (File sx cx)).
Proof.
  intros Hwf Hsrc Hc Hfuel.
  destruct (creatable_mkdirp s destDir Hc) as [s1 Hmk].
  pose proof (TreeFacts.mkdirp_entries s destDir s1 Hmk) as Hd1.
  assert (Hne : src <> []).
  { intros ->. cbn in Hsrc. injection Hsrc as ->.
    unfold creatable in Hc. apply andb_prop in Hc as [_ Hc].
    destruct destDir; cbn in Hmk; discriminate. }
  pose proof (wf_basename s src _ Hwf Hsrc Hne) as Hv.
  destruct (uniqueDest_ends pf s1 destDir _ (NodePath.basename src) fuel Hv Hd1 Hfuel)
    as (k & _ & Hrun & Hfree & _).
  destruct (probeAt_child pf destDir (NodePath.basename src) k Hv) as [name Hname].
  rewrite Hname in Hrun, Hfree. apply FsFacts.exists_false in Hfree.
  exists s1, name. split; [unfold mkdir; now rewrite Hmk|].
  split; [exact Hrun|]. split; [exact Hd1|]. split; [exact Hfree|]. split.
  - destruct (lookup s (destDir ++ [name])) as [m|] eqn:E; [|reflexivity].
    destruct (TreeFacts.mkdirp_keeps s destDir s1 _ m Hmk E) as [m' Hm']. congruence.
  - intros x sx cx Hx. now apply (PathFacts.mkdirp_preserves_file s destDir s1).
Qed.

(** X2. [move_file] on a regular file.  When the source file is found
    and the destination folder exists or can be created, the call succeeds
    (the loop needs no more rounds than the folder has entries, plus two):
    the file lies under a name in the destination folder that was free
    before the call, its old path is gone, and every other regular file
    is as it was, so nothing is overwritten. *)
Theorem move_file_moves :
  forall (fuel : nat) (s : fsState) (a : args) (fn : string) (src : path)
         (st : stats) (c : content),
    wf pf s = true ->
    truthy (filename a) = Some fn ->
    locateSourceFile pf (sourceDirOf pf homedir cwd a) fn s = (Ret src, s) ->
    lookup s src = Some (File st c) ->
    creatable s (destDirOf pf homedir a) = true ->
    S (List.length (entriesAt s (destDirOf pf homedir a))) < fuel ->
    exists (name : string) (s' : fsState),
      handleMoveFile pf homedir cwd fuel a s
      = (Ret ("Successfully moved " ++ fn ++ " to "
              ++ showPath pf (destDirOf pf homedir a ++ [name])%list)%string, s')
      /\ lookup s (destDirOf pf homedir a ++ [name]) = None
      /\ lookup s' (destDirOf pf homedir a ++ [name]) = Some (File st c)
      /\ lookup s' src = None
      /\ (forall x sx cx, lookup s x = Some (File sx cx) -> x <> src ->
            lookup s' x = Some (File sx cx)).
Proof.
  intros fuel s a fn src st c Hwf Hfn Hloc Hsrc Hc Hfuel.
  destruct (place_ready fuel s _ src st c Hwf Hsrc Hc Hfuel)
    as (s1 & name & Hmk & Hrun & Hd1 & Hfree1 & Hfree & Hkeep).
  destruct (rename_file_step pf s1 src _ name st c _ (Hkeep _ _ _ Hsrc) Hd1 Hfree1)
    as (s' & es' & Hren & Hnew & Hgone & Hothers & _).
  exists name, s'. split; [|split; [exact Hfree | split; [exact Hnew | split; [exact Hgone|]]]].
  - unfold handleMoveFile. rewrite Hfn. unfold bind at 1. rewrite Hloc.
    unfold moveLocated. unfold bind at 1. rewrite Hmk.
    unfold bind at 1. rewrite Hrun. unfold bind at 1. rewrite Hren. reflexivity.
  - intros x sx cx Hx Hxs. apply Hothers; [|exact Hxs]. now apply Hkeep.
Qed.

(** X3. [copy_file] on a regular file.  When the source file is found
    and the destination folder exists or can be created, the call
    succeeds: the copy lies under a name in the destination folder that
    was free before the call, with the size and content of the source
    and the time stamp the system's copy gives it.  Every regular file, the
    source among them, is as it was. *)
Theorem copy_file_copies :
  forall (fuel : nat) (s : fsState) (a : args) (fn : string) (src : path)
         (st : stats) (c : content),
    wf pf s = true ->
    truthy (filename a) = Some fn ->
    locateSourceFile pf (sourceDirOf pf homedir cwd a) fn s = (Ret src, s) ->
    lookup s src = Some (File st c) ->
    creatable s (destDirOf pf homedir a) = true ->
    S (List.length (entriesAt s (destDirOf pf homedir a))) < fuel ->
    exists (name : string) (s' : fsState) (st' : stats),
      handleCopyFile pf homedir cwd copyStamp fuel a s
      = (Ret ("Successfully copied " ++ NodePath.basename src ++ " to "
              ++ showPath pf (destDirOf pf homedir a ++ [name])%list)%string, s')
      /\ lookup s (destDirOf pf homedir a ++ [name]) = None
      /\ lookup s' (destDirOf pf homedir a ++ [name]) = Some (File st' c)
      /\ size st' = size st
      /\ mtime st' = copyStamp (mtime st)
      /\ (forall x sx cx, lookup s x = Some (File sx cx) ->
            lookup s' x = Some (File sx cx)).
Proof.
  intros fuel s a fn src st c Hwf Hfn Hloc Hsrc Hc Hfuel.
  destruct (place_ready fuel s _ src st c Hwf Hsrc Hc Hfuel)
    as (s1 & name & Hmk & Hrun & Hd1 & Hfree1 & Hfree & Hkeep).
  destruct (copy_file_step pf copyStamp s1 src _ name st c _ (Hkeep _ _ _ Hsrc) Hd1 Hfree1)
    as (s' & Hcp & Hnew & Hfiles & _).
  exists name, s', (copiedStats copyStamp st).
  split; [|split; [exact Hfree | split; [exact Hnew|]]].
  2: { split; [reflexivity|]. split; [reflexivity|].
       intros x sx cx Hx. apply Hfiles. now apply Hkeep. }
  - unfold handleCopyFile. rewrite Hfn. unfold bind at 1. rewrite Hloc.
    unfold copyLocated. unfold bind at 1. rewrite Hmk.
    unfold bind at 1. rewrite Hrun. unfold bind at 1. rewrite Hcp. reflexivity.
Qed.

End CopyAndMove.

(* ===================================================================== *)
(** ** The recursive finder and [move_svg_files]                          *)
(* ===================================================================== *)

Section MoveMany.

Import Fs.
Variable pf : platform.
Variable homedir : path.
Variable cwd : path.
Local Open Scope list_scope.

Lemma walkEntry_paths extension dir k v p :
  validName pf k = true -> wf pf v = true ->
  In p (walkEntry pf extension dir (k, v)) -> exists rel, p = dir ++ k :: rel.
Proof.
  intros Hk Hv Hp. unfold walkEntry in Hp. cbn [fst snd] in Hp.
  rewrite join_validName in Hp by exact Hk.
  destruct v as [st c | es' |]; [| |contradiction].
  - destruct (endsWith (toLowerCase k) extension); [|contradiction].
    destruct Hp as [<- | []]. now exists [].
  - apply (walk_spec pf extension (Dir es') (dir ++ [k]) p Hv) in Hp
      as (rel & _ & -> & _).
    exists rel. now rewrite <- app_assoc.
Qed.

Lemma distinct_head x r : distinct (x :: r) = true -> ~ In x r /\ distinct r = true.
Proof.
  cbn. intros H. apply andb_prop in H as [Hx Hr]. split; [|exact Hr].
  intros Hin. apply negb_true_iff in Hx.
  assert (existsb (String.eqb x) r = true); [|congruence].
  apply existsb_exists. exists x. split; [exact Hin | apply String.eqb_refl].
Qed.

Lemma walk_NoDup extension :
  forall n dir, wf pf n = true -> NoDup (walk pf extension dir n).
Proof.
  induction n as [st c | es IH |] using node_nested_ind; intros dir Hwf;
    [constructor | | constructor].
  rewrite walk_Dir.
  destruct (wf_Dir pf es Hwf) as (Hnames & Hdist & Hkids). clear Hwf.
  induction es as [|[k v] r IHr]; [constructor|].
  cbn [flat_map]. cbn in Hnames, Hkids.
  apply andb_prop in Hnames as [Hk Hnames]. apply andb_prop in Hkids as [Hv Hkids].
  apply distinct_head in Hdist as [Hfresh Hdist].
  inversion IH as [|e l IHv IHrest]; subst.
  apply NoDup_app.
  - unfold walkEntry. cbn [fst snd]. destruct v as [st c | es' |]; [| |constructor].
    + destruct (endsWith (toLowerCase k) extension); [|constructor].
      constructor; [intros [] | constructor].
    + now apply IHv.
  - now apply IHr.
  - intros p Hp Hq. apply in_flat_map in Hq as ([k' v'] & Hin & Hq).
    destruct (walkEntry_paths extension dir k v p Hk Hv Hp) as [rel ->].
    assert (Hk' : validName pf k' = true).
    { rewrite forallb_forall in Hnames. apply Hnames. now apply (in_map fst) in Hin. }
    assert (Hv' : wf pf v' = true).
    { rewrite forallb_forall in Hkids. now apply (Hkids (k', v')). }
    destruct (walkEntry_paths extension dir k' v' _ Hk' Hv' Hq) as [rel' Heq].
    apply app_inv_head in Heq. injection Heq as -> _.
    apply Hfresh. now apply (in_map fst) in Hin.
Qed.

(** X4. What [findFiles] returns.  On a directory of a well-formed
    tree the call returns, without touching the file system, every
    regular file below the directory whose lower-cased name ends with the
    extension as it was passed, each of them once; directories and entries
    that are neither file nor directory are not in the result. *)
Theorem findFiles_result :
  forall (s : fsState) (dir : path) (es : list (string * node)) (extension : string),
    wf pf s = true ->
    lookup s dir = Some (Dir es) ->
    exists found,
      findFiles pf dir extension s = (Ret found, s)
      /\ NoDup found
      /\ (forall p, In p found <->
                    below dir p /\ isRegularFile s p
                    /\ endsWith (toLowerCase (NodePath.basename p)) extension = true).
Proof.
  intros s dir es extension Hwf Hdir.
  exists (walk pf extension dir (Dir es)).
  split; [now apply findFiles_dir|]. split.
  - apply walk_NoDup. now apply (wf_lookup pf s dir).
  - intros p. now apply found_spec.
Qed.

(** Two prefixes of one path: one of them is a prefix of the other. *)
Lemma prefixes_comparable (p q a b : path) :
  p ++ a = q ++ b -> isPrefixOf p q = true \/ isPrefixOf q p = true.
Proof.
  revert q. induction p as [|x p IH]; intros q H; [now left|].
  destruct q as [|y q]; [now right|].
  cbn in H. injection H as -> H. cbn. rewrite String.eqb_refl. cbn. now apply IH.
Qed.

Lemma Forall2_impl_left {A B} (R R' : A -> B -> Prop) (l : list A) (l' : list B) :
  Forall2 R l l' -> (forall x y, In x l -> R x y -> R' x y) -> Forall2 R' l l'.
Proof.
  induction 1 as [|x y l l' Hxy Hrest IH]; intros Himp; constructor.
  - apply Himp; [now left | exact Hxy].
  - apply IH. intros x' y' Hin. apply Himp. now right.
Qed.

Lemma Forall2_in_right {A B} (R : A -> B -> Prop) (l : list A) (l' : list B) (y : B) :
  Forall2 R l l' -> In y l' -> exists x, In x l /\ R x y.
Proof.
  induction 1 as [|x y' l l' Hxy Hrest IH]; intros Hin; [contradiction|].
  destruct Hin as [<- | Hin].
  - exists x. split; [now left | exact Hxy].
  - destruct (IH Hin) as (x' & Hx' & Hr). exists x'. split; [now right | exact Hr].
Qed.

(** The loop of [move_svg_files] and [unzip_and_move_svgs] over the found
    files, in a destination folder that exists. *)
Lemma moveEach_effect fuel destDir :
  forall (svgFiles : list path) (s : fsState) (movedFiles : list string)
         (es : list (string * node)),
    lookup s destDir = Some (Dir es) ->
    NoDup svgFiles ->
    Forall (fun p => isRegularFile s p /\ validName pf (NodePath.basename p) = true)
           svgFiles ->
    List.length es + List.length svgFiles < fuel ->
    exists finals s',
      moveEach pf fuel destDir svgFiles movedFiles s
      = (Ret (movedFiles ++ map NodePath.basename finals), s')
      /\ Forall2 (fun p f => (exists name, f = destDir ++ [name])
                             /\ lookup s' f = lookup s p) svgFiles finals
      /\ NoDup finals
      /\ (forall f sx cx, In f finals -> lookup s f = Some (File sx cx) -> In f svgFiles)
      /\ (forall x sx cx, lookup s x = Some (File sx cx) -> ~ In x svgFiles ->
            lookup s' x = Some (File sx cx))
      /\ (forall x, lookup s x = None -> ~ In x finals -> lookup s' x = None)
      /\ (forall p, In p svgFiles -> ~ In p finals -> lookup s' p = None).
Proof.
  induction svgFiles as [|src rest IH]; intros s movedFiles es Hd Hnd Hall Hfuel.
  - exists [], s. cbn. rewrite app_nil_r.
    repeat split; try constructor; try tauto; auto.
  - inversion Hnd as [|? ? Hfresh Hnd']; subst.
    inversion Hall as [|? ? [(st & c & Hsrc) Hv] Hall']; subst.
    cbn [List.length] in Hfuel.
    destruct (uniqueDest_ends pf s destDir es (NodePath.basename src) fuel Hv Hd)
      as (k & _ & Hrun & Hfree & _); [lia|].
    destruct (probeAt_child pf destDir (NodePath.basename src) k Hv) as [name Hname].
    rewrite Hname in Hrun, Hfree. apply FsFacts.exists_false in Hfree.
    destruct (rename_file_step pf s src destDir name st c es Hsrc Hd Hfree)
      as (s1 & es1 & Hren & Hnew & Hgone & Hothers & Habsent & Hd1 & Hlen1).
    assert (Hrest1 : Forall (fun p => isRegularFile s1 p
                                      /\ validName pf (NodePath.basename p) = true) rest).
    { rewrite Forall_forall in Hall' |- *. intros p Hp.
      destruct (Hall' p Hp) as [(sp & cp & Hpf) Hpv]. split; [|exact Hpv].
      exists sp, cp. apply Hothers; [exact Hpf|]. intros ->. contradiction. }
    destruct (IH s1 (movedFiles ++ [NodePath.basename (destDir ++ [name])]) es1
                Hd1 Hnd' Hrest1) as (finals & s' & Hmove & Hpairs & Hnd2 & Hover & Hkeep
                                      & Hstay & Hgone'); [lia|].
    assert (Hfinal_rest : ~ In (destDir ++ [name]) rest).
    { intros Hin. rewrite Forall_forall in Hall'.
      destruct (Hall' _ Hin) as [(sp & cp & Hpf) _]. congruence. }
    exists ((destDir ++ [name]) :: finals), s'.
    split; [|split; [|split; [|split; [|split; [|split]]]]].
    + cbn [moveEach]. unfold bind at 1. rewrite Hrun.
      unfold bind at 1. rewrite Hren. rewrite Hmove.
      cbn [map]. now rewrite <- app_assoc.
    + constructor.
      * split; [now exists name|].
        rewrite Hsrc. now apply (Hkeep _ st c).
      * apply (Forall2_impl_left _ _ _ _ Hpairs). intros p f Hp [Hch Hl].
        split; [exact Hch|]. rewrite Hl.
        rewrite Forall_forall in Hall'. destruct (Hall' p Hp) as [(sp & cp & Hpf) _].
        rewrite Hpf. apply Hothers; [exact Hpf|]. intros ->. contradiction.
    + constructor; [|exact Hnd2].
      intros Hin. apply Hfinal_rest. now apply (Hover _ st c Hin).
    + intros f sx cx [<- | Hin] Hf; [congruence|].
      destruct (list_eq_dec string_dec f src) as [-> | Hfs]; [now left|].
      right. apply (Hover f sx cx Hin). now apply Hothers.
    + intros x sx cx Hx Hnot. apply Hkeep.
      * apply Hothers; [exact Hx|]. intros ->. apply Hnot. now left.
      * intros Hin. apply Hnot. now right.
    + intros x Hx Hnot. apply Hstay.
      * apply Habsent; [exact Hx|]. intros ->. apply Hnot. now left.
      * intros Hin. apply Hnot. now right.
    + intros p [<- | Hp] Hnot.
      * apply Hstay; [exact Hgone|]. intros Hin. apply Hnot. now right.
      * apply Hgone'; [exact Hp|]. intros Hin. apply Hnot. now right.
Qed.

(** X5. [move_svg_files] moves every file it found.  Let the source
    directory hold at least one SVG file, let the destination folder lie
    beside it (neither inside the other), and let the destination exist
    (Documents) or be creatable (the subfolder).  Then the call succeeds
    and reports one name per found file; every found file is, with its
    content, under a name of its own in the destination folder; none of
    them is left at its old path; and every other regular file is as it
    was before the call.  (The handler computes its source directory with
    the expression that [latestSourceDirOf] names.) *)
Theorem move_svg_files_moves_all :
  forall (fuel : nat) (s : fsState) (a : args) (es : list (string * node))
         (first : path) (rest : list path),
    wf pf s = true ->
    lookup s (latestSourceDirOf pf homedir cwd a) = Some (Dir es) ->
    walk pf ".svg" (latestSourceDirOf pf homedir cwd a) (Dir es) = first :: rest ->
    isPrefixOf (latestSourceDirOf pf homedir cwd a) (svgDestDirOf pf homedir a) = false ->
    isPrefixOf (svgDestDirOf pf homedir a) (latestSourceDirOf pf homedir cwd a) = false ->
    creatable s (svgDestDirOf pf homedir a) = true ->
    (truthy (subfolder a) = None -> exists_ s (svgDestDirOf pf homedir a) = true) ->
    List.length (entriesAt s (svgDestDirOf pf homedir a)) + List.length (first :: rest) < fuel ->
    exists (finals : list path) (s' : fsState),
      handleMoveSvg pf homedir cwd fuel a s
      = (Ret ("Successfully moved " ++ showNat (List.length (first :: rest))
              ++ " SVG file(s) from " ++ showPath pf (latestSourceDirOf pf homedir cwd a)
              ++ " to " ++ showPath pf (svgDestDirOf pf homedir a) ++ nl ++ nl
              ++ "Moved files:" ++ nl ++ join nl (map NodePath.basename finals))%string, s')
      /\ Forall2 (fun p f => (exists name, f = svgDestDirOf pf homedir a ++ [name])
                             /\ lookup s' f = lookup s p) (first :: rest) finals
      /\ NoDup finals
      /\ (forall p, In p (first :: rest) -> isRegularFile s p /\ lookup s' p = None)
      /\ (forall x sx cx, lookup s x = Some (File sx cx) -> ~ In x (first :: rest) ->
            lookup s' x = Some (File sx cx)).
Proof.
  intros fuel s a es first rest Hwf Hdir Hwalk Hsd Hds Hc Hdocs Hfuel.
  set (sourceDir := latestSourceDirOf pf homedir cwd a) in *.
  set (destDir := svgDestDirOf pf homedir a) in *.
  destruct (creatable_mkdirp s destDir Hc) as [s1 Hmk].
  pose proof (TreeFacts.mkdirp_entries s destDir s1 Hmk) as Hd1.
  assert (Hstep : (match truthy (subfolder a) with
                   | Some sub =>
                       bind (mkdir pf (NodePath.join pf (DOCUMENTS_DIR pf homedir) sub))
                            (fun _ => ret (NodePath.join pf (DOCUMENTS_DIR pf homedir) sub))
                   | None => ret (DOCUMENTS_DIR pf homedir)
                   end) s = (Ret destDir, s1)).
  { unfold destDir, svgDestDirOf in *. destruct (truthy (subfolder a)) as [sub|].
    - unfold bind, mkdir. now rewrite Hmk.
    - apply FsFacts.exists_true in Hdocs as [m Hm]; [|reflexivity].
      unfold creatable in Hc. apply andb_prop in Hc as [_ Hc]. unfold absentOrDir in Hc.
      rewrite Hm in Hc. destruct m as [| ds |]; try discriminate.
      rewrite (FsFacts.mkdirp_existing s _ ds Hm) in Hmk. now injection Hmk as <-. }
  assert (Hdiv : diverge destDir sourceDir) by now apply PathFacts.not_prefix_diverge.
  assert (Hdir1 : lookup s1 sourceDir = Some (Dir es)).
  { rewrite <- Hdir. now apply (PathFacts.mkdirp_frame destDir sourceDir). }
  pose proof (walk_regular pf s sourceDir es ".svg" Hwf Hdir) as Hreg.
  rewrite Hwalk, Forall_forall in Hreg.
  assert (Hbelow : forall p, In p (first :: rest) -> below sourceDir p).
  { intros p Hp. rewrite <- Hwalk in Hp.
    now apply (found_spec pf s sourceDir es ".svg" p Hwf Hdir) in Hp as [Hb _]. }
  assert (Hall : Forall (fun p => isRegularFile s1 p
                                  /\ validName pf (NodePath.basename p) = true)
                        (first :: rest)).
  { apply Forall_forall. intros p Hp. destruct (Hreg p Hp) as (sp & cp & Hpf). split.
    - exists sp, cp. now apply (PathFacts.mkdirp_preserves_file s destDir s1).
    - apply (wf_basename pf s p _ Hwf Hpf). intros ->.
      destruct (Hbelow [] Hp) as (rel & Hne & Heq).
      symmetry in Heq. apply app_eq_nil in Heq as [_ ->]. contradiction. }
  assert (Hnd : NoDup (first :: rest)).
  { rewrite <- Hwalk. apply walk_NoDup. now apply (wf_lookup pf s sourceDir). }
  destruct (moveEach_effect fuel destDir (first :: rest) s1 [] _ Hd1 Hnd Hall Hfuel)
    as (finals & s' & Hmove & Hpairs & Hnd2 & _ & Hkeep & _ & Hgone).
  assert (Hapart : forall p, In p (first :: rest) -> ~ In p finals).
  { intros p Hp Hin. destruct (Hbelow p Hp) as (rel & _ & ->).
    destruct (Forall2_in_right _ _ _ _ Hpairs Hin) as (q & _ & [name Heq] & _).
    destruct (prefixes_comparable _ _ _ _ Heq); congruence. }
  exists finals, s'. split; [|split; [|split; [exact Hnd2 | split]]].
  - unfold handleMoveSvg. fold sourceDir.
    unfold bind at 1. rewrite access_present by (apply FsFacts.exists_true; eauto).
    unfold bind at 1. rewrite Hstep.
    unfold bind at 1. rewrite (findFiles_dir pf s1 sourceDir es) by exact Hdir1.
    rewrite Hwalk. unfold bind at 1. rewrite Hmove. unfold ret. cbv beta iota. cbn [app].
    rewrite length_map.
    assert (Hlen : @List.length path finals = @List.length path (first :: rest))
      by (symmetry; exact (Forall2_length Hpairs)).
    now rewrite Hlen.
  - apply (Forall2_impl_left _ _ _ _ Hpairs). intros p f Hp [Hch Hl].
    split; [exact Hch|]. rewrite Hl. destruct (Hreg p Hp) as (sp & cp & Hpf).
    rewrite Hpf. now apply (PathFacts.mkdirp_preserves_file s destDir s1).
  - intros p Hp. split; [now apply Hreg|]. apply Hgone; [exact Hp | now apply Hapart].
  - intros x sx cx Hx Hnot. apply Hkeep; [|exact Hnot].
    now apply (PathFacts.mkdirp_preserves_file s destDir s1).
Qed.

End MoveMany.

(* ===================================================================== *)
(** ** [unzip_file] and [unzip_and_move_svgs]: what stops them            *)
(* ===================================================================== *)

Section Unzip.

Import Fs.
Variable pf : platform.
Variable homedir : path.
Variable cwd : path.
Local Open Scope list_scope.

Lemma stripSuffix_none s suf : endsWith s suf = false -> NodePath.stripSuffix s suf = None.
Proof.
  induction s as [|c t IH]; cbn [endsWith NodePath.stripSuffix]; intros H;
    apply orb_false_iff in H as [H1 H2]; rewrite H1; [reflexivity|].
  now rewrite IH.
Qed.

Lemma basenameZip_other fn :
  validName pf fn = true -> endsWith fn ".zip" = false -> basenameZip pf fn = fn.
Proof.
  intros Hv He. unfold basenameZip.
  assert (Hne : (fn =? ".zip")%string = false).
  { destruct fn as [|c t]; [reflexivity|]. cbn [endsWith] in He.
    now apply orb_false_iff in He as [He _]. }
  rewrite Hne, (basenameStr_validName pf fn Hv), Hne.
  now rewrite (stripSuffix_none fn ".zip" He).
Qed.

Lemma mkdir_on_file s p st c :
  lookup s p = Some (File st c) ->
  mkdir pf p s = (Throw (sysError pf "EEXIST: file already exists" "mkdir" p), s).
Proof.
  intros Hp. unfold mkdir. destruct (mkdirp s p) as [s1|] eqn:E; [|reflexivity].
  pose proof (PathFacts.mkdirp_requires p s s1 E p (isPrefixOf_refl p)) as H.
  unfold absentOrDir in H. now rewrite Hp in H.
Qed.

(** X6. [unzip_file] and [unzip_and_move_svgs] on a file that is
    missing or is no archive.  The call fails before anything is created:
    the file system is as it was, and for a missing file the message is
    "Zip file not found" with the file name as it was passed. *)
Theorem unzip_without_archive :
  forall (fuel : nat) (s : fsState) (a : args) (fn : string),
    truthy (filename a) = Some fn ->
    (forall st entries,
        lookup s (NodePath.join pf (DOWNLOADS_DIR pf homedir) fn)
        <> Some (File st (Archive entries))) ->
    (exists message,
        handleUnzip pf homedir cwd fuel a s = (Throw message, s)
        /\ (exists_ s (NodePath.join pf (DOWNLOADS_DIR pf homedir) fn) = false ->
            message = ("Zip file not found: " ++ fn)%string))
    /\ (forall destinationFolder,
          truthy (destination_folder a) = Some destinationFolder ->
          exists message,
            handleUnzipAndMoveSvgs pf homedir fuel a s = (Throw message, s)
            /\ (exists_ s (NodePath.join pf (DOWNLOADS_DIR pf homedir) fn) = false ->
                message = ("Zip file not found: " ++ fn)%string)).
Proof.
  intros fuel s a fn Hfn Hno.
  set (zipPath := NodePath.join pf (DOWNLOADS_DIR pf homedir) fn) in *.
  assert (Hopen : exists_ s zipPath = true ->
                  exists message, openZip zipPath s = (Throw message, s)).
  { intros _. unfold openZip.
    destruct (lookup s zipPath) as [[st [b | entries] | es |]|] eqn:E; eauto.
    now destruct (Hno st entries). }
  split; [|intros destinationFolder Hdf].
  - unfold handleUnzip. rewrite Hfn. fold zipPath.
    destruct (exists_ s zipPath) eqn:Hex.
    + destruct (Hopen eq_refl) as [message Hm]. exists message. split; [|discriminate].
      unfold bind at 1. rewrite access_present by exact Hex.
      unfold bind at 1. now rewrite Hm.
    + eexists. split; [|reflexivity].
      unfold bind at 1, tryCatch, access, throw. now rewrite Hex.
  - unfold handleUnzipAndMoveSvgs. rewrite Hfn, Hdf. fold zipPath.
    destruct (exists_ s zipPath) eqn:Hex.
    + destruct (Hopen eq_refl) as [message Hm]. exists message. split; [|discriminate].
      unfold bind at 1. rewrite access_present by exact Hex.
      unfold bind at 1. now rewrite Hm.
    + eexists. split; [|reflexivity].
      unfold bind at 1, tryCatch, access, throw. now rewrite Hex.
Qed.

(** X7. An archive whose name does not end with ".zip" in lower
    case cannot be unzipped into Downloads.  [path.basename(filename, ".zip")]
    leaves such a name (PACK.ZIP, icons.jar) as it is, the folder to extract
    into is then the archive itself, and [mkdir] fails on it: both tools
    answer with that error, and the file system is as it was. *)
Theorem unzip_needs_lowercase_suffix :
  forall (fuel : nat) (s : fsState) (a : args) (fn : string) (st : stats)
         (entries : list zipEntry),
    truthy (filename a) = Some fn ->
    validName pf fn = true ->
    endsWith fn ".zip" = false ->
    lookup s (DOWNLOADS_DIR pf homedir ++ [fn]) = Some (File st (Archive entries)) ->
    (unzipDestDirOf pf homedir cwd a = DOWNLOADS_DIR pf homedir ->
     handleUnzip pf homedir cwd fuel a s
     = (Throw (sysError pf "EEXIST: file already exists" "mkdir"
                 (DOWNLOADS_DIR pf homedir ++ [fn])), s))
    /\ (forall destinationFolder,
          truthy (destination_folder a) = Some destinationFolder ->
          handleUnzipAndMoveSvgs pf homedir fuel a s
          = (Throw (sysError pf "EEXIST: file already exists" "mkdir"
                      (DOWNLOADS_DIR pf homedir ++ [fn])), s)).
Proof.
  intros fuel s a fn st entries Hfn Hv He Hzip.
  pose proof (join_validName pf (DOWNLOADS_DIR pf homedir) fn Hv) as Hjoin.
  pose proof (basenameZip_other fn Hv He) as Hbase.
  assert (Hex : exists_ s (DOWNLOADS_DIR pf homedir ++ [fn]) = true)
    by (apply FsFacts.exists_true; eauto).
  assert (Hopen : openZip (DOWNLOADS_DIR pf homedir ++ [fn]) s = (Ret entries, s))
    by (unfold openZip; now rewrite Hzip).
  split; [intros Hdest | intros destinationFolder Hdf].
  - unfold handleUnzip. rewrite Hfn, Hdest, Hbase, Hjoin.
    unfold bind at 1. rewrite access_present by exact Hex.
    unfold bind at 1. rewrite Hopen.
    unfold bind at 1. now rewrite (mkdir_on_file s _ st (Archive entries) Hzip).
  - unfold handleUnzipAndMoveSvgs. rewrite Hfn, Hdf, Hbase, Hjoin.
    unfold bind at 1. rewrite access_present by exact Hex.
    unfold bind at 1. rewrite Hopen.
    unfold bind at 1. now rewrite (mkdir_on_file s _ st (Archive entries) Hzip).
Qed.

End Unzip.

(* ===================================================================== *)
(** ** [create_directory]                                                 *)
(* ===================================================================== *)

Section CreateDirectory.

Import Fs.
Variable pf : platform.
Variable homedir : path.
Variable cwd : path.
Local Open Scope list_scope.

Lemma mkdirp_creatable s p s1 : mkdirp s p = Some s1 -> creatable s p = true.
Proof.
  intros Hm. unfold creatable. apply andb_true_intro. split.
  - apply forallb_forall. intros r Hr.
    apply PathFacts.properPrefixes_spec in Hr as (t & _ & ->).
    apply (PathFacts.mkdirp_requires _ s s1 Hm).
    apply PathFacts.isPrefixOf_spec. now exists t.
  - apply (PathFacts.mkdirp_requires p s s1 Hm). apply isPrefixOf_refl.
Qed.

Lemma handleCreateDirectory_run fuel s a nm :
  truthy (name a) = Some nm ->
  handleCreateDirectory pf homedir cwd fuel a s
  = if exists_ s (newDirOf pf homedir cwd a nm)
    then (Ret ("Directory already exists: "
               ++ showPath pf (newDirOf pf homedir cwd a nm))%string, s)
    else match mkdirp s (newDirOf pf homedir cwd a nm) with
         | Some s' => (Ret ("Successfully created directory: "
                            ++ showPath pf (newDirOf pf homedir cwd a nm))%string, s')
         | None => (Throw (sysError pf "EEXIST: file already exists" "mkdir"
                             (newDirOf pf homedir cwd a nm)), s)
         end.
Proof.
  intros Hn. unfold handleCreateDirectory. rewrite Hn. fold (newDirOf pf homedir cwd a nm).
  unfold bind at 1, tryCatch, access. unfold bind at 1.
  destruct (exists_ s (newDirOf pf homedir cwd a nm)); [reflexivity|].
  unfold ret at 1. cbv beta iota. unfold bind, mkdir.
  now destruct (mkdirp s (newDirOf pf homedir cwd a nm)).
Qed.

(** X8. [create_directory].  When something already lies at the
    requested path, be it a directory or a file, the call reports
    "Directory already exists" and changes nothing.  Otherwise, when only
    directories stand on the way, it creates the directory, empty, together
    with the missing folders above it; whatever existed still exists,
    every regular file is unchanged, and a second call with the same
    arguments reports that the directory exists and changes nothing.  When
    a file stands on the way the call fails and changes nothing. *)
Theorem create_directory_effect :
  forall (fuel : nat) (s : fsState) (a : args) (nm : string),
    truthy (name a) = Some nm ->
    (exists_ s (newDirOf pf homedir cwd a nm) = true ->
     handleCreateDirectory pf homedir cwd fuel a s
     = (Ret ("Directory already exists: "
             ++ showPath pf (newDirOf pf homedir cwd a nm))%string, s))
    /\ (exists_ s (newDirOf pf homedir cwd a nm) = false ->
        creatable s (newDirOf pf homedir cwd a nm) = true ->
        exists s',
          handleCreateDirectory pf homedir cwd fuel a s
          = (Ret ("Successfully created directory: "
                  ++ showPath pf (newDirOf pf homedir cwd a nm))%string, s')
          /\ lookup s' (newDirOf pf homedir cwd a nm) = Some (Dir [])
          /\ (forall x m, lookup s x = Some m -> exists m', lookup s' x = Some m')
          /\ (forall x sx cx, lookup s x = Some (File sx cx) ->
                lookup s' x = Some (File sx cx))
          /\ handleCreateDirectory pf homedir cwd fuel a s'
             = (Ret ("Directory already exists: "
                     ++ showPath pf (newDirOf pf homedir cwd a nm))%string, s'))
    /\ (exists_ s (newDirOf pf homedir cwd a nm) = false ->
        creatable s (newDirOf pf homedir cwd a nm) = false ->
        exists message,
          handleCreateDirectory pf homedir cwd fuel a s = (Throw message, s)).
Proof.
  intros fuel s a nm Hn.
  pose proof (handleCreateDirectory_run fuel s a nm Hn) as Hrun.
  split; [|split].
  - intros Hex. now rewrite Hex in Hrun.
  - intros Hex Hc. rewrite Hex in Hrun.
    destruct (creatable_mkdirp s _ Hc) as [s' Hmk]. rewrite Hmk in Hrun.
    apply FsFacts.exists_false in Hex.
    pose proof (TreeFacts.mkdirp_fresh _ s s' Hex Hmk) as Hnew.
    exists s'. split; [exact Hrun|]. split; [exact Hnew|]. split; [|split].
    + intros x m Hx. now apply (TreeFacts.mkdirp_keeps s _ s' x m Hmk).
    + intros x sx cx Hx. now apply (PathFacts.mkdirp_preserves_file s _ s' x sx cx Hmk).
    + rewrite (handleCreateDirectory_run fuel s' a nm Hn).
      assert (exists_ s' (newDirOf pf homedir cwd a nm) = true) as ->
        by (apply FsFacts.exists_true; eauto).
      reflexivity.
  - intros Hex Hc. rewrite Hex in Hrun.
    destruct (mkdirp s (newDirOf pf homedir cwd a nm)) as [s'|] eqn:Hmk.
    + apply mkdirp_creatable in Hmk. congruence.
    + eauto.
Qed.

End CreateDirectory.

(* ===================================================================== *)
(** ** The listing tools                                                  *)
(* ===================================================================== *)

Section ReadOnly.

Variable pf : platform.
Variable homedir : path.
Variable cwd : path.
Variable toLocaleString : Z -> string.
Variable dirStats : path -> stats.
Variable otherStats : path -> option stats.
Local Open Scope list_scope.

Lemma readOnly_ret {A} (x : A) : readOnly (ret x).
Proof. now intros s. Qed.

Lemma readOnly_throw {A} (msg : string) : readOnly (@throw A msg).
Proof. now intros s. Qed.

Lemma readOnly_bind {A B} (m : M A) (k : A -> M B) :
  readOnly m -> (forall x, readOnly (k x)) -> readOnly (bind m k).
Proof.
  intros Hm Hk s. unfold bind. specialize (Hm s).
  destruct (m s) as [[x | e |] s1]; cbn in Hm; subst s1; [apply Hk | reflexivity | reflexivity].
Qed.

Lemma readOnly_tryCatch {A} (m : M A) (h : string -> M A) :
  readOnly m -> (forall e, readOnly (h e)) -> readOnly (tryCatch m h).
Proof.
  intros Hm Hh s. unfold tryCatch. specialize (Hm s).
  destruct (m s) as [[x | e |] s1]; cbn in Hm; subst s1; [reflexivity | apply Hh | reflexivity].
Qed.

Lemma readOnly_access p : readOnly (access pf p).
Proof. intros s. unfold access. now destruct (Fs.exists_ s p). Qed.

Lemma readOnly_readdir p : readOnly (readdir pf p).
Proof. intros s. unfold readdir. now destruct (Fs.lookup s p) as [[| |]|]. Qed.

Lemma readOnly_stat p : readOnly (stat pf dirStats otherStats p).
Proof.
  intros s. unfold stat.
  destruct (Fs.lookup s p) as [[| |]|]; try reflexivity. now destruct (otherStats p).
Qed.

Lemma readOnly_findFiles dir extension : readOnly (findFiles pf dir extension).
Proof.
  unfold findFiles. apply readOnly_bind; [apply readOnly_readdir|].
  intros es. apply readOnly_ret.
Qed.

Lemma readOnly_statZips zipFiles : readOnly (statZips pf homedir dirStats otherStats zipFiles).
Proof.
  induction zipFiles as [|file rest IH]; cbn [statZips]; [apply readOnly_ret|].
  apply readOnly_bind; [apply readOnly_stat|]. intros st.
  apply readOnly_bind; [exact IH|]. intros more. apply readOnly_ret.
Qed.

Lemma readOnly_collectDetails searchDir entries :
  readOnly (collectDetails pf dirStats otherStats searchDir entries).
Proof.
  induction entries as [|[entryName child] rest IH]; cbn [collectDetails];
    [apply readOnly_ret|].
  apply readOnly_bind.
  - destruct child; try apply readOnly_ret.
    apply readOnly_tryCatch; [|intros e; apply readOnly_ret].
    apply readOnly_bind; [apply readOnly_stat|]. intros st'. apply readOnly_ret.
  - intros here. apply readOnly_bind; [exact IH|]. intros more. apply readOnly_ret.
Qed.

(** X9. The three listing tools, [list_zip_files], [list_svg_files]
    and [list_files], never change the file system: whatever the arguments
    and whatever they answer, also when they fail, the state after the
    call is the state before it. *)
Theorem listing_tools_read_only :
  forall (fuel : nat) (a : args) (s : fsState),
    snd (handleListZip pf homedir toLocaleString dirStats otherStats fuel a s) = s
    /\ snd (handleListSvg pf homedir cwd fuel a s) = s
    /\ snd (handleListFiles pf homedir cwd toLocaleString dirStats otherStats fuel a s) = s.
Proof.
  intros fuel a s. split; [|split].
  - revert s. change (readOnly (handleListZip pf homedir toLocaleString dirStats otherStats fuel a)).
    unfold handleListZip. apply readOnly_bind; [apply readOnly_readdir|].
    intros files. destruct (zipNames files) as [|z zs] eqn:E; [apply readOnly_ret|].
    apply readOnly_bind; [apply readOnly_statZips|]. intros d. apply readOnly_ret.
  - revert s. change (readOnly (handleListSvg pf homedir cwd fuel a)).
    unfold handleListSvg. apply readOnly_bind.
    + apply readOnly_tryCatch; [apply readOnly_access | intros e; apply readOnly_throw].
    + intros _. apply readOnly_bind; [apply readOnly_findFiles|].
      intros [|f fs]; apply readOnly_ret.
  - revert s. change (readOnly (handleListFiles pf homedir cwd toLocaleString dirStats otherStats fuel a)).
    unfold handleListFiles. apply readOnly_bind.
    + apply readOnly_tryCatch; [apply readOnly_access | intros e; apply readOnly_throw].
    + intros _. apply readOnly_bind; [apply readOnly_readdir|]. intros entries.
      apply readOnly_bind; [apply readOnly_collectDetails|]. intros collected.
      destruct (if (fileTypeOf a =? "")%string then collected else _); apply readOnly_ret.
Qed.

End ReadOnly.

Section ZipListing.

Variable pf : platform.
Variable homedir : path.
Variable toLocaleString : Z -> string.
Variable dirStats : path -> stats.
Variable otherStats : path -> option stats.
Local Open Scope list_scope.
Local Open Scope Z_scope.

Lemma insertZipByModified_perm x l : Permutation (x :: l) (insertZipByModified x l).
Proof.
  induction l as [|y r IH]; simpl; [reflexivity|].
  destruct (zdModified x <? zdModified y); [|reflexivity].
  rewrite perm_swap. now constructor.
Qed.

Lemma sortZipsByModified_perm l : Permutation l (sortZipsByModified l).
Proof.
  induction l as [|x r IH]; simpl; [reflexivity|].
  rewrite <- insertZipByModified_perm. now constructor.
Qed.

Lemma insertZipByModified_sorted x l :
  StronglySorted newerZipFirst l -> StronglySorted newerZipFirst (insertZipByModified x l).
Proof.
  induction 1 as [|y r Hs IH Hall]; simpl.
  - repeat constructor.
  - destruct (zdModified x <? zdModified y) eqn:E.
    + apply Z.ltb_lt in E. constructor; [exact IH|].
      rewrite <- insertZipByModified_perm.
      constructor; [unfold newerZipFirst; lia | exact Hall].
    + apply Z.ltb_ge in E. constructor; [now constructor|].
      constructor; [exact E|].
      eapply Forall_impl; [|exact Hall]. unfold newerZipFirst. intros z Hz. lia.
Qed.

Lemma sortZipsByModified_sorted l : StronglySorted newerZipFirst (sortZipsByModified l).
Proof.
  induction l as [|x r IH]; simpl; [constructor | now apply insertZipByModified_sorted].
Qed.

Lemma insertZipByModified_stable t x l :
  filter (fun f => zdModified f =? t) (insertZipByModified x l)
  = filter (fun f => zdModified f =? t) (x :: l).
Proof.
  induction l as [|y r IH]; [reflexivity|].
  cbn [insertZipByModified]. destruct (zdModified x <? zdModified y) eqn:E; [|reflexivity].
  apply Z.ltb_lt in E. cbn [filter] in *. rewrite IH.
  destruct (zdModified x =? t) eqn:Ex; destruct (zdModified y =? t) eqn:Ey; try reflexivity.
  apply Z.eqb_eq in Ex, Ey. lia.
Qed.

Lemma sortZipsByModified_stable t l :
  filter (fun f => zdModified f =? t) (sortZipsByModified l)
  = filter (fun f => zdModified f =? t) l.
Proof.
  induction l as [|x r IH]; [reflexivity|].
  cbn [sortZipsByModified]. rewrite insertZipByModified_stable. cbn [filter]. now rewrite IH.
Qed.

Lemma statZips_run zipFiles :
  forall s details,
    Forall2 (zipDetailAt pf homedir dirStats otherStats s) zipFiles details ->
    statZips pf homedir dirStats otherStats zipFiles s = (Ret details, s).
Proof.
  induction zipFiles as [|file rest IH]; intros s details H; inversion H as [|? d ? ds Hd Hds]; subst.
  - reflexivity.
  - destruct Hd as (st & Hst & ->).
    cbn [statZips]. unfold bind at 1. rewrite Hst.
    unfold bind at 1. now rewrite (IH s ds Hds).
Qed.

Lemma statZips_rejects zipFiles :
  forall s file message,
    In file zipFiles ->
    stat pf dirStats otherStats (NodePath.join pf (DOWNLOADS_DIR pf homedir) file) s
    = (Throw message, s) ->
    exists message', statZips pf homedir dirStats otherStats zipFiles s = (Throw message', s).
Proof.
  induction zipFiles as [|z rest IH]; intros s file message Hin Hnone; [contradiction|].
  cbn [statZips]. unfold bind at 1.
  pose proof (readOnly_stat pf dirStats otherStats
                (NodePath.join pf (DOWNLOADS_DIR pf homedir) z) s) as Hro.
  destruct (stat pf dirStats otherStats (NodePath.join pf (DOWNLOADS_DIR pf homedir) z) s)
    as [[st | e |] s0] eqn:Ez; cbn [snd] in Hro; subst s0.
  - destruct Hin as [-> | Hin]; [congruence|].
    destruct (IH s file message Hin Hnone) as [message' Hm].
    exists message'. unfold bind at 1. now rewrite Hm.
  - now exists e.
  - unfold stat in Ez.
    destruct (Fs.lookup s (NodePath.join pf (DOWNLOADS_DIR pf homedir) z)) as [[| |]|];
      try discriminate.
    destruct (otherStats _); discriminate.
Qed.

(** What [stat] answers for an entry of Downloads in a well-formed tree. *)
Lemma stat_entry s es file n :
  wf pf s = true ->
  Fs.lookup s (DOWNLOADS_DIR pf homedir) = Some (Dir es) ->
  In (file, n) es ->
  stat pf dirStats otherStats (NodePath.join pf (DOWNLOADS_DIR pf homedir) file) s
  = match n with
    | File st _ => (Ret st, s)
    | Dir _ => (Ret (dirStats (DOWNLOADS_DIR pf homedir ++ [file])%list), s)
    | Other =>
        match otherStats (DOWNLOADS_DIR pf homedir ++ [file])%list with
        | Some st => (Ret st, s)
        | None => (Throw (sysError pf "ENOENT: no such file or directory" "stat"
                            (DOWNLOADS_DIR pf homedir ++ [file])%list), s)
        end
    end.
Proof.
  intros Hwf Hdir Hin.
  pose proof (wf_lookup pf s _ _ Hwf Hdir) as Hw.
  destruct (wf_child pf es file n Hw Hin) as [Hv _].
  apply wf_Dir in Hw as (_ & Hd & _).
  rewrite (join_validName pf _ file Hv).
  unfold stat. rewrite FsFacts.lookup_app, Hdir. cbn [Fs.lookup].
  rewrite (In_assoc file n es Hd Hin). now destruct n.
Qed.

(** X10. [list_zip_files].  The names counted are the names in Downloads
    that end with ".zip" once lower-cased, whatever kind of entry carries
    them: [stat] answers for a folder as it does for a file, so a folder
    named like an archive is listed too.  With no such name the answer says
    so.  When [stat] answers for each of the names, every name has one entry
    with the size and time [stat] reports; the entries are sorted by time,
    newest first, entries of equal time keeping their order; the first
    [limit] of them are shown ([limit] is the given limit, 10 when none or 0
    is given); and the text reports the number of all names and the number
    shown.  When [stat] fails on one of the names, the whole call fails.
    The file system is unchanged in every case. *)
Theorem list_zip_files_listing :
  forall (fuel : nat) (s : fsState) (a : args) (es : list (string * node)),
    Fs.lookup s (DOWNLOADS_DIR pf homedir) = Some (Dir es) ->
    (forall file, In file (zipNames es) <->
                  (exists n, In (file, n) es) /\ endsWith (toLowerCase file) ".zip" = true)
    /\ (wf pf s = true ->
        forall file n,
          In (file, n) es ->
          match n with
          | File st _ =>
              stat pf dirStats otherStats
                (NodePath.join pf (DOWNLOADS_DIR pf homedir) file) s = (Ret st, s)
          | Dir _ =>
              stat pf dirStats otherStats
                (NodePath.join pf (DOWNLOADS_DIR pf homedir) file) s
              = (Ret (dirStats (DOWNLOADS_DIR pf homedir ++ [file])%list), s)
          | Other => True
          end)
    /\ (zipNames es = [] ->
        handleListZip pf homedir toLocaleString dirStats otherStats fuel a s
        = (Ret ("No zip files found in " ++ showPath pf (DOWNLOADS_DIR pf homedir))%string, s))
    /\ (forall details,
          zipNames es <> [] ->
          Forall2 (zipDetailAt pf homedir dirStats otherStats s) (zipNames es) details ->
          0 <= zipLimitOf a ->
          let sorted := sortZipsByModified details in
          let shown := firstn (Z.to_nat (zipLimitOf a)) sorted in
          handleListZip pf homedir toLocaleString dirStats otherStats fuel a s
          = (Ret ("Found " ++ showNat (List.length (zipNames es))
                  ++ " zip file(s) in Downloads (showing "
                  ++ showNat (List.length shown) ++ " most recent):" ++ nl ++ nl
                  ++ join nl (map (renderZip toLocaleString) shown))%string, s)
          /\ Permutation details sorted
          /\ StronglySorted newerZipFirst sorted
          /\ (forall t, filter (fun f => zdModified f =? t) sorted
                        = filter (fun f => zdModified f =? t) details)
          /\ List.length shown
             = Nat.min (Z.to_nat (zipLimitOf a)) (List.length (zipNames es)))
    /\ (forall file message,
          In file (zipNames es) ->
          stat pf dirStats otherStats (NodePath.join pf (DOWNLOADS_DIR pf homedir) file) s
          = (Throw message, s) ->
          exists message',
            handleListZip pf homedir toLocaleString dirStats otherStats fuel a s
            = (Throw message', s)).
Proof.
  intros fuel s a es Hdir. split; [|split; [|split; [|split]]].
  - intros file. unfold zipNames. rewrite filter_In, in_map_iff. split.
    + intros [([k n] & <- & Hin) He]. split; [now exists n | exact He].
    + intros [[n Hin] He]. split; [now exists (file, n) | exact He].
  - intros Hwf file n Hin. rewrite (stat_entry s es file n Hwf Hdir Hin). now destruct n.
  - intros Hnone. unfold handleListZip, bind, readdir. now rewrite Hdir, Hnone.
  - intros details Hne Hall Hlim sorted shown.
    pose proof (statZips_run _ _ _ Hall) as Hstat.
    split; [|split; [|split; [|split]]].
    + unfold handleListZip. unfold bind at 1, readdir. rewrite Hdir.
      destruct (zipNames es) as [|first rest] eqn:Hnames; [contradiction|].
      unfold bind. rewrite Hstat. unfold ret.
      rewrite slice0_nonneg by exact Hlim. reflexivity.
    + apply sortZipsByModified_perm.
    + apply sortZipsByModified_sorted.
    + intros t. apply sortZipsByModified_stable.
    + unfold shown. rewrite length_firstn. unfold sorted.
      rewrite <- (Permutation_length (sortZipsByModified_perm details)).
      now rewrite <- (Forall2_length Hall).
  - intros file message Hin Hnone.
    destruct (statZips_rejects _ s file message Hin Hnone) as [message' Hm].
    exists message'. unfold handleListZip. unfold bind at 1, readdir. rewrite Hdir.
    destruct (zipNames es) as [|first rest] eqn:Hnames; [contradiction|].
    unfold bind. now rewrite Hm.
Qed.

End ZipListing.

Section FileListings.

Variable pf : platform.
Variable homedir : path.
Variable cwd : path.
Variable toLocaleString : Z -> string.
Variable dirStats : path -> stats.
Variable otherStats : path -> option stats.
Local Open Scope list_scope.

Lemma relativeParts_below (dir rel : path) :
  NodePath.relativeParts dir (dir ++ rel) = rel.
Proof.
  induction dir as [|x dir IH]; cbn [app NodePath.relativeParts].
  - now destruct rel.
  - now rewrite String.eqb_refl.
Qed.

(** X11. [list_svg_files].  A directory that cannot be accessed is
    reported as "Directory not found"; one without SVG files below it as
    "No SVG files found".  Otherwise the answer counts the files found
    and lists each of them by its path relative to the searched directory:
    the components below that directory, joined with the separator of the
    platform. *)
Theorem list_svg_files_listing :
  forall (fuel : nat) (s : fsState) (a : args),
    (Fs.exists_ s (svgSearchDirOf pf homedir cwd a) = false ->
     handleListSvg pf homedir cwd fuel a s
     = (Throw ("Directory not found: "
               ++ showPath pf (svgSearchDirOf pf homedir cwd a))%string, s))
    /\ (forall es,
          wf pf s = true ->
          Fs.lookup s (svgSearchDirOf pf homedir cwd a) = Some (Dir es) ->
          exists rels : list path,
            walk pf ".svg" (svgSearchDirOf pf homedir cwd a) (Dir es)
            = map (app (svgSearchDirOf pf homedir cwd a)) rels
            /\ Forall (fun rel => rel <> []) rels
            /\ handleListSvg pf homedir cwd fuel a s
               = (Ret (match rels with
                       | [] => "No SVG files found in "
                               ++ showPath pf (svgSearchDirOf pf homedir cwd a)
                       | _ :: _ =>
                           "Found " ++ showNat (List.length rels) ++ " SVG file(s) in "
                           ++ showPath pf (svgSearchDirOf pf homedir cwd a) ++ ":"
                           ++ nl ++ nl
                           ++ join nl (map (String.concat (NodePath.sepString pf)) rels)
                       end)%string, s)).
Proof.
  intros fuel s a. set (dir := svgSearchDirOf pf homedir cwd a). split.
  - intros Hex. unfold handleListSvg. fold (svgSearchDirOf pf homedir cwd a). fold dir.
    unfold bind, tryCatch, access, throw. now rewrite Hex.
  - intros es Hwf Hdir.
    assert (Hrels : exists rels, walk pf ".svg" dir (Dir es) = map (app dir) rels
                                 /\ Forall (fun rel => rel <> []) rels).
    { assert (Hall : forall p, In p (walk pf ".svg" dir (Dir es)) -> below dir p).
      { intros p Hp. now apply (found_spec pf s dir es ".svg" p Hwf Hdir) in Hp as [Hb _]. }
      induction (walk pf ".svg" dir (Dir es)) as [|p ps IH].
      - exists []. split; [reflexivity | constructor].
      - destruct IH as (rels & -> & Hne); [intros q Hq; apply Hall; now right|].
        destruct (Hall p (or_introl eq_refl)) as (rel & Hrel & ->).
        exists (rel :: rels). split; [reflexivity | now constructor]. }
    destruct Hrels as (rels & Hwalk & Hne). exists rels.
    split; [exact Hwalk|]. split; [exact Hne|].
    unfold handleListSvg. fold (svgSearchDirOf pf homedir cwd a). fold dir.
    unfold bind at 1. rewrite access_present by (apply FsFacts.exists_true; eauto).
    unfold bind at 1. rewrite (findFiles_dir pf s dir es) by exact Hdir.
    rewrite Hwalk. destruct rels as [|rel rels]; [reflexivity|].
    assert (Hmap : map (NodePath.relative pf dir) (map (app dir) (rel :: rels))
                   = map (String.concat (NodePath.sepString pf)) (rel :: rels)).
    { rewrite map_map. apply map_ext. intros r. unfold NodePath.relative.
      now rewrite relativeParts_below. }
    assert (Hlen : @List.length path (map (app dir) (rel :: rels))
                   = @List.length path (rel :: rels))
      by apply length_map.
    cbn [map] in Hmap, Hlen |- *. cbv beta iota zeta. unfold ret.
    rewrite Hmap, Hlen. reflexivity.
Qed.

Lemma handleListFiles_run_any fuel s a es :
  Fs.lookup s (searchDirOf pf homedir cwd a) = Some (Dir es) ->
  handleListFiles pf homedir cwd toLocaleString dirStats otherStats fuel a s
  = (match matchingFiles a (detailsOf pf dirStats otherStats s (searchDirOf pf homedir cwd a) es) with
     | [] =>
         Ret ("No files"
              ++ (if (fileTypeOf a =? "")%string then ""
                  else " of type '." ++ fileTypeOf a ++ "'")
              ++ " found in " ++ showPath pf (searchDirOf pf homedir cwd a))%string
     | m :: r =>
         let shown := slice0 (sortByModified (m :: r)) (limitOf a) in
         Ret (listingText pf homedir cwd a (renderShown toLocaleString shown)
                (List.length shown) (List.length (m :: r)))
     end, s).
Proof.
  intros Hdir. unfold handleListFiles.
  unfold bind at 1.
  rewrite (access_present pf) by (apply FsFacts.exists_true; eauto).
  unfold bind at 1. unfold readdir at 1. rewrite Hdir.
  unfold bind at 1. rewrite collectDetails_run.
  unfold matchingFiles. cbv zeta.
  destruct (if (fileTypeOf a =? "")%string then _ else _) as [|m r]; [reflexivity|].
  unfold ret, listingText. do 3 f_equal.
  destruct (slice0 _ _) as [|x l]; [reflexivity|].
  cbn [mapIndexed renderShown]. rewrite mapIndexed_from_1. reflexivity.
Qed.

(** X12. How many entries [list_files] shows.  With at least one
    matching file the call succeeds for every limit, and the entries shown
    are the first of the sorted list: the given number of them, 20 when no
    limit or 0 is given, all when there are fewer; a negative limit -k is
    not rejected but leaves out the k oldest files, and shows none when
    there are no more than k.  The text reports the number shown and the
    number of matching files. *)
Theorem list_files_shown_count :
  forall (fuel : nat) (s : fsState) (a : args) (es : list (string * node)),
    Fs.lookup s (searchDirOf pf homedir cwd a) = Some (Dir es) ->
    matchingFiles a (detailsOf pf dirStats otherStats s (searchDirOf pf homedir cwd a) es) <> [] ->
    let matching := matchingFiles a (detailsOf pf dirStats otherStats s (searchDirOf pf homedir cwd a) es) in
    let total := Z.of_nat (List.length matching) in
    exists shown hidden,
      sortByModified matching = shown ++ hidden
      /\ handleListFiles pf homedir cwd toLocaleString dirStats otherStats fuel a s
         = (Ret (listingText pf homedir cwd a (renderShown toLocaleString shown)
                   (List.length shown) (List.length matching)), s)
      /\ Z.of_nat (List.length shown)
         = match limit a with
           | None => Z.min 20 total
           | Some l =>
               if (l =? 0)%Z then Z.min 20 total
               else if (l <? 0)%Z then Z.max (total + l) 0
               else Z.min l total
           end.
Proof.
  intros fuel s a es Hdir Hne matching total.
  pose proof (handleListFiles_run_any fuel s a es Hdir) as Hrun. fold matching in Hrun.
  destruct matching as [|m r] eqn:Em; [contradiction|]. cbv zeta in Hrun.
  assert (Hlen : List.length (sortByModified (m :: r)) = List.length (m :: r)).
  { symmetry. apply Permutation_length, sortByModified_perm. }
  set (sorted := sortByModified (m :: r)) in *.
  assert (Hslice : exists n, slice0 sorted (limitOf a) = firstn n sorted
                             /\ Z.of_nat (Nat.min n (List.length sorted))
                                = match limit a with
                                  | None => Z.min 20 total
                                  | Some l =>
                                      if (l =? 0)%Z then Z.min 20 total
                                      else if (l <? 0)%Z then Z.max (total + l) 0
                                      else Z.min l total
                                  end).
  { unfold slice0, limitOf, total. rewrite Hlen.
    destruct (limit a) as [l|].
    - destruct (l =? 0)%Z eqn:E0.
      + eexists. split; [reflexivity|]. cbn [Z.ltb]. lia.
      + apply Z.eqb_neq in E0. destruct (l <? 0)%Z eqn:E1.
        * eexists. split; [reflexivity|]. apply Z.ltb_lt in E1. lia.
        * eexists. split; [reflexivity|]. apply Z.ltb_ge in E1. lia.
    - eexists. split; [reflexivity|]. cbn. lia. }
  destruct Hslice as (n & Hs & Hcount).
  exists (firstn n sorted), (skipn n sorted).
  split; [symmetry; apply firstn_skipn|]. split.
  - rewrite Hrun, Hs. reflexivity.
  - rewrite length_firstn. exact Hcount.
Qed.

Lemma lower_ascii_dot c : lower_ascii c = "."%char -> c = "."%char.
Proof. destruct c as [[] [] [] [] [] [] [] []]; cbn; intros H; try discriminate; reflexivity. Qed.

Lemma fileTypeOf_withFileType a t :
  fileTypeOf (withFileType a t) = stripLeadingDot (toLowerCase t).
Proof.
  unfold fileTypeOf, withFileType, orDefault. cbn [file_type].
  destruct (t =? "")%string eqn:E; [|reflexivity].
  apply String.eqb_eq in E. now subst t.
Qed.

Lemma handleListFiles_by_type fuel a a' :
  limit a = limit a' -> directory a = directory a' -> fileTypeOf a = fileTypeOf a' ->
  forall s, handleListFiles pf homedir cwd toLocaleString dirStats otherStats fuel a s
            = handleListFiles pf homedir cwd toLocaleString dirStats otherStats fuel a' s.
Proof.
  intros Hl Hd Ht s. unfold handleListFiles, limitOf, searchDirOf. now rewrite Hl, Hd, Ht.
Qed.

(** X13. The type filter of [list_files] is insensitive to case
    and to a leading dot: "SVG", "svg" and ".svg" select the same files
    and give the same answer. *)
Theorem list_files_type_normalised :
  forall (fuel : nat) (a : args) (t : string) (s : fsState),
    handleListFiles pf homedir cwd toLocaleString dirStats otherStats fuel (withFileType a t) s
    = handleListFiles pf homedir cwd toLocaleString dirStats otherStats fuel (withFileType a (toLowerCase t)) s
    /\ (startsWith t "." = false ->
        handleListFiles pf homedir cwd toLocaleString dirStats otherStats fuel (withFileType a ("." ++ t)) s
        = handleListFiles pf homedir cwd toLocaleString dirStats otherStats fuel (withFileType a t) s).
Proof.
  intros fuel a t s. split.
  - apply handleListFiles_by_type; try reflexivity.
    rewrite !fileTypeOf_withFileType. now rewrite toLowerCase_idem.
  - intros Hdot. apply handleListFiles_by_type; try reflexivity.
    rewrite !fileTypeOf_withFileType. cbn [append toLowerCase].
    change (lower_ascii ".") with "."%char. cbn [stripLeadingDot].
    destruct t as [|c t']; [reflexivity|].
    cbn [toLowerCase stripLeadingDot].
    destruct (Ascii.eqb (lower_ascii c) ".") eqn:E.
    + apply Ascii.eqb_eq in E. apply lower_ascii_dot in E. subst c.
      destruct t'; vm_compute in Hdot; discriminate.
    + destruct (lower_ascii c) as [[] [] [] [] [] [] [] []]; try reflexivity.
      vm_compute in E. discriminate.
Qed.

End FileListings.

(* ===================================================================== *)
(** ** The request handler, by tool name                                  *)
(* ===================================================================== *)

Section Requests.

Variable pf : platform.
Variable homedir : path.
Variable cwd : path.
Variable toLocaleString : Z -> string.
Variable copyStamp : Z -> Z.
Variable dirStats : path -> stats.
Variable otherStats : path -> option stats.
Local Open Scope list_scope.

Lemma handleRequest_throw fuel toolName a s message :
  handlerOf pf homedir cwd toLocaleString copyStamp dirStats otherStats fuel toolName a s = (Throw message, s) ->
  handleRequest pf homedir cwd toLocaleString copyStamp dirStats otherStats fuel toolName a s = (failed message, s).
Proof. intros H. unfold handleRequest. now rewrite H. Qed.

(** X14. Tool names the server cannot serve.  The three advertised
    tools [list_recent_downloads], [unzip_latest] and
    [unzip_latest_and_move_svgs] dispatch to methods the class does not
    have: every call of them is answered with an error payload that says
    so, and so is every name outside the list of tools, as "Unknown tool";
    none of these calls touches the file system.  For the other tools the
    dispatch by name is the dispatch of the handler itself. *)
Theorem unserved_tool_names :
  forall (fuel : nat) (a : args) (s : fsState),
    handleRequest pf homedir cwd toLocaleString copyStamp dirStats otherStats fuel "list_recent_downloads" a s
    = (failed "this.handleListRecentDownloads is not a function", s)
    /\ handleRequest pf homedir cwd toLocaleString copyStamp dirStats otherStats fuel "unzip_latest" a s
       = (failed "this.handleUnzipLatest is not a function", s)
    /\ handleRequest pf homedir cwd toLocaleString copyStamp dirStats otherStats fuel "unzip_latest_and_move_svgs" a s
       = (failed "this.handleUnzipLatestAndMoveSvgs is not a function", s)
    /\ (forall name : string,
          ~ In name ["unzip_file"; "move_svg_files"; "list_zip_files"; "list_svg_files";
                     "unzip_and_move_svgs"; "list_recent_downloads"; "unzip_latest";
                     "unzip_latest_and_move_svgs"; "create_directory"; "move_latest_svg";
                     "copy_file"; "move_file"; "list_files"]%string ->
          handleRequest pf homedir cwd toLocaleString copyStamp dirStats otherStats fuel name a s
          = (failed ("Unknown tool: " ++ name), s))
    /\ (forall t : tool,
          handleRequest pf homedir cwd toLocaleString copyStamp dirStats otherStats fuel (toolName t) a s
          = callTool pf homedir cwd toLocaleString copyStamp dirStats otherStats fuel t a s).
Proof.
  intros fuel a s. split; [reflexivity|]. split; [reflexivity|]. split; [reflexivity|]. split.
  - intros name Hnot. apply handleRequest_throw. unfold handlerOf.
    repeat match goal with
           | |- context [(name =? ?t)%string] =>
               destruct (String.eqb_spec name t) as [-> | _];
               [exfalso; apply Hnot; cbn; tauto|]
           end.
    reflexivity.
  - intros []; reflexivity.
Qed.

End Requests.

(* ===================================================================== *)
(** ** Moving SVG files: nothing found, and the latest one                *)
(* ===================================================================== *)

Section SvgMoves.

Import Fs.
Variable pf : platform.
Variable homedir : path.
Variable cwd : path.
Variable dirStats : path -> stats.
Variable otherStats : path -> option stats.
Local Open Scope list_scope.

(** C2. Latest selection.  Over a non-empty sequence of discovered SVG
    files, with a destination folder that exists or can be created,
    [move_latest_svg] succeeds and moves exactly one file of the sequence:
    the file whose modification time, as [stat] reports it, is the
    greatest, and among the files that share the greatest time the one that
    comes first in the order of enumeration, since every file in front of
    it is strictly older.  No other split of the sequence has these two
    properties, so the choice is a function of the sequence and its time
    stamps and is the same on every call.  After the call that file lies in
    the destination folder under a name that was free, it is gone from its
    old path, and every other regular file, so every other discovered file,
    is as it was. *)
Theorem C2_latest_selection :
  forall (fuel : nat) (s : fsState) (a : args) (destinationFolder : string)
         (es : list (string * node)) (first : path) (rest : list path),
    wf pf s = true ->
    truthy (destination_folder a) = Some destinationFolder ->
    lookup s (latestSourceDirOf pf homedir cwd a) = Some (Dir es) ->
    walk pf ".svg" (latestSourceDirOf pf homedir cwd a) (Dir es) = first :: rest ->
    creatable s (NodePath.join pf (DOCUMENTS_DIR pf homedir) destinationFolder) = true ->
    S (List.length (entriesAt s (NodePath.join pf (DOCUMENTS_DIR pf homedir)
                                   destinationFolder))) < fuel ->
    exists (pre : list path) (latest : path) (post : list path) (name : string)
           (s' : fsState),
      let final := NodePath.join pf (DOCUMENTS_DIR pf homedir) destinationFolder ++ [name] in
      first :: rest = pre ++ latest :: post
      /\ (forall x, In x (first :: rest) ->
            exists st, stat pf dirStats otherStats x s = (Ret st, s)
                       /\ mtime st = mtimeAt s x)
      /\ (forall x, In x pre -> (mtimeAt s x < mtimeAt s latest)%Z)
      /\ (forall x, In x post -> (mtimeAt s x <= mtimeAt s latest)%Z)
      /\ (forall pre' latest' post',
            first :: rest = pre' ++ latest' :: post' ->
            (forall x, In x pre' -> (mtimeAt s x < mtimeAt s latest')%Z) ->
            (forall x, In x post' -> (mtimeAt s x <= mtimeAt s latest')%Z) ->
            latest' = latest)
      /\ handleMoveLatestSvg pf homedir cwd dirStats otherStats fuel a s
         = (Ret ("Successfully moved the latest SVG file to " ++ showPath pf final
                 ++ nl ++ nl ++ "File: " ++ NodePath.basename latest)%string, s')
      /\ isRegularFile s latest
      /\ lookup s final = None
      /\ lookup s' final = lookup s latest
      /\ lookup s' latest = None
      /\ (forall x sx cx, lookup s x = Some (File sx cx) -> x <> latest ->
            lookup s' x = Some (File sx cx)).
Proof.
  intros fuel s a destinationFolder es first rest Hwf Hdf Hdir Hwalk Hc Hfuel.
  set (sourceDir := latestSourceDirOf pf homedir cwd a) in *.
  set (destDir := NodePath.join pf (DOCUMENTS_DIR pf homedir) destinationFolder) in *.
  set (mk := fun p => {| filePath := p; fsMtime := mtimeAt s p |}).
  destruct (reduceLatest_first_max (map mk (first :: rest))) as
    (pre & latest & post & Hred & Hsplit & Hpre & Hpost); [discriminate|].
  apply map_eq_app in Hsplit as (pre0 & tl0 & Hs & Hp0 & Htl).
  apply map_eq_cons in Htl as (l0 & post0 & -> & Hl0 & Hpost0).
  subst pre latest post.
  pose proof (walk_regular pf s sourceDir es ".svg" Hwf Hdir) as Hreg.
  rewrite Hwalk, Forall_forall in Hreg.
  assert (Hin : In l0 (first :: rest)) by (rewrite Hs; apply in_or_app; right; now left).
  destruct (Hreg l0 Hin) as (st & c & Hfile).
  assert (Hlt : forall x, In x pre0 -> (mtimeAt s x < mtimeAt s l0)%Z).
  { intros x Hx. apply (Hpre (mk x)). now apply in_map. }
  assert (Hle : forall x, In x post0 -> (mtimeAt s x <= mtimeAt s l0)%Z).
  { intros x Hx. apply (Hpost (mk x)). now apply in_map. }
  destruct (place_ready pf fuel s destDir l0 st c Hwf Hfile Hc Hfuel)
    as (s1 & name & Hmk & Hrun & Hd1 & Hfree1 & Hfree & Hkeep).
  destruct (rename_file_step pf s1 l0 destDir name st c _ (Hkeep _ _ _ Hfile) Hd1 Hfree1)
    as (s' & es' & Hren & Hnew & Hgone & Hothers & _).
  exists pre0, l0, post0, name, s'. cbv zeta.
  split; [exact Hs|]. split; [|split; [exact Hlt | split; [exact Hle|]]].
  { intros x Hx. destruct (Hreg x Hx) as (sx & cx & Hxf).
    exists sx. unfold stat, mtimeAt. now rewrite Hxf. }
  split; [|split; [|split; [now exists st, c | split; [exact Hfree|]]]].
  - intros pre' latest' post' Heq H1 H2. rewrite Hs in Heq.
    destruct (first_max_unique (mtimeAt s) pre0 l0 post0 pre' latest' post' Heq)
      as (_ & -> & _); auto.
  - unfold handleMoveLatestSvg. rewrite Hdf. fold sourceDir.
    unfold bind at 1. rewrite access_present by (apply FsFacts.exists_true; eauto).
    unfold bind at 1. rewrite (findFiles_dir pf s sourceDir es) by exact Hdir.
    rewrite Hwalk. unfold bind at 1.
    rewrite statEach_regular by (apply Forall_forall; exact Hreg).
    fold mk. rewrite Hred. cbn [filePath mk].
    unfold moveSvgInto. fold destDir. unfold bind at 1. rewrite Hmk.
    unfold bind at 1. rewrite Hrun. unfold bind at 1. rewrite Hren. reflexivity.
  - split; [now rewrite Hnew, Hfile|]. split; [exact Hgone|].
    intros x sx cx Hx Hxl. apply Hothers; [|exact Hxl]. now apply Hkeep.
Qed.

(** X15. Nothing to move.  When the source directory holds no SVG
    file, [move_latest_svg] and [move_svg_files] both answer "No SVG files
    found".  [move_latest_svg] leaves the file system as it was and does
    not create the destination folder.  [move_svg_files] has by then
    created the subfolder it was given: the folder exists after the call,
    with the entries it had, and every regular file is as it was. *)
Theorem nothing_to_move :
  forall (fuel : nat) (s : fsState) (a : args) (es : list (string * node)),
    lookup s (latestSourceDirOf pf homedir cwd a) = Some (Dir es) ->
    walk pf ".svg" (latestSourceDirOf pf homedir cwd a) (Dir es) = [] ->
    (forall destinationFolder,
        truthy (destination_folder a) = Some destinationFolder ->
        handleMoveLatestSvg pf homedir cwd dirStats otherStats fuel a s
        = (Ret ("No SVG files found in "
                ++ showPath pf (latestSourceDirOf pf homedir cwd a))%string, s))
    /\ (truthy (subfolder a) = None ->
        handleMoveSvg pf homedir cwd fuel a s
        = (Ret ("No SVG files found in "
                ++ showPath pf (latestSourceDirOf pf homedir cwd a))%string, s))
    /\ (forall sub,
          truthy (subfolder a) = Some sub ->
          creatable s (svgDestDirOf pf homedir a) = true ->
          isPrefixOf (latestSourceDirOf pf homedir cwd a) (svgDestDirOf pf homedir a) = false ->
          isPrefixOf (svgDestDirOf pf homedir a) (latestSourceDirOf pf homedir cwd a) = false ->
          exists s',
            handleMoveSvg pf homedir cwd fuel a s
            = (Ret ("No SVG files found in "
                    ++ showPath pf (latestSourceDirOf pf homedir cwd a))%string, s')
            /\ lookup s' (svgDestDirOf pf homedir a)
               = Some (Dir (entriesAt s (svgDestDirOf pf homedir a)))
            /\ (forall x sx cx, lookup s x = Some (File sx cx) ->
                  lookup s' x = Some (File sx cx))).
Proof.
  intros fuel s a es Hdir Hwalk.
  set (sourceDir := latestSourceDirOf pf homedir cwd a) in *.
  assert (Hacc : forall h, tryCatch (access pf sourceDir) h s = (Ret tt, s)).
  { intros h. apply access_present. apply FsFacts.exists_true. eauto. }
  split; [|split].
  - intros destinationFolder Hdf. unfold handleMoveLatestSvg. rewrite Hdf. fold sourceDir.
    unfold bind at 1. rewrite Hacc.
    unfold bind at 1. rewrite (findFiles_dir pf s sourceDir es) by exact Hdir.
    now rewrite Hwalk.
  - intros Hsub. unfold handleMoveSvg. fold (latestSourceDirOf pf homedir cwd a).
    fold sourceDir. rewrite Hsub.
    unfold bind at 1. rewrite Hacc. unfold bind at 1, ret at 1.
    unfold bind at 1. rewrite (findFiles_dir pf s sourceDir es) by exact Hdir.
    now rewrite Hwalk.
  - intros sub Hsub Hc Hsd Hds.
    destruct (creatable_mkdirp s _ Hc) as [s1 Hmk].
    pose proof (TreeFacts.mkdirp_entries s _ s1 Hmk) as Hd1.
    assert (Hdir1 : lookup s1 sourceDir = Some (Dir es)).
    { rewrite <- Hdir. apply (PathFacts.mkdirp_frame (svgDestDirOf pf homedir a) sourceDir);
        [|exact Hmk]. now apply PathFacts.not_prefix_diverge. }
    exists s1. split; [|split; [exact Hd1|]].
    + unfold handleMoveSvg. fold (latestSourceDirOf pf homedir cwd a). fold sourceDir.
      unfold svgDestDirOf in Hmk. rewrite Hsub in Hmk |- *.
      unfold bind at 1. rewrite Hacc.
      unfold bind at 1. unfold bind at 1, mkdir. rewrite Hmk. unfold ret at 1.
      unfold bind at 1. rewrite (findFiles_dir pf s1 sourceDir es) by exact Hdir1.
      now rewrite Hwalk.
    + intros x sx cx Hx. now apply (PathFacts.mkdirp_preserves_file s _ s1 x sx cx Hmk).
Qed.

(** X16. [move_latest_svg] succeeds.  When the source directory
    holds SVG files and the destination folder in Documents exists or can
    be created, the call succeeds: it moves a file that no found file is
    newer than, to a name in the destination folder that was free; the old
    path is gone and every other regular file is as it was. *)
Theorem move_latest_svg_succeeds :
  forall (fuel : nat) (s : fsState) (a : args) (destinationFolder : string)
         (es : list (string * node)) (first : path) (rest : list path),
    wf pf s = true ->
    truthy (destination_folder a) = Some destinationFolder ->
    lookup s (latestSourceDirOf pf homedir cwd a) = Some (Dir es) ->
    walk pf ".svg" (latestSourceDirOf pf homedir cwd a) (Dir es) = first :: rest ->
    creatable s (NodePath.join pf (DOCUMENTS_DIR pf homedir) destinationFolder) = true ->
    S (List.length (entriesAt s (NodePath.join pf (DOCUMENTS_DIR pf homedir)
                                   destinationFolder))) < fuel ->
    exists (latest : path) (name : string) (s' : fsState),
      let final := NodePath.join pf (DOCUMENTS_DIR pf homedir) destinationFolder ++ [name] in
      In latest (first :: rest)
      /\ (forall x, In x (first :: rest) -> (mtimeAt s x <= mtimeAt s latest)%Z)
      /\ handleMoveLatestSvg pf homedir cwd dirStats otherStats fuel a s
         = (Ret ("Successfully moved the latest SVG file to " ++ showPath pf final
                 ++ nl ++ nl ++ "File: " ++ NodePath.basename latest)%string, s')
      /\ lookup s final = None
      /\ lookup s' final = lookup s latest
      /\ isRegularFile s latest
      /\ lookup s' latest = None
      /\ (forall x sx cx, lookup s x = Some (File sx cx) -> x <> latest ->
            lookup s' x = Some (File sx cx)).
Proof.
  intros fuel s a destinationFolder es first rest Hwf Hdf Hdir Hwalk Hc Hfuel.
  set (sourceDir := latestSourceDirOf pf homedir cwd a) in *.
  set (destDir := NodePath.join pf (DOCUMENTS_DIR pf homedir) destinationFolder) in *.
  set (mk := fun p => {| filePath := p; fsMtime := mtimeAt s p |}).
  destruct (reduceLatest_first_max (map mk (first :: rest))) as
    (pre & latest & post & Hred & Hsplit & Hpre & Hpost); [discriminate|].
  apply map_eq_app in Hsplit as (pre0 & tl0 & Hs & Hp0 & Htl).
  apply map_eq_cons in Htl as (l0 & post0 & -> & Hl0 & Hpost0).
  subst pre latest post.
  pose proof (walk_regular pf s sourceDir es ".svg" Hwf Hdir) as Hreg.
  rewrite Hwalk, Forall_forall in Hreg.
  assert (Hin : In l0 (first :: rest)) by (rewrite Hs; apply in_or_app; right; now left).
  destruct (Hreg l0 Hin) as (st & c & Hfile).
  destruct (place_ready pf fuel s destDir l0 st c Hwf Hfile Hc Hfuel)
    as (s1 & name & Hmk & Hrun & Hd1 & Hfree1 & Hfree & Hkeep).
  destruct (rename_file_step pf s1 l0 destDir name st c _ (Hkeep _ _ _ Hfile) Hd1 Hfree1)
    as (s' & es' & Hren & Hnew & Hgone & Hothers & _).
  exists l0, name, s'. cbv zeta.
  split; [exact Hin|]. split; [|split; [|split; [exact Hfree | split; [|split; [|split]]]]].
  - intros x Hx. rewrite Hs in Hx. apply in_app_or in Hx as [Hx | [<- | Hx]].
    + apply Z.lt_le_incl. apply (Hpre (mk x)). now apply in_map.
    + apply Z.le_refl.
    + apply (Hpost (mk x)). now apply in_map.
  - unfold handleMoveLatestSvg. rewrite Hdf. fold sourceDir.
    unfold bind at 1. rewrite access_present by (apply FsFacts.exists_true; eauto).
    unfold bind at 1. rewrite (findFiles_dir pf s sourceDir es) by exact Hdir.
    rewrite Hwalk. unfold bind at 1.
    rewrite statEach_regular by (apply Forall_forall; exact Hreg).
    fold mk. rewrite Hred. cbn [filePath mk].
    unfold moveSvgInto. fold destDir. unfold bind at 1. rewrite Hmk.
    unfold bind at 1. rewrite Hrun. unfold bind at 1. rewrite Hren. reflexivity.
  - now rewrite Hnew, Hfile.
  - now exists st, c.
  - exact Hgone.
  - intros x sx cx Hx Hxl. apply Hothers; [|exact Hxl]. now apply Hkeep.
Qed.

(** X17. [move_svg_files] without a subfolder does not create Documents.
    When the Documents folder is missing and no subfolder is given, a call
    that found SVG files fails at the first of them, and nothing has been
    moved or created: the file system is as it was. *)
Theorem move_svg_files_needs_documents :
  forall (fuel : nat) (s : fsState) (a : args) (es : list (string * node))
         (first : path) (rest : list path),
    wf pf s = true ->
    truthy (subfolder a) = None ->
    lookup s (latestSourceDirOf pf homedir cwd a) = Some (Dir es) ->
    walk pf ".svg" (latestSourceDirOf pf homedir cwd a) (Dir es) = first :: rest ->
    lookup s (DOCUMENTS_DIR pf homedir) = None ->
    0 < fuel ->
    exists message,
      handleMoveSvg pf homedir cwd fuel a s = (Throw message, s).
Proof.
  intros fuel s a es first rest Hwf Hsub Hdir Hwalk Hdocs Hfuel.
  set (sourceDir := latestSourceDirOf pf homedir cwd a) in *.
  pose proof (walk_regular pf s sourceDir es ".svg" Hwf Hdir) as Hreg.
  rewrite Hwalk in Hreg. inversion Hreg as [|? ? (st & c & Hfile) _]; subst.
  pose proof (file_nonempty s first st c sourceDir es Hfile Hdir) as Hne.
  pose proof (wf_basename pf s first _ Hwf Hfile Hne) as Hv.
  set (final := NodePath.join pf (DOCUMENTS_DIR pf homedir) (NodePath.basename first)).
  assert (Hfinal : final = DOCUMENTS_DIR pf homedir ++ [NodePath.basename first])
    by now apply join_validName.
  assert (Hfree : lookup s final = None).
  { rewrite Hfinal, FsFacts.lookup_app. now rewrite Hdocs. }
  destruct fuel as [|fuel']; [lia|].
  eexists. unfold handleMoveSvg. fold (latestSourceDirOf pf homedir cwd a). fold sourceDir.
  rewrite Hsub.
  unfold bind at 1. rewrite access_present by (apply FsFacts.exists_true; eauto).
  unfold bind at 1, ret at 1.
  unfold bind at 1. rewrite (findFiles_dir pf s sourceDir es) by exact Hdir.
  rewrite Hwalk. unfold bind at 1. cbn [moveEach]. fold final.
  unfold bind at 1. rewrite uniqueDest_step.
  assert (exists_ s final = false) as -> by now apply FsFacts.exists_false.
  unfold bind at 1, rename. rewrite Hfile, Hfree.
  destruct (insert (remove s first) final (File st c)) as [s2|] eqn:Hins; [|reflexivity].
  exfalso.
  destruct (PathFacts.insert_requires _ _ _ _ Hins (DOCUMENTS_DIR pf homedir)
              [NodePath.basename first] Hfinal) as [ds Hds]; [discriminate|].
  rewrite (TreeFacts.remove_absent s first (File st c) _ Hfile Hne Hdocs) in Hds.
  discriminate.
Qed.

End SvgMoves.

(* ===================================================================== *)
(** ** The numbered names                                                 *)
(* ===================================================================== *)

Section NumberedNames.

Variable pf : platform.
Local Open Scope list_scope.

Lemma lastDotSuffix_app_some x y e :
  NodePath.lastDotSuffix y = Some e -> NodePath.lastDotSuffix (x ++ y)%string = Some e.
Proof.
  intros H. induction x as [|c x IH]; [exact H|].
  cbn [append NodePath.lastDotSuffix]. now rewrite IH.
Qed.

Lemma lastDotSuffix_app_none x y :
  NodePath.lastDotSuffix x = None -> NodePath.lastDotSuffix y = None ->
  NodePath.lastDotSuffix (x ++ y)%string = None.
Proof.
  intros Hx Hy. induction x as [|c x IH]; [exact Hy|].
  cbn [append NodePath.lastDotSuffix] in *.
  destruct (NodePath.lastDotSuffix x) as [e|]; [discriminate|].
  rewrite IH by reflexivity. now destruct (Ascii.eqb c ".").
Qed.

Lemma lastDotSuffix_self t e :
  NodePath.lastDotSuffix t = Some e -> NodePath.lastDotSuffix e = Some e.
Proof.
  induction t as [|c t IH]; cbn [NodePath.lastDotSuffix]; [discriminate|].
  destruct (NodePath.lastDotSuffix t) as [e0|] eqn:E.
  - intros [= <-]. now apply IH.
  - destruct (Ascii.eqb c ".") eqn:Ec; [|discriminate].
    intros [= <-]. cbn [NodePath.lastDotSuffix]. now rewrite E, Ec.
Qed.

Lemma lastDotSuffix_digits d : NodePath.lastDotSuffix (NilEmpty.string_of_uint d) = None.
Proof. induction d; cbn; try rewrite IHd; reflexivity. Qed.

Lemma lastDotSuffix_showNat n : NodePath.lastDotSuffix (showNat n) = None.
Proof.
  unfold showNat, NilZero.string_of_uint.
  destruct (Nat.to_uint n) eqn:E; try (rewrite <- E; apply lastDotSuffix_digits).
  reflexivity.
Qed.

(** The numbered candidate is a plain file name. *)
Lemma numberedName_valid sourceName k :
  validName pf sourceName = true ->
  validName pf (baseOf pf sourceName ++ "_" ++ showNat k ++ extOf pf sourceName)%string = true.
Proof.
  intros Hv.
  pose proof (stem_ext_sourceName pf sourceName Hv) as Hse.
  assert (Hns : noSep pf sourceName = true).
  { unfold validName in Hv. now apply andb_prop in Hv as [_ Hv]. }
  rewrite <- Hse, noSep_append in Hns. apply andb_prop in Hns as [Hb He].
  unfold validName.
  destruct (underscore_name (baseOf pf sourceName) (showNat k ++ extOf pf sourceName))
    as (H1 & H2 & H3).
  cbn zeta in H1, H2, H3. cbn [append].
  change (baseOf pf sourceName ++ String "_" (showNat k ++ extOf pf sourceName))%string
    with (baseOf pf sourceName ++ "_" ++ showNat k ++ extOf pf sourceName)%string in *.
  rewrite H1, H2, H3. cbn [negb andb].
  rewrite !noSep_append, Hb, He, noSep_showNat. now destruct pf.
Qed.

Lemma extname_numberedName sourceName k :
  validName pf sourceName = true ->
  NodePath.extnameComp
    (baseOf pf sourceName ++ "_" ++ showNat k ++ extOf pf sourceName)%string
  = extOf pf sourceName.
Proof.
  intros Hv.
  pose proof (stem_ext_sourceName pf sourceName Hv) as Hse.
  destruct (underscore_name (baseOf pf sourceName) (showNat k ++ extOf pf sourceName))
    as (_ & _ & Hdd). cbn zeta in Hdd.
  change (baseOf pf sourceName ++ String "_" (showNat k ++ extOf pf sourceName))%string
    with (baseOf pf sourceName ++ "_" ++ showNat k ++ extOf pf sourceName)%string in Hdd.
  assert (Hext : extOf pf sourceName = NodePath.extnameComp sourceName).
  { unfold extOf, NodePath.extname. now rewrite (basenameStr_validName pf _ Hv). }
  rewrite Hext in *. clear Hext.
  remember (baseOf pf sourceName) as b eqn:Eb. clear Eb.
  destruct sourceName as [|c t]; [discriminate|].
  assert (Hnd : (String c t =? "..")%string = false).
  { unfold validName in Hv. apply andb_prop in Hv as [Hv _]. apply andb_prop in Hv as [_ Hv].
    now apply negb_true_iff in Hv. }
  unfold NodePath.extnameComp in Hse, Hdd |- *. rewrite Hnd in *.
  destruct (NodePath.lastDotSuffix t) as [e|] eqn:E.
  - destruct (lastDotSuffix_split t e E) as (pre & -> & Hne).
    change (String c (pre ++ e))%string with (String c pre ++ e)%string in Hse.
    apply append_inj_r in Hse. subst b.
    cbn [append] in Hdd |- *. rewrite Hdd.
    assert (Hlast : NodePath.lastDotSuffix (pre ++ String "_" (showNat k ++ e))%string
                    = Some e); [|now rewrite Hlast].
    apply lastDotSuffix_app_some.
    change (String "_" (showNat k ++ e))%string with ("_" ++ (showNat k ++ e))%string.
    apply lastDotSuffix_app_some, lastDotSuffix_app_some.
    now apply (lastDotSuffix_self (pre ++ e)%string).
  - rewrite append_nil_r in Hse. subst b.
    cbn [append] in Hdd |- *. rewrite Hdd.
    rewrite lastDotSuffix_app_none; [reflexivity | exact E |].
    cbn [NodePath.lastDotSuffix]. rewrite append_nil_r, lastDotSuffix_showNat. reflexivity.
Qed.

(** X18. The numbered names.  For a plain file name, the candidate
    the loop builds in round k is one entry name in the destination folder;
    it has the extension of the original name, so a renamed file keeps its
    type; it differs from the original name, and candidates of different
    rounds differ from each other. *)
Theorem numbered_names :
  forall (destDir : path) (sourceName : string) (k : nat),
    validName pf sourceName = true ->
    numbered pf destDir sourceName k
    = destDir ++ [NodePath.basename (numbered pf destDir sourceName k)]
    /\ validName pf (NodePath.basename (numbered pf destDir sourceName k)) = true
    /\ NodePath.extname pf (NodePath.basename (numbered pf destDir sourceName k))
       = NodePath.extname pf sourceName
    /\ numbered pf destDir sourceName k <> NodePath.join pf destDir sourceName
    /\ (forall j, j <> k ->
          numbered pf destDir sourceName j <> numbered pf destDir sourceName k).
Proof.
  intros destDir sourceName k Hv.
  rewrite (numbered_validName pf destDir sourceName k Hv), basename_snoc.
  pose proof (numberedName_valid sourceName k Hv) as Hvk.
  split; [reflexivity|]. split; [exact Hvk|]. split; [|split].
  - unfold NodePath.extname at 1. rewrite (basenameStr_validName pf _ Hvk).
    now apply extname_numberedName.
  - rewrite (join_validName pf destDir sourceName Hv). intros Heq.
    apply app_inv_head in Heq. injection Heq as Heq.
    rewrite <- (stem_ext_sourceName pf sourceName Hv) in Heq at 3.
    apply append_inj_l in Heq. apply (f_equal String.length) in Heq.
    cbn [append String.length] in Heq. rewrite length_append in Heq. lia.
  - intros j Hj Heq. apply Hj. rewrite <- (numbered_validName pf destDir sourceName k Hv) in Heq.
    now apply (numbered_inj pf destDir sourceName j k Hv).
Qed.

End NumberedNames.

(* ===================================================================== *)
(** ** Custom locations                                                   *)
(* ===================================================================== *)

Section CustomLocations.

Variable pf : platform.
Variable homedir : path.
Variable cwd : path.
Variable copyStamp : Z -> Z.
Local Open Scope list_scope.

Lemma orDefault_lower v d :
  toLowerCase (orDefault (Some (toLowerCase v)) d) = toLowerCase (orDefault (Some v) d).
Proof.
  destruct v as [|c t]; [reflexivity|].
  exact (toLowerCase_idem (String c t)).
Qed.

Lemma sourceDirOf_lower a v :
  sourceDirOf pf homedir cwd (withSource a (toLowerCase v))
  = sourceDirOf pf homedir cwd (withSource a v).
Proof. unfold sourceDirOf, withSource. cbn [source]. now rewrite orDefault_lower. Qed.

Lemma newDirOf_lower a v nm :
  newDirOf pf homedir cwd (withLocation a (toLowerCase v)) nm
  = newDirOf pf homedir cwd (withLocation a v) nm.
Proof. unfold newDirOf, withLocation. cbn [location]. now rewrite orDefault_lower. Qed.

(** X19. Custom locations are folded to lower case.  [copy_file]
    and [move_file] lower-case the whole [source] argument, and
    [create_directory] the whole [location] argument, before they resolve
    it: a path other than the two keywords is resolved in its lower-cased
    form, so two arguments that differ in case only give the same call,
    and a directory with an upper-case letter in its path cannot be named
    this way where file names are case-sensitive. *)
Theorem custom_locations_lower_cased :
  forall (fuel : nat) (a : args) (v : string) (s : fsState),
    handleCopyFile pf homedir cwd copyStamp fuel (withSource a v) s
    = handleCopyFile pf homedir cwd copyStamp fuel (withSource a (toLowerCase v)) s
    /\ handleMoveFile pf homedir cwd fuel (withSource a v) s
       = handleMoveFile pf homedir cwd fuel (withSource a (toLowerCase v)) s
    /\ handleCreateDirectory pf homedir cwd fuel (withLocation a v) s
       = handleCreateDirectory pf homedir cwd fuel (withLocation a (toLowerCase v)) s
    /\ (toLowerCase v <> ""%string -> toLowerCase v <> "downloads"%string ->
        toLowerCase v <> "documents"%string ->
        sourceDirOf pf homedir cwd (withSource a v)
        = NodePath.resolve pf cwd (toLowerCase v)
        /\ forall nm,
             newDirOf pf homedir cwd (withLocation a v) nm
             = NodePath.join pf (NodePath.resolve pf cwd (toLowerCase v)) nm).
Proof.
  intros fuel a v s. split; [|split; [|split]].
  - unfold handleCopyFile. cbn [filename withSource].
    change (filename a) with (filename (withSource a v)).
    unfold copyLocated, destDirOf. cbn [destination_folder withSource].
    now rewrite <- (sourceDirOf_lower a v).
  - unfold handleMoveFile. cbn [filename withSource].
    unfold moveLocated, destDirOf. cbn [destination_folder withSource].
    now rewrite <- (sourceDirOf_lower a v).
  - unfold handleCreateDirectory. cbn [name location withLocation].
    now rewrite orDefault_lower.
  - intros H0 H1 H2.
    assert (Hor : toLowerCase (orDefault (Some v) "downloads") = toLowerCase v
                  /\ toLowerCase (orDefault (Some v) "documents") = toLowerCase v).
    { unfold orDefault. destruct v as [|c t]; [now destruct H0|]. now split. }
    destruct Hor as [Hs Hl].
    apply String.eqb_neq in H1, H2. split.
    + unfold sourceDirOf, withSource. cbn [source]. now rewrite Hs, H1, H2.
    + intros nm. unfold newDirOf, withLocation. cbn [location]. now rewrite Hl, H2, H1.
Qed.

End CustomLocations.

(* ===================================================================== *)
(** ** Tools that destroy nothing                                         *)
(* ===================================================================== *)

Section NothingLost.

Import Fs.
Variable pf : platform.
Variable homedir : path.
Variable cwd : path.
Variable copyStamp : Z -> Z.
Variable dirStats : path -> stats.
Variable otherStats : path -> option stats.
Local Open Scope list_scope.

Lemma readOnly_uniqueDest fuel destDir sourceName :
  forall cur counter, readOnly (uniqueDest pf fuel destDir sourceName cur counter).
Proof.
  induction fuel as [|fuel IH]; intros cur counter s; [reflexivity|].
  rewrite uniqueDest_step. destruct (exists_ s cur); [apply IH | reflexivity].
Qed.

Lemma readOnly_locateSourceFile sourceDir fn :
  readOnly (locateSourceFile pf sourceDir fn).
Proof.
  unfold locateSourceFile. apply readOnly_tryCatch.
  - apply readOnly_bind; [apply readOnly_access | intros _; apply readOnly_ret].
  - intros e. apply readOnly_bind; [apply readOnly_findFiles|].
    intros found. destruct (find _ found); [apply readOnly_ret | apply readOnly_throw].
Qed.

Lemma nothingLost_refl s : nothingLost s s.
Proof. split; eauto. Qed.

Lemma nothingLost_trans s1 s2 s3 : nothingLost s1 s2 -> nothingLost s2 s3 -> nothingLost s1 s3.
Proof.
  intros [Hk1 Hf1] [Hk2 Hf2]. split.
  - intros x m Hx. destruct (Hk1 x m Hx) as [m1 Hm1]. now apply (Hk2 x m1).
  - intros x st c Hx. now apply Hf2, Hf1.
Qed.

(** Nothing is lost when a folder is created or a node is put at a path
    that did not exist. *)
Lemma mkdir_keeps p s : nothingLost s (snd (mkdir pf p s)).
Proof.
  unfold mkdir. destruct (mkdirp s p) as [s1|] eqn:E; cbn [snd]; [|apply nothingLost_refl].
  split.
  - intros x m Hx. now apply (TreeFacts.mkdirp_keeps s p s1 x m E).
  - intros x st c Hx. now apply (PathFacts.mkdirp_preserves_file s p s1 x st c E).
Qed.

Lemma insert_keeps s p v s' :
  insert s p v = Some s' -> lookup s p = None -> nothingLost s s'.
Proof.
  intros Hins Hfree.
  assert (Hpre : forall x m, lookup s x = Some m -> isPrefixOf p x = false).
  { intros x m Hx. destruct (isPrefixOf p x) eqn:E; [|reflexivity].
    apply PathFacts.isPrefixOf_spec in E as [t ->].
    rewrite FsFacts.lookup_app, Hfree in Hx. discriminate. }
  split.
  - intros x m Hx. destruct (isPrefixOf x p) eqn:E.
    + apply PathFacts.isPrefixOf_spec in E as [t ->].
      pose proof (FsFacts.lookup_insert_same _ _ _ _ Hins) as Hat.
      rewrite FsFacts.lookup_app in Hat. destruct (lookup s' x); [eauto | discriminate].
    + exists m. rewrite <- Hx. apply (FsFacts.lookup_insert_other _ _ _ _ x Hins).
      apply PathFacts.not_prefix_diverge; [now apply (Hpre x m) | exact E].
  - intros x st c Hx. rewrite <- Hx. apply (FsFacts.lookup_insert_other _ _ _ _ x Hins).
    apply PathFacts.not_prefix_diverge; [now apply (Hpre x (File st c))|].
    destruct (isPrefixOf x p) eqn:E; [|reflexivity].
    destruct (prefix_cases _ _ E) as [-> | (t & Ht & Heq)]; [congruence|].
    destruct (PathFacts.insert_requires _ _ _ _ Hins x t Heq Ht) as [es Hes]. congruence.
Qed.

(** X20. [copy_file] and [create_directory] destroy nothing.  Whatever the
    arguments and the state, and whether the call succeeds or fails:
    every path that existed before the call exists after it, and every
    regular file has the size, time and content it had.  In particular
    [copy_file] never writes over an existing file. *)
Theorem copy_and_create_lose_nothing :
  forall (fuel : nat) (a : args) (s : fsState),
    nothingLost s (snd (handleCopyFile pf homedir cwd copyStamp fuel a s))
    /\ nothingLost s (snd (handleCreateDirectory pf homedir cwd fuel a s)).
Proof.
  intros fuel a s. split.
  - unfold handleCopyFile.
    destruct (truthy (filename a)) as [fn|]; [|apply nothingLost_refl].
    unfold bind at 1.
    pose proof (readOnly_locateSourceFile (sourceDirOf pf homedir cwd a) fn s) as Hloc.
    destruct (locateSourceFile pf (sourceDirOf pf homedir cwd a) fn s)
      as [[src | e |] s0]; cbn [snd] in Hloc; subst s0; try apply nothingLost_refl.
    unfold copyLocated. unfold bind at 1.
    pose proof (mkdir_keeps (destDirOf pf homedir a) s) as Hk1.
    destruct (mkdir pf (destDirOf pf homedir a) s) as [[[] | e |] s1];
      cbn [snd] in Hk1 |- *; try exact Hk1.
    apply (nothingLost_trans s s1); [exact Hk1|]. clear Hk1.
    unfold bind at 1.
    pose proof (readOnly_uniqueDest fuel (destDirOf pf homedir a) (NodePath.basename src)
                  (NodePath.join pf (destDirOf pf homedir a) (NodePath.basename src)) 1 s1)
      as Hro.
    destruct (uniqueDest pf fuel (destDirOf pf homedir a) (NodePath.basename src)
                (NodePath.join pf (destDirOf pf homedir a) (NodePath.basename src)) 1 s1)
      as [[final | e |] s1'] eqn:Hu; cbn [snd] in Hro |- *; subst s1';
      try apply nothingLost_refl.
    apply uniqueDest_sound in Hu as [_ Hfree]. apply FsFacts.exists_false in Hfree.
    unfold bind, copyFile.
    destruct (lookup s1 src) as [[st c | |]|]; cbn [snd]; try apply nothingLost_refl.
    rewrite Hfree.
    destruct (insert s1 final (File (copiedStats copyStamp st) c)) as [s2|] eqn:Hins;
      cbn [snd]; [|apply nothingLost_refl].
    now apply (insert_keeps s1 final (File (copiedStats copyStamp st) c)).
  - destruct (truthy (name a)) as [nm|] eqn:Hn.
    + rewrite (handleCreateDirectory_run pf homedir cwd fuel s a nm Hn).
      destruct (exists_ s (newDirOf pf homedir cwd a nm)); cbn [snd];
        [apply nothingLost_refl|].
      pose proof (mkdir_keeps (newDirOf pf homedir cwd a nm) s) as Hk. unfold mkdir in Hk.
      destruct (mkdirp s (newDirOf pf homedir cwd a nm)); cbn [snd] in *;
        [exact Hk | apply nothingLost_refl].
    + unfold handleCreateDirectory. rewrite Hn. apply nothingLost_refl.
Qed.

Lemma contentKept_refl s : contentKept s s.
Proof. intros x st c Hx. eauto. Qed.

Lemma contentKept_trans s1 s2 s3 :
  contentKept s1 s2 -> contentKept s2 s3 -> contentKept s1 s3.
Proof. intros H1 H2 x st c Hx. destruct (H1 x st c Hx) as [y Hy]. now apply (H2 y). Qed.

Lemma nothingLost_contentKept s s' : nothingLost s s' -> contentKept s s'.
Proof. intros [_ Hf] x st c Hx. exists x. now apply Hf. Qed.

(** Renaming to a path that does not exist loses no content: the files
    at or below the old path are at or below the new one, the others stay. *)
Lemma rename_keeps_content oldPath newPath s :
  lookup s newPath = None -> contentKept s (snd (rename pf oldPath newPath s)).
Proof.
  intros Hfree. unfold rename.
  destruct (lookup s oldPath) as [n|] eqn:Hold; [|apply contentKept_refl].
  rewrite Hfree.
  destruct (insert (remove s oldPath) newPath n) as [s'|] eqn:Hins;
    [|apply contentKept_refl].
  cbn [snd]. intros x st c Hx.
  pose proof (FsFacts.lookup_insert_same _ _ _ _ Hins) as Hat.
  destruct (isPrefixOf oldPath x) eqn:E.
  - apply PathFacts.isPrefixOf_spec in E as [t ->].
    exists (newPath ++ t). rewrite FsFacts.lookup_app, Hat.
    now rewrite FsFacts.lookup_app, Hold in Hx.
  - assert (Hne : oldPath <> []) by (intros ->; discriminate).
    assert (Hdiv : diverge oldPath x).
    { apply PathFacts.not_prefix_diverge; [exact E|].
      destruct (isPrefixOf x oldPath) eqn:E'; [|reflexivity].
      destruct (prefix_cases _ _ E') as [-> | (t & Ht & ->)].
      - now rewrite isPrefixOf_refl in E.
      - destruct (PathFacts.lookup_through _ _ _ _ Hold Ht) as [es Hes]. congruence. }
    exists x.
    destruct (insert_keeps (remove s oldPath) newPath n s' Hins) as [_ Hf].
    + now apply (TreeFacts.remove_absent s oldPath n).
    + apply Hf. now rewrite FsFacts.lookup_remove_other.
Qed.

Lemma kc_readOnly {A} (m : M A) : readOnly m -> forall s, contentKept s (snd (m s)).
Proof. intros H s. rewrite H. apply contentKept_refl. Qed.

Lemma kc_bind {A B} (m : M A) (k : A -> M B) :
  (forall s, contentKept s (snd (m s))) ->
  (forall x s, contentKept s (snd (k x s))) ->
  forall s, contentKept s (snd (bind m k s)).
Proof.
  intros Hm Hk s. unfold bind. specialize (Hm s).
  destruct (m s) as [[x | e |] s1]; cbn [snd] in Hm |- *; try exact Hm.
  apply (contentKept_trans s s1); [exact Hm | apply Hk].
Qed.

Lemma kc_mkdir p : forall s, contentKept s (snd (mkdir pf p s)).
Proof. intros s. apply nothingLost_contentKept, mkdir_keeps. Qed.

(** Find a free name, then rename. *)
Lemma place_keeps_content {A} fuel destDir sourceName desired src (k : path -> M A) s :
  (forall final s', snd (k final s') = s') ->
  contentKept s
    (snd (bind (uniqueDest pf fuel destDir sourceName desired 1)
            (fun final => bind (rename pf src final) (fun _ => k final)) s)).
Proof.
  intros Hk. unfold bind at 1.
  pose proof (readOnly_uniqueDest fuel destDir sourceName desired 1 s) as Hro.
  destruct (uniqueDest pf fuel destDir sourceName desired 1 s) as [[final | e |] s0] eqn:Hu;
    cbn [snd] in Hro |- *; subst s0; try apply contentKept_refl.
  apply uniqueDest_sound in Hu as [_ Hfree]. apply FsFacts.exists_false in Hfree.
  pose proof (rename_keeps_content src final s Hfree) as Hren.
  unfold bind. destruct (rename pf src final s) as [[[] | e |] s1]; cbn [snd] in Hren |- *;
    try exact Hren.
  now rewrite Hk.
Qed.

Lemma moveEach_keeps_content fuel destDir :
  forall svgFiles movedFiles s,
    contentKept s (snd (moveEach pf fuel destDir svgFiles movedFiles s)).
Proof.
  induction svgFiles as [|svgPath rest IH]; intros movedFiles s; [apply contentKept_refl|].
  cbn [moveEach]. unfold bind at 1.
  pose proof (readOnly_uniqueDest fuel destDir (NodePath.basename svgPath)
                (NodePath.join pf destDir (NodePath.basename svgPath)) 1 s) as Hro.
  destruct (uniqueDest pf fuel destDir (NodePath.basename svgPath)
              (NodePath.join pf destDir (NodePath.basename svgPath)) 1 s)
    as [[final | e |] s0] eqn:Hu; cbn [snd] in Hro |- *; subst s0;
    try apply contentKept_refl.
  apply uniqueDest_sound in Hu as [_ Hfree]. apply FsFacts.exists_false in Hfree.
  pose proof (rename_keeps_content svgPath final s Hfree) as Hren.
  unfold bind at 1. destruct (rename pf svgPath final s) as [[[] | e |] s1];
    cbn [snd] in Hren |- *; try exact Hren.
  apply (contentKept_trans s s1); [exact Hren | apply IH].
Qed.

Lemma readOnly_statEach svgFiles : readOnly (statEach pf dirStats otherStats svgFiles).
Proof.
  induction svgFiles as [|p rest IH]; cbn [statEach]; [apply readOnly_ret|].
  apply readOnly_bind; [apply readOnly_stat|]. intros st.
  apply readOnly_bind; [exact IH|]. intros more. apply readOnly_ret.
Qed.

(** X21. The move tools lose no content.  Whatever the arguments and the
    state, and whether the call succeeds, fails half-way or runs out of
    rounds: after [move_file], [move_svg_files] or [move_latest_svg], what
    any regular file held before the call is held, with the same size and
    time, by a regular file after it.  A file is renamed only to a path at
    which nothing existed. *)
Theorem move_tools_lose_no_content :
  forall (fuel : nat) (a : args) (s : fsState),
    contentKept s (snd (handleMoveFile pf homedir cwd fuel a s))
    /\ contentKept s (snd (handleMoveSvg pf homedir cwd fuel a s))
    /\ contentKept s (snd (handleMoveLatestSvg pf homedir cwd dirStats otherStats fuel a s)).
Proof.
  intros fuel a s. split; [|split]; revert s.
  - unfold handleMoveFile.
    destruct (truthy (filename a)) as [fn|]; [|apply kc_readOnly, readOnly_throw].
    apply kc_bind; [apply kc_readOnly, readOnly_locateSourceFile|].
    intros src. unfold moveLocated. apply kc_bind; [apply kc_mkdir|].
    intros _ s. now apply place_keeps_content.
  - unfold handleMoveSvg. apply kc_bind.
    { apply kc_readOnly, readOnly_tryCatch; [apply readOnly_access|].
      intros e. apply readOnly_throw. }
    intros _. apply kc_bind.
    { destruct (truthy (subfolder a)) as [sub|]; [|apply kc_readOnly, readOnly_ret].
      apply kc_bind; [apply kc_mkdir|]. intros _. apply kc_readOnly, readOnly_ret. }
    intros destDir. apply kc_bind; [apply kc_readOnly, readOnly_findFiles|].
    intros [|f fs]; [apply kc_readOnly, readOnly_ret|].
    apply kc_bind; [intros s; apply moveEach_keeps_content|].
    intros moved. apply kc_readOnly, readOnly_ret.
  - unfold handleMoveLatestSvg.
    destruct (truthy (destination_folder a)) as [df|]; [|apply kc_readOnly, readOnly_throw].
    apply kc_bind.
    { apply kc_readOnly, readOnly_tryCatch; [apply readOnly_access|].
      intros e. apply readOnly_throw. }
    intros _. apply kc_bind; [apply kc_readOnly, readOnly_findFiles|].
    intros [|f fs]; [apply kc_readOnly, readOnly_ret|].
    apply kc_bind; [apply kc_readOnly, readOnly_statEach|].
    intros fileStats.
    destruct (reduceLatest fileStats) as [latest|]; [|apply kc_readOnly, readOnly_throw].
    unfold moveSvgInto. apply kc_bind; [apply kc_mkdir|].
    intros _ s. now apply place_keeps_content.
Qed.

End NothingLost.

(* ===================================================================== *)
(** ** [unzip_and_move_svgs] after the extraction                         *)
(* ===================================================================== *)

Section AfterExtraction.

Import Fs.
Variable pf : platform.
Variable homedir : path.
Local Open Scope list_scope.

(** X22. Steps 2 to 4 of [unzip_and_move_svgs], from the state the
    extraction left.  Without SVG files below the extract folder the answer
    says so, and neither the destination folder is created nor anything
    else changed.  With SVG files, a destination folder in Documents that
    can be created and does not overlap the extract folder, the steps
    succeed: every file found below the extract folder, also one that was
    there before the extraction, is with its content under a name of its
    own in the destination folder, none is left in the extract folder, and
    every other regular file is as it was. *)
Theorem extracted_svgs_are_moved :
  forall (fuel : nat) (s : fsState) (zipName destinationFolder : string)
         (entries : list zipEntry) (extractPath : path) (es : list (string * node)),
    wf pf s = true ->
    lookup s extractPath = Some (Dir es) ->
    let destDir := NodePath.join pf (DOCUMENTS_DIR pf homedir) destinationFolder in
    let found := walk pf ".svg" extractPath (Dir es) in
    (found = [] ->
     collectExtractedSvgs pf homedir fuel zipName destinationFolder entries extractPath s
     = (Ret ("Successfully unzipped " ++ zipName ++ " ("
             ++ showNat (List.length entries) ++ " files) to " ++ showPath pf extractPath
             ++ nl ++ nl ++ "But no SVG files were found in the archive.")%string, s))
    /\ (found <> [] ->
        isPrefixOf extractPath destDir = false ->
        isPrefixOf destDir extractPath = false ->
        creatable s destDir = true ->
        List.length (entriesAt s destDir) + List.length found < fuel ->
        exists (finals : list path) (s' : fsState),
          collectExtractedSvgs pf homedir fuel zipName destinationFolder entries extractPath s
          = (Ret ("Success! " ++ tada ++ nl ++ nl ++ "1. Unzipped " ++ zipName ++ " ("
                  ++ showNat (List.length entries) ++ " total files)" ++ nl
                  ++ "2. Found " ++ showNat (List.length found) ++ " SVG file(s)" ++ nl
                  ++ "3. Moved all SVGs to Documents\" ++ destinationFolder ++ nl ++ nl
                  ++ "Moved files:" ++ nl ++ join nl (map NodePath.basename finals))%string,
             s')
          /\ Forall2 (fun p f => (exists name, f = destDir ++ [name])
                                 /\ lookup s' f = lookup s p) found finals
          /\ NoDup finals
          /\ (forall p, In p found -> isRegularFile s p /\ lookup s' p = None)
          /\ (forall x sx cx, lookup s x = Some (File sx cx) -> ~ In x found ->
                lookup s' x = Some (File sx cx))).
Proof.
  intros fuel s zipName destinationFolder entries extractPath es Hwf Hdir destDir found.
  split.
  - intros Hnone. unfold collectExtractedSvgs.
    unfold bind at 1. rewrite (findFiles_dir pf s extractPath es) by exact Hdir.
    fold found. now rewrite Hnone.
  - intros Hsome Hsd Hds Hc Hfuel.
    destruct (creatable_mkdirp s destDir Hc) as [s1 Hmk].
    pose proof (TreeFacts.mkdirp_entries s destDir s1 Hmk) as Hd1.
    pose proof (walk_regular pf s extractPath es ".svg" Hwf Hdir) as Hreg.
    fold found in Hreg. rewrite Forall_forall in Hreg.
    assert (Hbelow : forall p, In p found -> below extractPath p).
    { intros p Hp.
      now apply (found_spec pf s extractPath es ".svg" p Hwf Hdir) in Hp as [Hb _]. }
    assert (Hall : Forall (fun p => isRegularFile s1 p
                                    /\ validName pf (NodePath.basename p) = true) found).
    { apply Forall_forall. intros p Hp. destruct (Hreg p Hp) as (sp & cp & Hpf). split.
      - exists sp, cp. now apply (PathFacts.mkdirp_preserves_file s destDir s1).
      - apply (wf_basename pf s p _ Hwf Hpf). intros ->.
        destruct (Hbelow [] Hp) as (rel & Hne & Heq).
        symmetry in Heq. apply app_eq_nil in Heq as [_ ->]. contradiction. }
    assert (Hnd : NoDup found).
    { apply walk_NoDup. now apply (wf_lookup pf s extractPath). }
    destruct (moveEach_effect pf fuel destDir found s1 [] _ Hd1 Hnd Hall Hfuel)
      as (finals & s' & Hmove & Hpairs & Hnd2 & _ & Hkeep & _ & Hgone).
    assert (Hapart : forall p, In p found -> ~ In p finals).
    { intros p Hp Hin. destruct (Hbelow p Hp) as (rel & _ & ->).
      destruct (Forall2_in_right _ _ _ _ Hpairs Hin) as (q & _ & [name Heq] & _).
      destruct (prefixes_comparable _ _ _ _ Heq); congruence. }
    exists finals, s'. split; [|split; [|split; [exact Hnd2 | split]]].
    + unfold collectExtractedSvgs.
      unfold bind at 1. rewrite (findFiles_dir pf s extractPath es) by exact Hdir.
      fold found. destruct found as [|f fs] eqn:Ef; [contradiction|].
      fold destDir. unfold bind at 1, mkdir. rewrite Hmk.
      unfold bind at 1. rewrite Hmove. unfold ret. cbn [app]. reflexivity.
    + apply (Forall2_impl_left _ _ _ _ Hpairs). intros p f Hp [Hch Hl].
      split; [exact Hch|]. rewrite Hl. destruct (Hreg p Hp) as (sp & cp & Hpf).
      rewrite Hpf. now apply (PathFacts.mkdirp_preserves_file s destDir s1).
    + intros p Hp. split; [now apply Hreg|]. apply Hgone; [exact Hp | now apply Hapart].
    + intros x sx cx Hx Hnot. apply Hkeep; [|exact Hnot].
      now apply (PathFacts.mkdirp_preserves_file s destDir s1).
Qed.

End AfterExtraction.

(* ===================================================================== *)
(** ** Unzipping twice                                                    *)
(* ===================================================================== *)

Section UnzipTwice.

Import Fs.
Variable pf : platform.
Variable homedir : path.
Variable cwd : path.
Local Open Scope list_scope.







End UnzipTwice.

(* ===================================================================== *)
(** ** Copying twice                                                      *)
(* ===================================================================== *)

Section CopyTwice.

Import Fs.
Variable pf : platform.
Variable homedir : path.
Variable cwd : path.
Local Open Scope list_scope.

(** X24. [copy_file] twice.  Let the source directory hold a regular
    file under the name [filename].  Two calls with the same arguments, at
    any two times, both succeed; the second copy gets a name of its own,
    and afterwards the source is as it was and both copies hold its size
    and content, each with the time stamp the system's copy gave it. *)
Theorem copy_file_twice :
  forall (copyStamp1 copyStamp2 : Z -> Z) (fuel : nat) (s : fsState) (a : args) (fn : string)
         (st : stats) (c : content),
    wf pf s = true ->
    truthy (filename a) = Some fn ->
    lookup s (sourceDirOf pf homedir cwd a ++ [fn]) = Some (File st c) ->
    creatable s (destDirOf pf homedir a) = true ->
    S (S (List.length (entriesAt s (destDirOf pf homedir a)))) < fuel ->
    exists (name1 name2 : string) (s1 s2 : fsState),
      handleCopyFile pf homedir cwd copyStamp1 fuel a s
      = (Ret ("Successfully copied " ++ fn ++ " to "
              ++ showPath pf (destDirOf pf homedir a ++ [name1])%list)%string, s1)
      /\ handleCopyFile pf homedir cwd copyStamp2 fuel a s1
         = (Ret ("Successfully copied " ++ fn ++ " to "
                 ++ showPath pf (destDirOf pf homedir a ++ [name2])%list)%string, s2)
      /\ name1 <> name2
      /\ lookup s (destDirOf pf homedir a ++ [name1]) = None
      /\ lookup s (destDirOf pf homedir a ++ [name2]) = None
      /\ lookup s2 (destDirOf pf homedir a ++ [name1])
         = Some (File {| size := size st; mtime := copyStamp1 (mtime st) |} c)
      /\ lookup s2 (destDirOf pf homedir a ++ [name2])
         = Some (File {| size := size st; mtime := copyStamp2 (mtime st) |} c)
      /\ lookup s2 (sourceDirOf pf homedir cwd a ++ [fn]) = Some (File st c).
Proof.
  intros copyStamp1 copyStamp2 fuel s a fn st c Hwf Hfn Hsrc Hc Hfuel.
  set (src := sourceDirOf pf homedir cwd a ++ [fn]) in *.
  set (destDir := destDirOf pf homedir a) in *.
  assert (Hne : src <> []) by (unfold src; now destruct (sourceDirOf pf homedir cwd a)).
  pose proof (wf_basename pf s src _ Hwf Hsrc Hne) as Hv.
  assert (Hbase : NodePath.basename src = fn) by apply basename_snoc.
  rewrite Hbase in Hv.
  assert (Hjoin : NodePath.join pf (sourceDirOf pf homedir cwd a) fn = src)
    by now apply join_validName.
  assert (Hcall : forall copyStamp s0 es0,
             lookup s0 src = Some (File st c) ->
             forall sm, mkdir pf destDir s0 = (Ret tt, sm) ->
             lookup sm src = Some (File st c) ->
             lookup sm destDir = Some (Dir es0) ->
             S (List.length es0) < fuel ->
             exists name s',
               handleCopyFile pf homedir cwd copyStamp fuel a s0
               = (Ret ("Successfully copied " ++ fn ++ " to "
                       ++ showPath pf (destDir ++ [name])%list)%string, s')
               /\ lookup sm (destDir ++ [name]) = None
               /\ lookup s' (destDir ++ [name]) = Some (File (copiedStats copyStamp st) c)
               /\ (forall x sx cx, lookup sm x = Some (File sx cx) ->
                     lookup s' x = Some (File sx cx))
               /\ lookup s' destDir
                  = Some (Dir (setEntry name (File (copiedStats copyStamp st) c) es0))).
  { intros copyStamp s0 es0 Hs0 sm Hmk Hsm Hd Hf.
    destruct (uniqueDest_ends pf sm destDir es0 fn fuel Hv Hd Hf)
      as (k & _ & Hrun & Hfree & _).
    destruct (probeAt_child pf destDir fn k Hv) as [name Hname].
    rewrite Hname in Hrun, Hfree. apply FsFacts.exists_false in Hfree.
    destruct (copy_file_step pf copyStamp sm src destDir name st c es0 Hsm Hd Hfree)
      as (s' & Hcp & Hnew & Hfiles & _ & Hd').
    exists name, s'. split; [|split; [exact Hfree | split; [exact Hnew | split; assumption]]].
    unfold handleCopyFile. rewrite Hfn. unfold bind at 1.
    rewrite (locateSourceFile_top pf s0 _ fn)
      by (rewrite Hjoin; apply FsFacts.exists_true; eauto).
    rewrite Hjoin. unfold copyLocated. fold destDir. rewrite Hbase.
    unfold bind at 1. rewrite Hmk.
    unfold bind at 1. rewrite Hrun. unfold bind at 1. rewrite Hcp. reflexivity. }
  destruct (creatable_mkdirp s destDir Hc) as [sm Hmk].
  pose proof (TreeFacts.mkdirp_entries s destDir sm Hmk) as Hd1.
  destruct (Hcall copyStamp1 s (entriesAt s destDir) Hsrc sm)
    as (name1 & s1 & Hrun1 & Hfree1 & Hnew1 & Hfiles1 & Hdir1).
  { unfold mkdir. now rewrite Hmk. }
  { now apply (PathFacts.mkdirp_preserves_file s destDir sm). }
  { exact Hd1. }
  { lia. }
  assert (Hsrc1 : lookup s1 src = Some (File st c)).
  { apply Hfiles1. now apply (PathFacts.mkdirp_preserves_file s destDir sm). }
  assert (Hmk1 : mkdir pf destDir s1 = (Ret tt, s1)) by now apply (mkdir_existing pf s1 _ _ Hdir1).
  destruct (Hcall copyStamp2 s1 _ Hsrc1 s1 Hmk1 Hsrc1 Hdir1)
    as (name2 & s2 & Hrun2 & Hfree2 & Hnew2 & Hfiles2 & _).
  { pose proof (TreeFacts.length_setEntry name1 (File (copiedStats copyStamp1 st) c)
                  (entriesAt s destDir)). lia. }
  assert (Hback : forall x, lookup sm x = None -> lookup s x = None).
  { intros x Hx. destruct (lookup s x) as [m|] eqn:E; [|reflexivity].
    destruct (TreeFacts.mkdirp_keeps s destDir sm _ m Hmk E) as [m' Hm']. congruence. }
  assert (Hfresh2 : lookup sm (destDir ++ [name2]) = None).
  { destruct (lookup sm (destDir ++ [name2])) as [m|] eqn:E; [|reflexivity]. exfalso.
    destruct (String.eqb_spec name1 name2) as [-> | Hneq]; [congruence|].
    destruct (TreeFacts.insert_child sm destDir name1 (File (copiedStats copyStamp1 st) c)
                (entriesAt s destDir) Hd1) as (s1' & Hins & _).
    apply Hneq. clear Hneq.
    rewrite FsFacts.lookup_app, Hd1 in E. rewrite FsFacts.lookup_app, Hdir1 in Hfree2.
    cbn [lookup] in E, Hfree2.
    destruct (String.eqb_spec name1 name2) as [Heq | Hneq]; [exact Heq | exfalso].
    rewrite (FsFacts.assoc_setEntry_other name1 name2) in Hfree2 by exact Hneq.
    destruct (assoc name2 (entriesAt s destDir)); discriminate. }
  exists name1, name2, s1, s2.
  split; [exact Hrun1|]. split; [exact Hrun2|].
  split; [intros ->; congruence|].
  split; [now apply Hback|]. split; [now apply Hback|].
  split; [now apply Hfiles2|]. split; [exact Hnew2|].
  now apply Hfiles2.
Qed.

End CopyTwice.

(* ===================================================================== *)
(** ** More sample runs                                                   *)
(* ===================================================================== *)

Section MoreSampleRuns.

Import Examples.
Local Open Scope list_scope.

(** Documents holds report.pdf and report_1.pdf: two entries, so four
    rounds are enough. *)
Lemma duplicate_name_loop_ends_witness :
  exists k,
    k <= 3
    /\ uniqueDest Posix 4 documents "report.pdf"
         (NodePath.join Posix documents "report.pdf") 1 twoReports
       = (Ret (probeAt Posix documents "report.pdf" k), twoReports)
    /\ Fs.exists_ twoReports (probeAt Posix documents "report.pdf" k) = false
    /\ (forall j, j < k ->
          Fs.exists_ twoReports (probeAt Posix documents "report.pdf" j) = true).
Proof.
  apply (duplicate_name_loop_ends Posix twoReports documents
           [("report.pdf", file 1 10 "first"); ("report_1.pdf", file 2 10 "second")]
           "report.pdf" 4); [reflexivity | reflexivity | cbn; lia].
Defined.

(** report.pdf moves from Downloads to a free name in Documents. *)
Lemma move_file_moves_witness :
  exists (name : string) (s' : fsState),
    handleMoveFile Posix home [] 3 moveReport collision
    = (Ret ("Successfully moved report.pdf to "
            ++ showPath Posix (destDirOf Posix home moveReport ++ [name])%list)%string, s')
    /\ Fs.lookup collision (destDirOf Posix home moveReport ++ [name]) = None
    /\ Fs.lookup s' (destDirOf Posix home moveReport ++ [name]) = Some (file 5 100 "new")
    /\ Fs.lookup s' (downloads ++ ["report.pdf"]) = None
    /\ (forall x sx cx, Fs.lookup collision x = Some (File sx cx) ->
          x <> downloads ++ ["report.pdf"] -> Fs.lookup s' x = Some (File sx cx)).
Proof.
  apply (move_file_moves Posix home [] 3 collision moveReport "report.pdf"
           (downloads ++ ["report.pdf"]) {| size := 100; mtime := 5 |} (Bytes "new"));
    [reflexivity | reflexivity | reflexivity | reflexivity | reflexivity | cbn; lia].
Defined.

(** report.pdf is copied from Downloads to a free name in Documents. *)
Lemma copy_file_copies_witness :
  exists (name : string) (s' : fsState) (st' : stats),
    handleCopyFile Posix home [] today 3 moveReport collision
    = (Ret ("Successfully copied report.pdf to "
            ++ showPath Posix (destDirOf Posix home moveReport ++ [name])%list)%string, s')
    /\ Fs.lookup collision (destDirOf Posix home moveReport ++ [name]) = None
    /\ Fs.lookup s' (destDirOf Posix home moveReport ++ [name]) = Some (File st' (Bytes "new"))
    /\ size st' = 100%Z
    /\ mtime st' = 9000%Z
    /\ (forall x sx cx, Fs.lookup collision x = Some (File sx cx) ->
          Fs.lookup s' x = Some (File sx cx)).
Proof.
  apply (copy_file_copies Posix home [] today 3 collision moveReport "report.pdf"
           (downloads ++ ["report.pdf"]) {| size := 100; mtime := 5 |} (Bytes "new"));
    [reflexivity | reflexivity | reflexivity | reflexivity | reflexivity | cbn; lia].
Defined.

(** The finder on the example tree, with the suffix in lower case. *)
Lemma findFiles_result_witness :
  exists found,
    findFiles Posix downloads ".svg" svgTree = (Ret found, svgTree)
    /\ NoDup found
    /\ (forall p, In p found <->
                  below downloads p /\ isRegularFile svgTree p
                  /\ endsWith (toLowerCase (NodePath.basename p)) ".svg" = true).
Proof.
  apply (findFiles_result Posix svgTree downloads
           [("a.svg", file 1 10 "a");
            ("b", Dir [("B.SVG", file 2 20 "B"); ("c.png", file 3 30 "c")])] ".svg");
    reflexivity.
Defined.

(** x.svg, y.svg and z.svg all move from Downloads to Documents. *)
Lemma move_svg_files_moves_all_witness :
  exists (finals : list path) (s' : fsState),
    handleMoveSvg Posix home [] 4 noArgs threeSvgs
    = (Ret ("Successfully moved 3 SVG file(s) from /home/u/Downloads to "
            ++ "/home/u/OneDrive\Documents" ++ nl ++ nl
            ++ "Moved files:" ++ nl ++ join nl (map NodePath.basename finals))%string, s')
    /\ Forall2 (fun p f => (exists name, f = documents ++ [name])
                           /\ Fs.lookup s' f = Fs.lookup threeSvgs p)
               [downloads ++ ["x.svg"]; downloads ++ ["y.svg"]; downloads ++ ["z.svg"]] finals
    /\ NoDup finals
    /\ (forall p, In p [downloads ++ ["x.svg"]; downloads ++ ["y.svg"]; downloads ++ ["z.svg"]] ->
          isRegularFile threeSvgs p /\ Fs.lookup s' p = None)
    /\ (forall x sx cx, Fs.lookup threeSvgs x = Some (File sx cx) ->
          ~ In x [downloads ++ ["x.svg"]; downloads ++ ["y.svg"]; downloads ++ ["z.svg"]] ->
          Fs.lookup s' x = Some (File sx cx)).
Proof.
  apply (move_svg_files_moves_all Posix home [] 4 threeSvgs noArgs
           [("x.svg", file 1 10 "x"); ("y.svg", file 5 10 "y"); ("z.svg", file 5 10 "z")]
           (downloads ++ ["x.svg"]) [downloads ++ ["y.svg"]; downloads ++ ["z.svg"]]);
    [reflexivity | reflexivity | reflexivity | reflexivity | reflexivity | reflexivity
    | intros _; reflexivity | cbn; lia].
Defined.

(** There is no missing.zip in Downloads. *)
Lemma unzip_without_archive_witness :
  exists message,
    handleUnzip Posix home [] 1 (withFilename "missing.zip") svgTree = (Throw message, svgTree)
    /\ (Fs.exists_ svgTree (NodePath.join Posix (DOWNLOADS_DIR Posix home) "missing.zip") = false ->
        message = "Zip file not found: missing.zip"%string).
Proof.
  destruct (unzip_without_archive Posix home [] 1 svgTree (withFilename "missing.zip")
              "missing.zip") as [Hunzip _].
  - reflexivity.
  - intros st entries. vm_compute. discriminate.
  - exact Hunzip.
Defined.

(** PACK.ZIP cannot be unzipped: the folder to extract into would be the
    archive itself. *)
Lemma unzip_needs_lowercase_suffix_witness :
  handleUnzip Posix home [] 1 (withFilename "PACK.ZIP") upperZip
  = (Throw "EEXIST: file already exists, mkdir '/home/u/Downloads/PACK.ZIP'", upperZip).
Proof.
  destruct (unzip_needs_lowercase_suffix Posix home [] 1 upperZip (withFilename "PACK.ZIP")
              "PACK.ZIP" {| size := 200; mtime := 9 |} packEntries) as [Hunzip _];
    [reflexivity | reflexivity | reflexivity | reflexivity |].
  exact (Hunzip eq_refl).
Defined.

(** Projects is created in Documents; asking again changes nothing. *)
Lemma create_directory_effect_witness :
  exists s',
    handleCreateDirectory Posix home [] 1 createProjects collision
    = (Ret "Successfully created directory: /home/u/OneDrive\Documents/Projects", s')
    /\ Fs.lookup s' (documents ++ ["Projects"]) = Some (Dir [])
    /\ (forall x m, Fs.lookup collision x = Some m -> exists m', Fs.lookup s' x = Some m')
    /\ (forall x sx cx, Fs.lookup collision x = Some (File sx cx) ->
          Fs.lookup s' x = Some (File sx cx))
    /\ handleCreateDirectory Posix home [] 1 createProjects s'
       = (Ret "Directory already exists: /home/u/OneDrive\Documents/Projects", s').
Proof.
  destruct (create_directory_effect Posix home [] 1 collision createProjects "Projects")
    as (_ & Hnew & _); [reflexivity|].
  exact (Hnew eq_refl eq_refl).
Defined.

(** pack.zip is the one zip file in Downloads. *)
Lemma list_zip_files_listing_witness :
  handleListZip Posix home locale folderStats linkStats 1 listTwoZips zipsAndFolder
  = (Ret ("Found 3 zip file(s) in Downloads (showing 2 most recent):" ++ nl ++ nl
          ++ "pack.zip (0.00 MB) - 9" ++ nl ++ "folder.zip (0.00 MB) - 4")%string,
     zipsAndFolder).
Proof.
  destruct (list_zip_files_listing Posix home locale folderStats linkStats 1 zipsAndFolder
              listTwoZips
              [("OLD.ZIP", File {| size := 1048576; mtime := 2 |} (Archive []));
               ("folder.zip", Dir []);
               ("notes.txt", file 7 5 "n");
               ("pack.zip", File {| size := 200; mtime := 9 |} (Archive packEntries))])
    as (_ & _ & _ & Hsome & _); [reflexivity|].
  destruct (Hsome [{| zdName := "OLD.ZIP"; zdSize := 1048576; zdModified := 2 |};
                   {| zdName := "folder.zip"; zdSize := 4096; zdModified := 4 |};
                   {| zdName := "pack.zip"; zdSize := 200; zdModified := 9 |}])
    as (Hrun & _).
  - discriminate.
  - repeat constructor; eexists; split; reflexivity.
  - cbn. lia.
  - exact Hrun.
Defined.

(** a.svg and b/B.SVG, by their paths below Downloads. *)
Lemma list_svg_files_listing_witness :
  exists rels : list path,
    walk Posix ".svg" downloads
      (Dir [("a.svg", file 1 10 "a");
            ("b", Dir [("B.SVG", file 2 20 "B"); ("c.png", file 3 30 "c")])])
    = map (app downloads) rels
    /\ Forall (fun rel => rel <> []) rels
    /\ handleListSvg Posix home [] 1 noArgs svgTree
       = (Ret (match rels with
               | [] => "No SVG files found in /home/u/Downloads"
               | _ :: _ =>
                   "Found " ++ showNat (List.length rels) ++ " SVG file(s) in "
                   ++ "/home/u/Downloads" ++ ":" ++ nl ++ nl
                   ++ join nl (map (String.concat "/") rels)
               end)%string, svgTree).
Proof.
  destruct (list_svg_files_listing Posix home [] 1 svgTree noArgs) as [_ Hfound].
  apply (Hfound [("a.svg", file 1 10 "a");
                 ("b", Dir [("B.SVG", file 2 20 "B"); ("c.png", file 3 30 "c")])]);
    reflexivity.
Defined.

(** With limit -1 the oldest of the four SVG files is left out. *)
Lemma list_files_shown_count_witness :
  exists shown hidden,
    sortByModified
      (matchingFiles listAllButOne
         (detailsOf Posix folderStats linkStats fourSvgs (searchDirOf Posix home [] listAllButOne)
            [("one.svg", file 10 100 "1"); ("notes.txt", file 99 5 "n");
             ("two.svg", file 40 2048 "2"); ("three.svg", file 20 100 "3");
             ("four.svg", file 30 100 "4")]))
    = shown ++ hidden
    /\ handleListFiles Posix home [] locale folderStats linkStats 1 listAllButOne fourSvgs
       = (Ret (listingText Posix home [] listAllButOne (renderShown locale shown)
                 (List.length shown) 4), fourSvgs)
    /\ Z.of_nat (List.length shown) = 3%Z.
Proof.
  apply (list_files_shown_count Posix home [] locale folderStats linkStats 1 fourSvgs listAllButOne
           [("one.svg", file 10 100 "1"); ("notes.txt", file 99 5 "n");
            ("two.svg", file 40 2048 "2"); ("three.svg", file 20 100 "3");
            ("four.svg", file 30 100 "4")]);
    [reflexivity | vm_compute; discriminate].
Defined.

(** "SVG", "svg" and ".svg" ask for the same listing. *)
Lemma list_files_type_normalised_witness :
  handleListFiles Posix home [] locale folderStats linkStats 1 (withFileType noArgs ".SVG") fourSvgs
  = handleListFiles Posix home [] locale folderStats linkStats 1 (withFileType noArgs "SVG") fourSvgs.
Proof.
  destruct (list_files_type_normalised Posix home [] locale folderStats linkStats 1 noArgs "SVG" fourSvgs)
    as [_ Hdot].
  exact (Hdot eq_refl).
Defined.

(** delete_file is no tool of the server. *)
Lemma unserved_tool_names_witness :
  handleRequest Posix home [] locale today folderStats linkStats 1 "delete_file" noArgs svgTree
  = (failed "Unknown tool: delete_file", svgTree).
Proof.
  destruct (unserved_tool_names Posix home [] locale today folderStats linkStats 1 noArgs svgTree)
    as (_ & _ & _ & Hunknown & _).
  apply (Hunknown "delete_file"%string).
  cbn. intros H. repeat (destruct H as [H | H]; [discriminate|]). exact H.
Defined.

(** Downloads holds report.pdf only: no SVG file, nothing is changed. *)
Lemma nothing_to_move_witness :
  handleMoveLatestSvg Posix home [] folderStats linkStats 3 latestToIcons collision
  = (Ret "No SVG files found in /home/u/Downloads", collision)
  /\ handleMoveSvg Posix home [] 3 latestToIcons collision
     = (Ret "No SVG files found in /home/u/Downloads", collision).
Proof.
  destruct (nothing_to_move Posix home [] folderStats linkStats 3 collision latestToIcons
              [("report.pdf", file 5 100 "new")]) as (Hlatest & Hall & _);
    [reflexivity | reflexivity |].
  split; [exact (Hlatest "Icons"%string eq_refl) | exact (Hall eq_refl)].
Defined.

(** Of y.svg and z.svg, both modified at time 5, the first one is moved;
    x.svg and z.svg stay. *)
Lemma C2_latest_selection_witness :
  exists (name : string) (s' : fsState),
    handleMoveLatestSvg Posix home [] folderStats linkStats 3 latestToIcons threeSvgs
    = (Ret ("Successfully moved the latest SVG file to "
            ++ showPath Posix (documents ++ ["Icons"; name])%list
            ++ nl ++ nl ++ "File: y.svg")%string, s')
    /\ Fs.lookup s' (documents ++ ["Icons"; name]) = Some (file 5 10 "y")
    /\ Fs.lookup s' (downloads ++ ["y.svg"]) = None
    /\ Fs.lookup s' (downloads ++ ["z.svg"]) = Some (file 5 10 "z")
    /\ Fs.lookup s' (downloads ++ ["x.svg"]) = Some (file 1 10 "x").
Proof.
  destruct (C2_latest_selection Posix home [] folderStats linkStats 3 threeSvgs latestToIcons
              "Icons"
              [("x.svg", file 1 10 "x"); ("y.svg", file 5 10 "y"); ("z.svg", file 5 10 "z")]
              (downloads ++ ["x.svg"]) [downloads ++ ["y.svg"]; downloads ++ ["z.svg"]])
    as (pre & latest & post & name & s' & _ & _ & _ & _ & Hunique & Hrun & _ & _ & Hnew
        & Hgone & Hothers);
    [reflexivity | reflexivity | reflexivity | reflexivity | reflexivity | cbn; lia |].
  assert (Hy : downloads ++ ["y.svg"] = latest).
  { apply (Hunique [downloads ++ ["x.svg"]] (downloads ++ ["y.svg"]) [downloads ++ ["z.svg"]]).
    - reflexivity.
    - intros x [<- | []]. vm_compute. reflexivity.
    - intros x [<- | []]. vm_compute. discriminate. }
  subst latest. exists name, s'.
  split; [exact Hrun|]. split; [exact Hnew|]. split; [exact Hgone|].
  split; apply Hothers; (reflexivity || discriminate).
Defined.

(** Of x.svg, y.svg and z.svg a newest one moves to Documents/Icons. *)
Lemma move_latest_svg_succeeds_witness :
  exists (latest : path) (name : string) (s' : fsState),
    In latest [downloads ++ ["x.svg"]; downloads ++ ["y.svg"]; downloads ++ ["z.svg"]]
    /\ (forall x,
          In x [downloads ++ ["x.svg"]; downloads ++ ["y.svg"]; downloads ++ ["z.svg"]] ->
          (mtimeAt threeSvgs x <= mtimeAt threeSvgs latest)%Z)
    /\ handleMoveLatestSvg Posix home [] folderStats linkStats 3 latestToIcons threeSvgs
       = (Ret ("Successfully moved the latest SVG file to "
               ++ showPath Posix (documents ++ ["Icons"; name])%list
               ++ nl ++ nl ++ "File: " ++ NodePath.basename latest)%string, s')
    /\ Fs.lookup threeSvgs (documents ++ ["Icons"; name]) = None
    /\ Fs.lookup s' (documents ++ ["Icons"; name]) = Fs.lookup threeSvgs latest
    /\ isRegularFile threeSvgs latest
    /\ Fs.lookup s' latest = None
    /\ (forall x sx cx, Fs.lookup threeSvgs x = Some (File sx cx) -> x <> latest ->
          Fs.lookup s' x = Some (File sx cx)).
Proof.
  apply (move_latest_svg_succeeds Posix home [] folderStats linkStats 3 threeSvgs latestToIcons "Icons"
           [("x.svg", file 1 10 "x"); ("y.svg", file 5 10 "y"); ("z.svg", file 5 10 "z")]
           (downloads ++ ["x.svg"]) [downloads ++ ["y.svg"]; downloads ++ ["z.svg"]]);
    [reflexivity | reflexivity | reflexivity | reflexivity | reflexivity | cbn; lia].
Defined.

(** report_2.pdf is a name in Documents with the extension of report.pdf. *)
Lemma numbered_names_witness :
  numbered Posix documents "report.pdf" 2 = documents ++ ["report_2.pdf"]
  /\ NodePath.extname Posix "report_2.pdf" = ".pdf"%string.
Proof.
  destruct (numbered_names Posix documents "report.pdf" 2) as (Hname & _ & Hext & _);
    [reflexivity|].
  split; [exact Hname | exact Hext].
Defined.

(** A source given as /Data/Art is looked for in /data/art. *)
Lemma custom_locations_lower_cased_witness :
  sourceDirOf Posix home [] (withSource noArgs "/Data/Art") = ["data"; "art"].
Proof.
  destruct (custom_locations_lower_cased Posix home [] today 1 noArgs "/Data/Art" svgTree)
    as (_ & _ & _ & Hcustom).
  destruct Hcustom as [Hsource _]; [discriminate | discriminate | discriminate |].
  exact Hsource.
Defined.

(** Without a Documents folder x.svg stays where it is. *)
Lemma move_svg_files_needs_documents_witness :
  exists message,
    handleMoveSvg Posix [] [] 1 noArgs
      (Dir [("Downloads", Dir [("x.svg", file 1 10 "x")])])
    = (Throw message, Dir [("Downloads", Dir [("x.svg", file 1 10 "x")])]).
Proof.
  apply (move_svg_files_needs_documents Posix [] [] 1
           (Dir [("Downloads", Dir [("x.svg", file 1 10 "x")])]) noArgs
           [("x.svg", file 1 10 "x")] ["Downloads"; "x.svg"] []);
    [reflexivity | reflexivity | reflexivity | reflexivity | reflexivity | lia].
Defined.


(** report.pdf is copied twice: two copies under different names. *)
Lemma copy_file_twice_witness :
  exists (name1 name2 : string) (s1 s2 : fsState),
    handleCopyFile Posix home [] today 4 moveReport collision
    = (Ret ("Successfully copied report.pdf to "
            ++ showPath Posix (documents ++ [name1])%list)%string, s1)
    /\ handleCopyFile Posix home [] (fun t => t) 4 moveReport s1
       = (Ret ("Successfully copied report.pdf to "
               ++ showPath Posix (documents ++ [name2])%list)%string, s2)
    /\ name1 <> name2
    /\ Fs.lookup collision (documents ++ [name1]) = None
    /\ Fs.lookup collision (documents ++ [name2]) = None
    /\ Fs.lookup s2 (documents ++ [name1]) = Some (file 9000 100 "new")
    /\ Fs.lookup s2 (documents ++ [name2]) = Some (file 5 100 "new")
    /\ Fs.lookup s2 (downloads ++ ["report.pdf"]) = Some (file 5 100 "new").
Proof.
  apply (copy_file_twice Posix home [] today (fun t => t) 4 collision moveReport "report.pdf"
           {| size := 100; mtime := 5 |} (Bytes "new"));
    [reflexivity | reflexivity | reflexivity | reflexivity | cbn; lia].
Defined.

(** The extracted icons/b.svg moves to Documents/Icons. *)
Lemma extracted_svgs_are_moved_witness :
  exists (finals : list path) (s' : fsState),
    collectExtractedSvgs Posix home 3 "pack.zip" "Icons" packEntries
      (downloads ++ ["pack"]) unpacked
    = (Ret ("Success! " ++ tada ++ nl ++ nl ++ "1. Unzipped pack.zip (3 total files)" ++ nl
            ++ "2. Found 1 SVG file(s)" ++ nl
            ++ "3. Moved all SVGs to Documents\Icons" ++ nl ++ nl
            ++ "Moved files:" ++ nl ++ join nl (map NodePath.basename finals))%string, s')
    /\ Forall2 (fun p f => (exists name, f = documents ++ ["Icons"; name])
                           /\ Fs.lookup s' f = Fs.lookup unpacked p)
               [downloads ++ ["pack"; "icons"; "b.svg"]] finals
    /\ NoDup finals
    /\ (forall p, In p [downloads ++ ["pack"; "icons"; "b.svg"]] ->
          isRegularFile unpacked p /\ Fs.lookup s' p = None)
    /\ (forall x sx cx, Fs.lookup unpacked x = Some (File sx cx) ->
          ~ In x [downloads ++ ["pack"; "icons"; "b.svg"]] ->
          Fs.lookup s' x = Some (File sx cx)).
Proof.
  destruct (extracted_svgs_are_moved Posix home 3 unpacked "pack.zip" "Icons" packEntries
              (downloads ++ ["pack"])
              [("a.txt", file 7 5 "new A"); ("icons", Dir [("b.svg", file 8 3 "img")])])
    as [_ Hmove]; [reflexivity | reflexivity |].
  apply Hmove; [discriminate | reflexivity | reflexivity | reflexivity | vm_compute; lia].
Defined.

End MoreSampleRuns.
